(** * Jocko broker: request handling, topic creation and partition roles

    A shallow embedding of the request handlers of the jocko [Broker]
    (handleCreateTopic, handleDeleteTopics, handleLeaderAndISR,
    handleOffsets, handleProduce, createTopic, buildPartitions,
    becomeFollower, becomeLeader, Run) together with the properties the
    specification states about them.

    Conventions.
    - Go's int16/int32/int64 values are [Z]; conversions that can wrap are
      written with [int16] / [int32].
    - A handler is a computation in the monad [M]: it threads the broker
      and ends in a value, a Go panic, or divergence.
    - A [*Replica] is the registry cell it lives in: the registry maps
      (topic, partition) to the replica, and a mutation through the
      pointer is an update of that cell.
    - Calls that leave the process (Raft, RPC, the replicator goroutine)
      are recorded in the broker's [trace]; their results come from [Env].
    - Draws from math/rand and readings of the wall clock are counted in
      the broker ([rng], [clock]); their values come from [Env], so two
      draws or two readings need not agree.
    - Logger calls and the broker mutex have no effect on the values
      computed here and are left out. *)

From Stdlib Require Import ZArith Lia.
From stdpp Require Import gmap strings list fin_maps.

Local Open Scope Z_scope.

(** ** Machine integers *)

(** Two's-complement reduction to [w] bits, as Go's integer conversions. *)
Definition wrap (w : Z) (z : Z) : Z :=
  (z + 2 ^ (w - 1)) mod 2 ^ w - 2 ^ (w - 1).

Definition int16 (z : Z) : Z := wrap 16 z.
Definition int32 (z : Z) : Z := wrap 32 z.

Definition in_int16 (z : Z) : Prop := - 2 ^ 15 <= z < 2 ^ 15.

(** ** protocol: error codes *)

(** The errors the broker signals. *)
Inductive Error : Type :=
  | ErrUnknown
  | ErrNone
  | ErrUnknownTopicOrPartition
  | ErrNotLeaderForPartition
  | ErrReplicaNotAvailable
  | ErrTopicAlreadyExists
  | ErrInvalidReplicationFactor
  | ErrNotController.

(** Modelled from the spec: the protocol package's error table is not among
    the sources. Error codes are 16-bit signed integers with ErrNone = 0;
    the other codes are those of the wire protocol the broker is compatible
    with. [WithErr] keeps the code, so it is not modelled. *)
Definition Code (e : Error) : Z :=
  match e with
  | ErrUnknown => -1
  | ErrNone => 0
  | ErrUnknownTopicOrPartition => 3
  | ErrNotLeaderForPartition => 6
  | ErrReplicaNotAvailable => 9
  | ErrTopicAlreadyExists => 36
  | ErrInvalidReplicationFactor => 38
  | ErrNotController => 41
  end.

(** ** structs and metadata *)

(** structs.Partition *)
Record Partition : Type := mkPartition {
  Partition_Topic : string;
  Partition_ID : Z;
  Partition_Partition : Z;
  Partition_Leader : Z;
  Partition_AR : list Z;
  Partition_ISR : list Z;
  Partition_ControllerEpoch : Z;
  Partition_LeaderEpoch : Z
}.

(** structs.Topic: [Partitions] is a Go map from partition id to AR. *)
Record Topic : Type := mkTopic {
  Topic_Topic : string;
  Topic_Partitions : gmap Z (list Z)
}.

(** metadata.Broker, as far as the handlers read it. *)
Record BrokerMeta : Type := mkBrokerMeta {
  BrokerMeta_ID : Z;
  BrokerMeta_Addr : string
}.

(** A reference to a replica: its cell in the registry. *)
Definition ReplicaRef : Type := string * Z.

(** A Replicator, as built by [NewReplicator(cfg, replica, NewClient(conn))]:
    the replica it feeds and the connection to the leader it pulls from
    ([None] is Go's nil, when the broker lookup knows no such broker). *)
Record Replicator : Type := mkReplicator {
  Replicator_replica : ReplicaRef;
  Replicator_leader : option BrokerMeta
}.

(** ** protocol: requests and responses *)

Record PartitionState : Type := mkPartitionState {
  PS_Topic : string;
  PS_Partition : Z;
  PS_ControllerEpoch : Z;
  PS_Leader : Z;
  PS_LeaderEpoch : Z;
  PS_ISR : list Z;
  PS_ZKVersion : Z;
  PS_Replicas : list Z
}.

Record LeaderAndISRRequest : Type := mkLeaderAndISRRequest {
  LReq_ControllerID : Z;
  LReq_ControllerEpoch : Z;
  LReq_PartitionStates : list PartitionState
}.

Record LeaderAndISRPartition : Type := mkLeaderAndISRPartition {
  LPart_Topic : string;
  LPart_Partition : Z;
  LPart_ErrorCode : Z
}.

Record LeaderAndISRResponse : Type := mkLeaderAndISRResponse {
  LResp_ErrorCode : Z;
  LResp_Partitions : list LeaderAndISRPartition
}.

Record CreateTopicRequest : Type := mkCreateTopicRequest {
  CTReq_Topic : string;
  CTReq_NumPartitions : Z;
  CTReq_ReplicationFactor : Z
}.

Record TopicErrorCode : Type := mkTopicErrorCode {
  TEC_Topic : string;
  TEC_ErrorCode : Z
}.

Record OffsetsPartition : Type := mkOffsetsPartition {
  OP_Partition : Z;
  OP_Timestamp : Z
}.

Record OffsetsTopic : Type := mkOffsetsTopic {
  OT_Topic : string;
  OT_Partitions : list OffsetsPartition
}.

Record PartitionResponse : Type := mkPartitionResponse {
  PR_Partition : Z;
  PR_ErrorCode : Z;
  PR_Offsets : list Z
}.

Record OffsetResponse : Type := mkOffsetResponse {
  OR_Topic : string;
  OR_PartitionResponses : list PartitionResponse
}.

Record ProducePartitionResponse : Type := mkProducePartitionResponse {
  PPR_Partition : Z;
  PPR_ErrorCode : Z;
  PPR_BaseOffset : Z;
  PPR_Timestamp : Z
}.

Record ProduceResponse : Type := mkProduceResponse {
  PResp_Topic : string;
  PResp_PartitionResponses : list ProducePartitionResponse
}.

Record RequestHeader : Type := mkRequestHeader {
  Header_APIKey : Z;
  Header_APIVersion : Z;
  Header_CorrelationID : Z;
  Header_ClientID : string
}.

Inductive APIKey : Type :=
  | ProduceKey | FetchKey | OffsetsKey | MetadataKey | LeaderAndISRKey
  | StopReplicaKey | GroupCoordinatorKey | JoinGroupKey | HeartbeatKey
  | LeaveGroupKey | SyncGroupKey | DescribeGroupsKey | ListGroupsKey
  | APIVersionsKey | CreateTopicsKey | DeleteTopicsKey.

Record APIVersion : Type := mkAPIVersion {
  AV_APIKey : APIKey;
  AV_MinVersion : Z;
  AV_MaxVersion : Z
}.

(** ** Raft commands and the replicated state store *)

Inductive RaftCmd : Type :=
  | RegisterTopicRequest (t : Topic)
  | DeregisterTopicRequest (t : Topic)
  | RegisterPartitionRequest (p : Partition).

Record FSM : Type := mkFSM {
  fsm_topics : gmap string Topic;
  fsm_partitions : gmap (string * Z) Partition
}.

(** Modelled from the spec: the fsm package is not among the sources. Its
    commands: RegisterTopic creates the topic if absent, else is a no-op;
    DeregisterTopic removes the topic and all its partition rows;
    RegisterPartition upserts the partition record. *)
Definition fsm_apply (c : RaftCmd) (s : FSM) : FSM :=
  match c with
  | RegisterTopicRequest t =>
      match fsm_topics s !! Topic_Topic t with
      | Some _ => s
      | None => mkFSM (<[Topic_Topic t := t]> (fsm_topics s)) (fsm_partitions s)
      end
  | DeregisterTopicRequest t =>
      mkFSM (delete (Topic_Topic t) (fsm_topics s))
            (filter (λ kv, fst (fst kv) ≠ Topic_Topic t) (fsm_partitions s))
  | RegisterPartitionRequest p =>
      mkFSM (fsm_topics s)
            (<[(Partition_Topic p, Partition_ID p) := p]> (fsm_partitions s))
  end.

(** ** Effects that leave the process *)

Inductive Event : Type :=
  | EvRaftApply (c : RaftCmd)
  | EvReplicatorClose (r : Replicator)
  | EvReplicate (r : Replicator)
  | EvSendLeaderAndISR (to : BrokerMeta) (req : LeaderAndISRRequest).

(** ** The CommitLog interface *)

(** The operations of the [CommitLog] interface the handlers call; [RS] is
    the record set handed to [Append]. Both mutating operations return the
    log they leave behind; [Append] also returns the base offset, or [None]
    for a Go error, and [Truncate] whether it returned an error. *)
Class CommitLog (L RS : Type) : Type := {
  NewestOffset : L → Z;
  OldestOffset : L → Z;
  Append : L → RS → L * option Z;
  Truncate : L → Z → L * bool
}.

(** commitlog.Options, with the path kept as its components. *)
Record CommitLogOptions : Type := mkCommitLogOptions {
  Opt_DataDir : string;
  Opt_PartitionID : Z;
  Opt_MaxSegmentBytes : Z;
  Opt_MaxLogBytes : Z
}.

(** ** Results of a handler *)

Inductive outcome (A : Type) : Type :=
  | Ret (a : A)
  | Panic
  | Diverge.
Arguments Ret {A} a.
Arguments Panic {A}.
Arguments Diverge {A}.

Definition outcome_bind {A B} (o : outcome A) (f : A → outcome B) : outcome B :=
  match o with
  | Ret a => f a
  | Panic => Panic
  | Diverge => Diverge
  end.

(** Go's [contains] helper. *)
Fixpoint contains (rs : list Z) (r : Z) : bool :=
  match rs with
  | [] => false
  | ri :: rs' => if ri =? r then true else contains rs' r
  end.

Global Instance Error_eq_dec : EqDecision Error.
Proof. solve_decision. Defined.

Section Jocko.

Context {L RS : Type} {CL : CommitLog L RS}.

(** ** The broker *)

(** Replica: [Replica_Log] and [Replica_Replicator] are Go references that
    may be nil. *)
Record Replica : Type := mkReplica {
  Replica_BrokerID : Z;
  Replica_Partition : Partition;
  Replica_IsLocal : bool;
  Replica_Log : option L;
  Replica_Hw : Z;
  Replica_Leo : Z;
  Replica_Replicator : option Replicator
}.

(** The state a handler reads and writes. [raftLeader] is
    [raft.State() == raft.Leader]; [brokers] is what
    [brokerLookup.Brokers()] returns; [LANMembers] is [serf.Members()];
    [rng] counts the draws made from math/rand's global source and
    [clock] the readings of the wall clock. *)
Record Broker : Type := mkBroker {
  config_ID : Z;
  config_DevMode : bool;
  config_DataDir : string;
  raftLeader : bool;
  fsm : FSM;
  brokers : list BrokerMeta;
  LANMembers : list string;
  replicaLookup : gmap (string * Z) Replica;
  rng : nat;
  clock : nat;
  trace : list Event
}.

(** What the world outside the handlers answers. The history of effects so
    far is an argument, so two calls need not agree; the random source and
    the clock are asked by the number of the draw or of the reading. *)
Record Env : Type := mkEnv {
  raftApplyErr : list Event → RaftCmd → bool;
  getTopicErr : string → bool;
  closeErr : list Event → Replicator → bool;
  rpcErr : list Event → BrokerMeta → LeaderAndISRRequest → bool;
  commitlogNew : list Event → CommitLogOptions → option L;
  randSource : nat → Z;
  timeNow : nat → Z
}.

Variable env : Env.

Definition set_fsm (s : FSM) (b : Broker) : Broker :=
  mkBroker (config_ID b) (config_DevMode b) (config_DataDir b) (raftLeader b)
           s (brokers b) (LANMembers b) (replicaLookup b) (rng b) (clock b) (trace b).

Definition set_replicaLookup (m : gmap (string * Z) Replica) (b : Broker) : Broker :=
  mkBroker (config_ID b) (config_DevMode b) (config_DataDir b) (raftLeader b)
           (fsm b) (brokers b) (LANMembers b) m (rng b) (clock b) (trace b).

Definition set_rng (n : nat) (b : Broker) : Broker :=
  mkBroker (config_ID b) (config_DevMode b) (config_DataDir b) (raftLeader b)
           (fsm b) (brokers b) (LANMembers b) (replicaLookup b) n (clock b) (trace b).

Definition set_clock (n : nat) (b : Broker) : Broker :=
  mkBroker (config_ID b) (config_DevMode b) (config_DataDir b) (raftLeader b)
           (fsm b) (brokers b) (LANMembers b) (replicaLookup b) (rng b) n (trace b).

Definition set_trace (t : list Event) (b : Broker) : Broker :=
  mkBroker (config_ID b) (config_DevMode b) (config_DataDir b) (raftLeader b)
           (fsm b) (brokers b) (LANMembers b) (replicaLookup b) (rng b) (clock b) t.

Definition set_Log (l : option L) (r : Replica) : Replica :=
  mkReplica (Replica_BrokerID r) (Replica_Partition r) (Replica_IsLocal r)
            l (Replica_Hw r) (Replica_Leo r) (Replica_Replicator r).

Definition set_Replicator (x : option Replicator) (r : Replica) : Replica :=
  mkReplica (Replica_BrokerID r) (Replica_Partition r) (Replica_IsLocal r)
            (Replica_Log r) (Replica_Hw r) (Replica_Leo r) x.

Definition set_Partition (p : Partition) (r : Replica) : Replica :=
  mkReplica (Replica_BrokerID r) p (Replica_IsLocal r)
            (Replica_Log r) (Replica_Hw r) (Replica_Leo r) (Replica_Replicator r).

(** ** The handler monad *)

Definition M (A : Type) : Type := Broker → outcome A * Broker.

Definition ret {A} (a : A) : M A := λ b, (Ret a, b).

Definition bind {A B} (m : M A) (f : A → M B) : M B :=
  λ b, match m b with
       | (Ret a, b') => f a b'
       | (Panic, b') => (Panic, b')
       | (Diverge, b') => (Diverge, b')
       end.

Definition panic {A} : M A := λ b, (Panic, b).
Definition diverge {A} : M A := λ b, (Diverge, b).
Definition get : M Broker := λ b, (Ret b, b).
Definition modify (f : Broker → Broker) : M unit := λ b, (Ret tt, f b).
Definition emit (e : Event) : M unit := modify (λ b, set_trace (trace b ++ [e]) b).
Definition lift {A} (f : Broker → outcome A) : M A := λ b, (f b, b).

Notation "'do' x <- c ; k" := (bind c (λ x, k))
  (at level 10, x name, c at level 100, k at level 200).
Notation "'exec' c ; k" := (bind c (λ _, k))
  (at level 10, c at level 100, k at level 200).

(** A range loop that fills one slot of the result per element. *)
Fixpoint forM {A B} (f : A → M B) (l : list A) : M (list B) :=
  match l with
  | [] => ret []
  | a :: l' => do x <- f a; do xs <- forM f l'; ret (x :: xs)
  end.

(** ** Collaborators *)

(** [b.raftApply]: the command is proposed; when Raft reports no error it
    has been committed and applied to the local state store. Returns
    whether an error was reported. *)
Definition raftApply (c : RaftCmd) : M bool :=
  λ b, let err := raftApplyErr env (trace b) c in
       let b1 := set_trace (trace b ++ [EvRaftApply c]) b in
       (Ret err, if err then b1 else set_fsm (fsm_apply c (fsm b1)) b1).

(** [state.GetTopic]: the topic (nil when absent) and whether the store
    reported an error. *)
Definition GetTopic (s : FSM) (name : string) : option Topic * bool :=
  if getTopicErr env name then (None, true) else (fsm_topics s !! name, false).

(** Go's conversion of an integer to a string, as [raft.ServerID(cmd.Leader)]
    applies it to an int32: the UTF-8 encoding of the code point of that
    number (the runtime's encoderune), and that of U+FFFD for a number that
    is no code point: a negative one, a surrogate, one above U+10FFFF. *)
Definition runeError : Z := 65533.

Definition encoderune (r : Z) : list Z :=
  let i := r mod 2 ^ 32 in
  if i <=? 127 then [r]
  else if i <=? 2047 then
    [Z.lor 192 (Z.shiftr r 6); Z.lor 128 (Z.land r 63)]
  else
    let r := if (1114111 <? i) || ((55296 <=? i) && (i <=? 57343))
             then runeError else r in
    if r <=? 65535 then
      [Z.lor 224 (Z.shiftr r 12); Z.lor 128 (Z.land (Z.shiftr r 6) 63);
       Z.lor 128 (Z.land r 63)]
    else
      [Z.lor 240 (Z.shiftr r 18); Z.lor 128 (Z.land (Z.shiftr r 12) 63);
       Z.lor 128 (Z.land (Z.shiftr r 6) 63); Z.lor 128 (Z.land r 63)].

Definition bytes_to_string (bs : list Z) : string :=
  foldr (λ z s, String (Ascii.ascii_of_N (Z.to_N z)) s) EmptyString bs.

Definition ServerID (id : Z) : string := bytes_to_string (encoderune id).

(** Modelled from the spec: brokerLookup is not among the sources; it maps
    a broker id to the broker's connection data. [BrokerByID] is asked with
    a raft.ServerID, a string: a broker is held under the ServerID of its
    id, and the answer is nil for a ServerID that no broker is held under.
    Of two brokers held under one ServerID the first is answered. *)
Fixpoint BrokerByID (mems : list BrokerMeta) (id : string) : option BrokerMeta :=
  match mems with
  | [] => None
  | m :: mems' =>
      if String.eqb (ServerID (BrokerMeta_ID m)) id then Some m
      else BrokerByID mems' id
  end.

(** [rand.Int31n]: panics for n <= 0, else a draw in [0, n). *)
Definition Int31n (n : Z) : M Z :=
  λ b, if n <=? 0 then (Panic, b)
       else (Ret (randSource env (rng b) mod n), set_rng (S (rng b)) b).

(** [time.Now().Unix()]: every call is a reading of its own. *)
Definition time_Now : M Z :=
  λ b, (Ret (timeNow env (clock b)), set_clock (S (clock b)) b).

(** [replica.Replicator.Close()], reporting whether it returned an error. *)
Definition Replicator_Close (r : Replicator) : M bool :=
  λ b, (Ret (closeErr env (trace b) r),
        set_trace (trace b ++ [EvReplicatorClose r]) b).

(** Dereference of a [*Replica]; a nil pointer panics. *)
Definition deref (k : ReplicaRef) : M Replica :=
  λ b, match replicaLookup b !! k with
       | Some r => (Ret r, b)
       | None => (Panic, b)
       end.

(** Assignment through a [*Replica]. *)
Definition store (k : ReplicaRef) (f : Replica → Replica) : M unit :=
  modify (λ b, set_replicaLookup (alter f k (replicaLookup b)) b).

(** Modelled from the spec: replicaLookup (the replica registry) is not
    among the sources; it maps (topic, partition) to the Replica handle.
    [AddReplica] registers the replica under its topic and partition. *)
Definition AddReplica (r : Replica) : M unit :=
  modify (λ b, set_replicaLookup
                 (<[(Partition_Topic (Replica_Partition r),
                     Partition_Partition (Replica_Partition r)) := r]>
                    (replicaLookup b)) b).

Definition isController (b : Broker) : bool := raftLeader b.

(** ** Replication: becomeFollower and becomeLeader *)

Definition becomeFollower (replica : ReplicaRef) (cmd : PartitionState) : M Error :=
  do r0 <- deref replica;
  do closeFailed <-
    match Replica_Replicator r0 with
    | Some old => Replicator_Close old
    | None => ret false
    end;
  if closeFailed then ret ErrUnknown else
  match Replica_Log r0 with
  | None => panic
  | Some l =>
      let hw := NewestOffset l in
      let '(l', truncateFailed) := Truncate l hw in
      exec store replica (set_Log (Some l'));
      if truncateFailed then ret ErrUnknown else
      do b <- get;
      let conn := BrokerByID (brokers b) (ServerID (PS_Leader cmd)) in
      let r := mkReplicator replica conn in
      exec store replica (set_Replicator (Some r));
      exec (if negb (config_DevMode b) then emit (EvReplicate r) else ret tt);
      ret ErrNone
  end.

Definition becomeLeader_fields (cmd : PartitionState) (p : Partition) : Partition :=
  mkPartition (Partition_Topic p) (Partition_ID p) (Partition_Partition p)
              (PS_Leader cmd) (PS_Replicas cmd) (PS_ISR cmd)
              (Partition_ControllerEpoch p) (PS_ZKVersion cmd).

Definition becomeLeader (replica : ReplicaRef) (cmd : PartitionState) : M Error :=
  do r0 <- deref replica;
  do closeFailed <-
    match Replica_Replicator r0 with
    | Some old =>
        do failed <- Replicator_Close old;
        if failed then ret true
        else exec store replica (set_Replicator None); ret false
    | None => ret false
    end;
  if closeFailed then ret ErrUnknown else
  exec store replica
         (λ r, set_Partition (becomeLeader_fields cmd (Replica_Partition r)) r);
  ret ErrNone.

(** ** startReplica *)

Definition startReplica (replica : ReplicaRef) : M Error :=
  do r0 <- deref replica;
  do b <- get;
  let '(topic, err) := GetTopic (fsm b) (Partition_Topic (Replica_Partition r0)) in
  if err then ret ErrUnknown else
  match topic with
  | None => ret ErrUnknownTopicOrPartition
  | Some topic =>
      let isReplica :=
        contains (default [] (Topic_Partitions topic !! Partition_ID (Replica_Partition r0)))
                 (config_ID b) in
      if negb isReplica then ret ErrReplicaNotAvailable else
      match Replica_Log r0 with
      | Some _ => ret ErrNone
      | None =>
          match commitlogNew env (trace b)
                  (mkCommitLogOptions (config_DataDir b)
                     (Partition_ID (Replica_Partition r0)) 1024 (-1)) with
          | None => ret ErrUnknown
          | Some log => exec store replica (set_Log (Some log)); ret ErrNone
          end
      end
  end.

(** ** handleLeaderAndISR *)

Definition setErr (p : PartitionState) (err : Error) : LeaderAndISRPartition :=
  mkLeaderAndISRPartition (PS_Topic p) (PS_Partition p) (Code err).

Definition newReplica (b : Broker) (p : PartitionState) : Replica :=
  mkReplica (config_ID b)
            (mkPartition (PS_Topic p) (PS_Partition p) (PS_Partition p)
                         (PS_Leader p) (PS_Replicas p) (PS_ISR p)
                         (PS_ZKVersion p) (PS_LeaderEpoch p))
            true None 0 0 None.

(** Which transition a PartitionState asks of a replica. *)
Inductive Transition : Type := ToLeader | ToFollower | NoTransition.

Definition transition (b : Broker) (r : Replica) (isNew : bool) (p : PartitionState)
  : Transition :=
  if (PS_Leader p =? config_ID b)
     && (negb (Partition_Leader (Replica_Partition r) =? config_ID b) || isNew)
  then ToLeader
  else if contains (PS_Replicas p) (config_ID b)
          && (negb (contains (Partition_AR (Replica_Partition r)) (PS_Leader p)) || isNew)
  then ToFollower
  else NoTransition.

(** The head of the loop body: find the replica in the registry, or build
    it from the PartitionState and register it. Returns [isNew]. *)
Definition lookupOrCreateReplica (p : PartitionState) : M bool :=
  do b <- get;
  let isNew := bool_decide (replicaLookup b !! (PS_Topic p, PS_Partition p) = None) in
  exec (if isNew then AddReplica (newReplica b p) else ret tt);
  ret isNew.

Definition handleLeaderAndISR_partition (p : PartitionState) : M LeaderAndISRPartition :=
  let replica : ReplicaRef := (PS_Topic p, PS_Partition p) in
  do isNew <- lookupOrCreateReplica p;
  do err <- startReplica replica;
  if bool_decide (err ≠ ErrNone) then ret (setErr p err) else
  do r <- deref replica;
  do b <- get;
  match transition b r isNew p with
  | ToLeader =>
      do err <- becomeLeader replica p;
      if bool_decide (err ≠ ErrNone) then ret (setErr p err)
      else ret (mkLeaderAndISRPartition (PS_Topic p) (PS_Partition p) (Code ErrNone))
  | ToFollower =>
      do err <- becomeFollower replica p;
      if bool_decide (err ≠ ErrNone) then ret (setErr p err)
      else ret (mkLeaderAndISRPartition (PS_Topic p) (PS_Partition p) (Code ErrNone))
  | NoTransition =>
      ret (mkLeaderAndISRPartition (PS_Topic p) (PS_Partition p) (Code ErrNone))
  end.

(** The response's own [ErrorCode] is never assigned: it keeps Go's zero. *)
Definition handleLeaderAndISR (req : LeaderAndISRRequest) : M LeaderAndISRResponse :=
  do parts <- forM handleLeaderAndISR_partition (LReq_PartitionStates req);
  ret (mkLeaderAndISRResponse 0 parts).

(** ** buildPartitions *)

(** The follower loop of [buildPartitions]:
    [for replica := r; len(replicas) < int(replicationFactor); replica++].
    One unit of fuel is one evaluation of the loop condition; [None] means
    the fuel ran out. [replica] stays in [-1, memCount), so the int32
    arithmetic never wraps. *)
Fixpoint walk (fuel : nat) (memCount leader replicationFactor : Z)
         (replica : Z) (replicas : list Z) : option (list Z) :=
  match fuel with
  | O => None
  | S fuel' =>
      if Z.of_nat (length replicas) <? replicationFactor then
        let replicas' :=
          if negb (replica =? leader) then replicas ++ [replica] else replicas in
        let replica' := if replica + 1 =? memCount then -1 else replica in
        walk fuel' memCount leader replicationFactor (replica' + 1) replicas'
      else Some replicas
  end.

(** Fuel that suffices whenever the loop terminates at all: of two
    consecutive iterations at least one appends, unless the single position
    0 is the leader's id (see [walk_fuel_enough] and [walk_diverges]). *)
Definition walkFuel (replicationFactor : Z) : nat :=
  S (Z.to_nat (2 * replicationFactor)).

(** The body of the partition loop, for partition [i]. *)
Definition buildPartition (topic : string) (replicationFactor : Z)
           (mems : list BrokerMeta) (memCount : Z) (i : Z) : M Partition :=
  if memCount =? 0 then panic else
  match mems !! Z.to_nat (Z.rem i memCount) with
  | None => panic
  | Some m =>
      let leader := BrokerMeta_ID m in
      do r <- Int31n memCount;
      match walk (walkFuel replicationFactor) memCount leader
                 replicationFactor r [leader] with
      | None => diverge
      | Some replicas => ret (mkPartition topic i i leader replicas replicas 0 0)
      end
  end.

(** [for i := int32(0); i < partitionsCount; i++], with [n] iterations left. *)
Fixpoint buildPartitions_loop (topic : string) (replicationFactor : Z)
         (mems : list BrokerMeta) (memCount : Z)
         (n : nat) (i : Z) (partitions : list Partition) : M (list Partition) :=
  match n with
  | O => ret partitions
  | S n' =>
      do partition <- buildPartition topic replicationFactor mems memCount i;
      buildPartitions_loop topic replicationFactor mems memCount n' (i + 1)
                           (partitions ++ [partition])
  end.

Definition buildPartitions (topic : string) (partitionsCount replicationFactor : Z)
  : M (list Partition) :=
  do b <- get;
  let mems := brokers b in
  let memCount := int32 (Z.of_nat (length mems)) in
  buildPartitions_loop topic replicationFactor mems memCount
                       (Z.to_nat partitionsCount) 0 [].

(** ** createTopic *)

Definition createPartition (partition : Partition) : M bool :=
  raftApply (RegisterPartitionRequest partition).

(** The loop over [ps] that registers each partition and returns at the
    first error; the result says whether it returned early. *)
Fixpoint createPartitions (ps : list Partition) : M bool :=
  match ps with
  | [] => ret false
  | partition :: ps' =>
      do failed <- createPartition partition;
      if failed then ret true else createPartitions ps'
  end.

Definition partitionState (partition : Partition) : PartitionState :=
  mkPartitionState (Partition_Topic partition) (Partition_ID partition) 0
                   (Partition_Leader partition) 0 (Partition_ISR partition) 0
                   (Partition_AR partition).

(** [NewClient(s)] followed by [c.LeaderAndISR]; reports whether the call
    returned an error. *)
Definition client_LeaderAndISR (s : BrokerMeta) (req : LeaderAndISRRequest) : M bool :=
  λ b, (Ret (rpcErr env (trace b) s req),
        set_trace (trace b ++ [EvSendLeaderAndISR s req]) b).

Definition dispatchLeaderAndISR (req : LeaderAndISRRequest) (s : BrokerMeta) : M unit :=
  do b <- get;
  if BrokerMeta_ID s =? config_ID b then
    do resp <- handleLeaderAndISR req;
    if negb (Code ErrNone =? LResp_ErrorCode resp) then panic else ret tt
  else
    do failed <- client_LeaderAndISR s req;
    if failed then panic else ret tt.

Definition createTopic (topic : string) (partitions replicationFactor : Z) : M Error :=
  do b <- get;
  match fst (GetTopic (fsm b) topic) with
  | Some _ => ret ErrTopicAlreadyExists
  | None =>
      do ps <- buildPartitions topic partitions replicationFactor;
      let tt :=
        mkTopic topic
          (foldl (λ m partition, <[Partition_ID partition := Partition_AR partition]> m)
                 ∅ ps) in
      do failed <- raftApply (RegisterTopicRequest tt);
      if failed then ret ErrUnknown else
      do failed <- createPartitions ps;
      if failed then ret ErrUnknown else
      let req := mkLeaderAndISRRequest (config_ID b) 0 (map partitionState ps) in
      do b' <- get;
      exec forM (dispatchLeaderAndISR req) (brokers b');
      ret ErrNone
  end.

(** ** handleCreateTopic and handleDeleteTopics *)

Definition handleCreateTopic_request (isController : bool) (req : CreateTopicRequest)
  : M TopicErrorCode :=
  if negb isController then
    ret (mkTopicErrorCode (CTReq_Topic req) (Code ErrNotController))
  else
    do b <- get;
    if int16 (Z.of_nat (length (LANMembers b))) <? CTReq_ReplicationFactor req then
      ret (mkTopicErrorCode (CTReq_Topic req) (Code ErrInvalidReplicationFactor))
    else
      do err <- createTopic (CTReq_Topic req) (CTReq_NumPartitions req)
                            (CTReq_ReplicationFactor req);
      ret (mkTopicErrorCode (CTReq_Topic req) (Code err)).

Definition handleCreateTopic (reqs : list CreateTopicRequest) : M (list TopicErrorCode) :=
  do b <- get;
  let isController := isController b in
  forM (handleCreateTopic_request isController) reqs.

Definition handleDeleteTopics_topic (isController : bool) (topic : string)
  : M TopicErrorCode :=
  if negb isController then
    ret (mkTopicErrorCode topic (Code ErrNotController))
  else
    do failed <- raftApply (DeregisterTopicRequest (mkTopic topic ∅));
    if failed then ret (mkTopicErrorCode topic (Code ErrUnknown))
    else ret (mkTopicErrorCode topic (Code ErrNone)).

Definition handleDeleteTopics (topics : list string) : M (list TopicErrorCode) :=
  do b <- get;
  let isController := isController b in
  forM (handleDeleteTopics_topic isController) topics.

(** ** handleOffsets *)

(** The loop over [t.Partitions]; [acc] is the slice appended to. The
    handler only reads the broker. A registered replica whose log was never
    opened has a nil [Log], and calling it panics. *)
Fixpoint handleOffsets_partitions (b : Broker) (topic : string)
         (ps : list OffsetsPartition) (acc : list PartitionResponse)
  : outcome (list PartitionResponse) :=
  match ps with
  | [] => Ret acc
  | p :: ps' =>
      match replicaLookup b !! (topic, OP_Partition p) with
      | None => handleOffsets_partitions b topic ps' acc
      | Some replica =>
          match Replica_Log replica with
          | None => Panic
          | Some log =>
              let offset :=
                if OP_Timestamp p =? -2 then OldestOffset log else NewestOffset log in
              let pResp := mkPartitionResponse (OP_Partition p) 0 [offset] in
              handleOffsets_partitions b topic ps' (acc ++ [pResp])
          end
      end
  end.

Fixpoint handleOffsets_topics (b : Broker) (ts : list OffsetsTopic)
  : outcome (list OffsetResponse) :=
  match ts with
  | [] => Ret []
  | t :: ts' =>
      outcome_bind (handleOffsets_partitions b (OT_Topic t) (OT_Partitions t) [])
        (λ prs, outcome_bind (handleOffsets_topics b ts')
                  (λ rest, Ret (mkOffsetResponse (OT_Topic t) prs :: rest)))
  end.

Definition handleOffsets (b : Broker) (req : list OffsetsTopic)
  : outcome (list OffsetResponse) :=
  handleOffsets_topics b req.

(** ** handleProduce *)

Record ProduceData : Type := mkProduceData {
  PD_Partition : Z;
  PD_RecordSet : RS
}.

Record ProduceTopicData : Type := mkProduceTopicData {
  PTD_Topic : string;
  PTD_Data : list ProduceData
}.

Definition handleProduce_partition (topic : string) (p : ProduceData)
  : M ProducePartitionResponse :=
  do b <- get;
  let '(t, err) := GetTopic (fsm b) topic in
  if err then ret (mkProducePartitionResponse 0 (Code ErrUnknown) 0 0) else
  match t with
  | None => ret (mkProducePartitionResponse 0 (Code ErrUnknownTopicOrPartition) 0 0)
  | Some _ =>
      match replicaLookup b !! (topic, PD_Partition p) with
      | None =>
          ret (mkProducePartitionResponse (PD_Partition p)
                 (Code ErrReplicaNotAvailable) 0 0)
      | Some replica =>
          match Replica_Log replica with
          | None => panic
          | Some log =>
              let '(log', res) := Append log (PD_RecordSet p) in
              exec store (topic, PD_Partition p) (set_Log (Some log'));
              match res with
              | None => ret (mkProducePartitionResponse 0 (Code ErrUnknown) 0 0)
              | Some offset =>
                  do now <- time_Now;
                  ret (mkProducePartitionResponse (PD_Partition p) 0 offset now)
              end
          end
      end
  end.

Definition handleProduce_topic (td : ProduceTopicData) : M ProduceResponse :=
  do presps <- forM (handleProduce_partition (PTD_Topic td)) (PTD_Data td);
  ret (mkProduceResponse (PTD_Topic td) presps).

Definition handleProduce (req : list ProduceTopicData) : M (list ProduceResponse) :=
  forM handleProduce_topic req.

(** ** handleAPIVersions *)

Definition APIVersions : list APIVersion :=
  [ mkAPIVersion ProduceKey 2 2;
    mkAPIVersion FetchKey 0 0;
    mkAPIVersion OffsetsKey 0 0;
    mkAPIVersion MetadataKey 0 0;
    mkAPIVersion LeaderAndISRKey 0 0;
    mkAPIVersion StopReplicaKey 0 0;
    mkAPIVersion GroupCoordinatorKey 0 0;
    mkAPIVersion JoinGroupKey 0 0;
    mkAPIVersion HeartbeatKey 0 0;
    mkAPIVersion LeaveGroupKey 0 0;
    mkAPIVersion SyncGroupKey 0 0;
    mkAPIVersion DescribeGroupsKey 0 0;
    mkAPIVersion ListGroupsKey 0 0;
    mkAPIVersion APIVersionsKey 0 0;
    mkAPIVersion CreateTopicsKey 0 0;
    mkAPIVersion DeleteTopicsKey 0 0 ].

Definition handleAPIVersions : M (list APIVersion) := ret APIVersions.

(** ** Run *)

Section Run.

(** The Fetch and Metadata handlers are not modelled: [Run] is given for
    any two handlers of these requests. *)
Variables FetchRequest FetchResponses MetadataRequest MetadataResponse : Type.
Variable handleFetch : FetchRequest → M FetchResponses.
Variable handleMetadata : MetadataRequest → M MetadataResponse.

(** The decoded request: the cases of the type switch, and any other type. *)
Inductive RequestBody : Type :=
  | ReqAPIVersions
  | ReqProduce (req : list ProduceTopicData)
  | ReqFetch (req : FetchRequest)
  | ReqOffsets (req : list OffsetsTopic)
  | ReqMetadata (req : MetadataRequest)
  | ReqCreateTopics (reqs : list CreateTopicRequest)
  | ReqDeleteTopics (topics : list string)
  | ReqLeaderAndISR (req : LeaderAndISRRequest)
  | ReqOther.

Inductive ResponseBody : Type :=
  | RespAPIVersions (r : list APIVersion)
  | RespProduce (r : list ProduceResponse)
  | RespFetch (r : FetchResponses)
  | RespOffsets (r : list OffsetResponse)
  | RespMetadata (r : MetadataResponse)
  | RespCreateTopics (r : list TopicErrorCode)
  | RespDeleteTopics (r : list TopicErrorCode)
  | RespLeaderAndISR (r : LeaderAndISRResponse).

(** [Request]: [Request_Header] is a pointer and may be nil. *)
Record Request : Type := mkRequest {
  Request_Conn : Z;
  Request_Header : option RequestHeader;
  Request_Request : RequestBody
}.

(** protocol.Response *)
Record ProtocolResponse : Type := mkProtocolResponse {
  PResponse_CorrelationID : Z;
  PResponse_Body : option ResponseBody
}.

Record Response : Type := mkResponse {
  Response_Conn : Z;
  Response_Header : option RequestHeader;
  Response_Response : ProtocolResponse
}.

(** The type switch. [resp] is declared outside the loop: a request of a
    type the switch does not list leaves it as the previous iteration set
    it. *)
Definition Run_switch (req : RequestBody) (resp : option ResponseBody)
  : M (option ResponseBody) :=
  match req with
  | ReqAPIVersions => do r <- handleAPIVersions; ret (Some (RespAPIVersions r))
  | ReqProduce q => do r <- handleProduce q; ret (Some (RespProduce r))
  | ReqFetch q => do r <- handleFetch q; ret (Some (RespFetch r))
  | ReqOffsets q => do r <- lift (λ b, handleOffsets b q); ret (Some (RespOffsets r))
  | ReqMetadata q => do r <- handleMetadata q; ret (Some (RespMetadata r))
  | ReqCreateTopics q => do r <- handleCreateTopic q; ret (Some (RespCreateTopics r))
  | ReqDeleteTopics q => do r <- handleDeleteTopics q; ret (Some (RespDeleteTopics r))
  | ReqLeaderAndISR q => do r <- handleLeaderAndISR q; ret (Some (RespLeaderAndISR r))
  | ReqOther => ret resp
  end.

(** What the [select] of one iteration yields: a request received, or
    [ctx.Done()] chosen. Go's select chooses among the cases that are
    ready, so a sequence of events is one schedule of the run. *)
Inductive RunEvent : Type :=
  | Recv (request : Request)
  | Done.

(** How a run over a finite sequence of events ends: [Run] returned, it is
    blocked in the [select] with nothing left to receive, or a handler
    panicked or diverged. *)
Inductive RunEnd : Type := Returned | Blocked | Panicked | Diverged.

(** [Run]: the responses sent on [responsec], in order, how the run ends,
    and the broker it leaves. *)
Fixpoint Run_loop (evs : list RunEvent) (resp : option ResponseBody) (b : Broker)
  : list Response * RunEnd * Broker :=
  match evs with
  | [] => ([], Blocked, b)
  | Done :: _ => ([], Returned, b)
  | Recv request :: evs' =>
      match Run_switch (Request_Request request) resp b with
      | (Ret resp', b') =>
          match Request_Header request with
          | None => ([], Panicked, b')
          | Some header =>
              let out :=
                mkResponse (Request_Conn request) (Some header)
                  (mkProtocolResponse (Header_CorrelationID header) resp') in
              let '(outs, e, b'') := Run_loop evs' resp' b' in
              (out :: outs, e, b'')
          end
      | (Panic, b') => ([], Panicked, b')
      | (Diverge, b') => ([], Diverged, b')
      end
  end.

Definition Run (evs : list RunEvent) (b : Broker) : list Response * RunEnd * Broker :=
  Run_loop evs None b.

(** The requests received before the run ends. *)
Fixpoint received (evs : list RunEvent) : list Request :=
  match evs with
  | Recv request :: evs' => request :: received evs'
  | _ => []
  end.

End Run.

End Jocko.

Arguments Request {RS} FetchRequest MetadataRequest.
Arguments mkRequest {RS FetchRequest MetadataRequest} _ _ _.
Arguments Request_Conn {RS FetchRequest MetadataRequest} _.
Arguments Request_Header {RS FetchRequest MetadataRequest} _.
Arguments Request_Request {RS FetchRequest MetadataRequest} _.
Arguments Response_Conn {FetchResponses MetadataResponse} _.
Arguments Response_Header {FetchResponses MetadataResponse} _.
Arguments Response_Response {FetchResponses MetadataResponse} _.
Arguments PResponse_CorrelationID {FetchResponses MetadataResponse} _.
Arguments PResponse_Body {FetchResponses MetadataResponse} _.
Arguments Recv {RS FetchRequest MetadataRequest} _.
Arguments Done {RS FetchRequest MetadataRequest}.
Arguments received {RS FetchRequest MetadataRequest} _.
Arguments Run_switch {L RS CL} env {FetchRequest FetchResponses MetadataRequest
  MetadataResponse} handleFetch handleMetadata req resp _.
Arguments Run_loop {L RS CL} env {FetchRequest FetchResponses MetadataRequest
  MetadataResponse} handleFetch handleMetadata evs resp b.
Arguments Run {L RS CL} env {FetchRequest FetchResponses MetadataRequest
  MetadataResponse} handleFetch handleMetadata evs b.

(** * handleFetch *)

(** protocol.FetchRequest and protocol.FetchResponses, as far as the
    handler reads and writes them. A record set is a sequence of bytes. *)
Record FetchPartition : Type := mkFetchPartition {
  FP_Partition : Z;
  FP_FetchOffset : Z;
  FP_MaxBytes : Z
}.

Record FetchTopic : Type := mkFetchTopic {
  FT_Topic : string;
  FT_Partitions : list FetchPartition
}.

Record FetchRequest : Type := mkFetchRequest {
  FReq_MaxWaitTime : Z;
  FReq_MinBytes : Z;
  FReq_Topics : list FetchTopic
}.

Record FetchPartitionResponse : Type := mkFetchPartitionResponse {
  FPR_Partition : Z;
  FPR_ErrorCode : Z;
  FPR_HighWatermark : Z;
  FPR_RecordSet : list Z
}.

Record FetchResponse : Type := mkFetchResponse {
  FResp_Topic : string;
  FResp_PartitionResponses : list FetchPartitionResponse
}.

(** The error [io.Copy] returns, as the read loop tells the cases apart:
    nil, io.EOF, or another error. *)
Inductive CopyErr : Type := CopyNil | CopyEOF | CopyFailed.

(** Reading from a CommitLog: [NewReader log offset maxBytes] is the reader
    or, for a Go error, [None]; [Copy rdr] is what one [io.Copy(b, rdr)]
    does: the bytes it wrote to the buffer, the error it returned and the
    reader it leaves. *)
Class LogReader (L Rd : Type) : Type := {
  NewReader : L → Z → Z → option Rd;
  Copy : Rd → list Z * CopyErr * Rd
}.

Section Fetch.

Context {L RS Rd : Type} {CL : CommitLog L RS} {LR : LogReader L Rd}.

(** [sinceMs k] is [time.Since(received).Nanoseconds()/1e6] at the [k]-th
    time the handler evaluates it. *)
Variable sinceMs : nat → Z.

(** The assignment [fr.PartitionResponses[j] = v] to slot [j]. *)
Definition assign {A : Type} (slot : option A) (v : A) : option A := Some v.

(** The loop [for n < r.MinBytes]. One unit of fuel is one evaluation of
    the loop condition; [None] means the fuel ran out. The result is the
    number of clock readings made so far, the buffer, and what the loop
    left in the partition's slot (the ErrUnknown response, when a copy
    failed). *)
Fixpoint handleFetch_read (fuel : nat) (r : FetchRequest) (partition : Z)
         (tick : nat) (n : Z) (buf : list Z) (rdr : Rd)
         (slot : option FetchPartitionResponse)
  : option (nat * list Z * option FetchPartitionResponse) :=
  match fuel with
  | O => None
  | S fuel' =>
      if n <? FReq_MinBytes r then
        let timedOut :=
          negb (FReq_MaxWaitTime r =? 0)
          && (FReq_MaxWaitTime r <? int32 (sinceMs tick)) in
        let tick' := if FReq_MaxWaitTime r =? 0 then tick else S tick in
        if timedOut then Some (tick', buf, slot)
        else
          let '(bytes, err, rdr') := Copy rdr in
          let nn := Z.of_nat (length bytes) in
          match err with
          | CopyFailed =>
              Some (tick', buf ++ bytes,
                    assign slot
                      (mkFetchPartitionResponse partition (Code ErrUnknown) 0 []))
          | CopyEOF => Some (tick', buf ++ bytes, slot)
          | CopyNil =>
              handleFetch_read fuel' r partition tick' (int32 (n + int32 nn))
                               (buf ++ bytes) rdr' slot
          end
      else Some (tick, buf, slot)
  end.

(** The body of the loop over a topic's partitions: the clock readings
    made and the value slot [j] ends with. *)
Definition handleFetch_partition (fuel : nat) (b : Broker (L := L)) (r : FetchRequest)
           (topic : string) (tick : nat) (p : FetchPartition)
  : option (outcome (nat * option FetchPartitionResponse)) :=
  match replicaLookup b !! (topic, FP_Partition p) with
  | None =>
      Some (Ret (tick,
                 assign None
                   (mkFetchPartitionResponse (FP_Partition p)
                      (Code ErrReplicaNotAvailable) 0 [])))
  | Some replica =>
      if negb (Partition_Leader (Replica_Partition replica) =? config_ID b) then
        Some (Ret (tick,
                   assign None
                     (mkFetchPartitionResponse (FP_Partition p)
                        (Code ErrNotLeaderForPartition) 0 [])))
      else
        match Replica_Log replica with
        | None => Some Panic
        | Some log =>
            match NewReader log (FP_FetchOffset p) (FP_MaxBytes p) with
            | None =>
                Some (Ret (tick,
                           assign None
                             (mkFetchPartitionResponse (FP_Partition p)
                                (Code ErrUnknown) 0 [])))
            | Some rdr =>
                match handleFetch_read fuel r (FP_Partition p) tick 0 [] rdr None with
                | None => None
                | Some (tick', buf, slot) =>
                    Some (Ret (tick',
                               assign slot
                                 (mkFetchPartitionResponse (FP_Partition p)
                                    (Code ErrNone) (NewestOffset log) buf)))
                end
            end
        end
  end.

Fixpoint handleFetch_partitions (fuel : nat) (b : Broker (L := L)) (r : FetchRequest)
         (topic : string) (tick : nat) (ps : list FetchPartition)
  : option (outcome (nat * list (option FetchPartitionResponse))) :=
  match ps with
  | [] => Some (Ret (tick, []))
  | p :: ps' =>
      match handleFetch_partition fuel b r topic tick p with
      | None => None
      | Some Panic => Some Panic
      | Some Diverge => Some Diverge
      | Some (Ret (tick', slot)) =>
          match handleFetch_partitions fuel b r topic tick' ps' with
          | None => None
          | Some Panic => Some Panic
          | Some Diverge => Some Diverge
          | Some (Ret (tick'', slots)) => Some (Ret (tick'', slot :: slots))
          end
      end
  end.

Fixpoint handleFetch_topics (fuel : nat) (b : Broker (L := L)) (r : FetchRequest)
         (tick : nat) (ts : list FetchTopic)
  : option (outcome (list (string * list (option FetchPartitionResponse)))) :=
  match ts with
  | [] => Some (Ret [])
  | topic :: ts' =>
      match handleFetch_partitions fuel b r (FT_Topic topic) tick (FT_Partitions topic) with
      | None => None
      | Some Panic => Some Panic
      | Some Diverge => Some Diverge
      | Some (Ret (tick', slots)) =>
          match handleFetch_topics fuel b r tick' ts' with
          | None => None
          | Some Panic => Some Panic
          | Some Diverge => Some Diverge
          | Some (Ret rest) => Some (Ret ((FT_Topic topic, slots) :: rest))
          end
      end
  end.

(** [handleFetch]: each topic of the request with the slots of its
    partition responses ([None] would be a nil pointer; every slot is
    assigned). [None] when the fuel does not suffice for some read loop.
    The handler only reads the broker. *)
Definition handleFetch (fuel : nat) (b : Broker (L := L)) (r : FetchRequest)
  : option (outcome (list (string * list (option FetchPartitionResponse)))) :=
  handleFetch_topics fuel b r 0 (FReq_Topics r).

End Fetch.

(** * handleMetadata *)

(** protocol.Broker, protocol.PartitionMetadata, protocol.TopicMetadata and
    protocol.MetadataResponse. *)
Record MetaBroker : Type := mkMetaBroker {
  MB_NodeID : Z;
  MB_Host : string;
  MB_Port : Z
}.

Record PartitionMetadata : Type := mkPartitionMetadata {
  PM_PartitionErrorCode : Z;
  PM_ParititionID : Z;
  PM_Leader : Z;
  PM_Replicas : list Z;
  PM_ISR : list Z
}.

Record TopicMetadata : Type := mkTopicMetadata {
  TM_TopicErrorCode : Z;
  TM_Topic : string;
  TM_PartitionMetadata : list PartitionMetadata
}.

Record MetadataResponse : Type := mkMetadataResponse {
  MResp_Brokers : list MetaBroker;
  MResp_TopicMetadata : list TopicMetadata
}.

Section Metadata.

Context {L : Type} (env : Env (L := L)).

(** Functions of other packages, taken as given: [metadata.IsBroker] on a
    serf member ([None] when the member is no broker), [net.SplitHostPort]
    and [strconv.Atoi] ([None] for an error), and whether
    [state.GetPartition] reports an error. *)
Variable IsBroker : string → option BrokerMeta.
Variable SplitHostPort : string → option (string * string).
Variable Atoi : string → option Z.
Variable getPartitionErr : string → Z → bool.

(** [state.GetPartition]: the partition record (nil when absent) and
    whether the store reported an error. *)
Definition GetPartition (s : FSM) (topic : string) (id : Z) : option Partition * bool :=
  if getPartitionErr topic id then (None, true)
  else (fsm_partitions s !! (topic, id), false).

(** The loop over [b.LANMembers()]; [brokers] is the slice appended to.
    Every entry gets this broker's own id as its NodeID. *)
Fixpoint handleMetadata_brokers (b : Broker (L := L)) (mems : list string)
         (brokers : list MetaBroker) : outcome (list MetaBroker) :=
  match mems with
  | [] => Ret brokers
  | mem :: mems' =>
      match IsBroker mem with
      | None => handleMetadata_brokers b mems' brokers
      | Some m =>
          match SplitHostPort (BrokerMeta_Addr m) with
          | None => Panic
          | Some (host, portStr) =>
              match Atoi portStr with
              | None => Panic
              | Some port =>
                  handleMetadata_brokers b mems'
                    (brokers ++ [mkMetaBroker (config_ID b) host (int32 port)])
              end
          end
      end
  end.

(** The body of the loop over a topic's partition ids. *)
Definition partitionMetadata (s : FSM) (topic : Topic) (id : Z) : PartitionMetadata :=
  match GetPartition s (Topic_Topic topic) id with
  | (_, true) => mkPartitionMetadata (Code ErrUnknown) id 0 [] []
  | (None, false) => mkPartitionMetadata (Code ErrUnknownTopicOrPartition) id 0 [] []
  | (Some p, false) =>
      mkPartitionMetadata (Code ErrNone) (Partition_ID p) (Partition_Leader p)
                          (Partition_AR p) (Partition_ISR p)
  end.

(** [topicMetadataFn]. Go ranges over the map [topic.Partitions] in an
    order of its choosing; here the ids come in the order of
    [map_to_list]. *)
Definition topicMetadataFn (s : FSM) (topic : Topic) (err : Error) : TopicMetadata :=
  if bool_decide (err ≠ ErrNone) then
    mkTopicMetadata (Code err) (Topic_Topic topic) []
  else
    mkTopicMetadata (Code ErrNone) (Topic_Topic topic)
      (map (λ kv, partitionMetadata s topic (fst kv))
           (map_to_list (Topic_Partitions topic))).

(** The metadata of one requested topic. *)
Definition handleMetadata_topic (s : FSM) (topicName : string) : TopicMetadata :=
  let '(topic, err) := GetTopic env s topicName in
  match topic with
  | None => topicMetadataFn s (mkTopic topicName ∅) ErrUnknownTopicOrPartition
  | Some topic =>
      if err then topicMetadataFn s (mkTopic topicName ∅) ErrUnknown
      else topicMetadataFn s topic ErrNone
  end.

(** [handleMetadata] on the topics of the request. The handler only reads
    the broker. *)
Definition handleMetadata (b : Broker (L := L)) (topics : list string)
  : outcome MetadataResponse :=
  let state := fsm b in
  outcome_bind (handleMetadata_brokers b (LANMembers b) [])
    (λ brokers,
       let topicMetadata :=
         match topics with
         | [] => map (λ kv, topicMetadataFn state (snd kv) ErrNone)
                     (map_to_list (fsm_topics state))
         | _ => map (handleMetadata_topic state) topics
         end in
       Ret (mkMetadataResponse brokers topicMetadata)).

End Metadata.

(** * Concrete brokers *)

(** Modelled from the spec: the commitlog package is not among the sources.
    An in-memory log: NewestOffset is the log-end offset (exclusive),
    OldestOffset the base of the earliest retained record; append writes the
    whole record set or nothing, returns the previous log-end offset and
    advances it by the number of records in the set; after truncate(t),
    NewestOffset <= t. [ml_failing] makes every mutating operation return
    an I/O error. *)
Record MemLog : Type := mkMemLog {
  ml_oldest : Z;
  ml_records : list string;
  ml_failing : bool
}.

#[global] Instance MemLog_CommitLog : CommitLog MemLog (list string) := {
  NewestOffset l := ml_oldest l + Z.of_nat (length (ml_records l));
  OldestOffset l := ml_oldest l;
  Append l rs :=
    if ml_failing l then (l, None)
    else (mkMemLog (ml_oldest l) (ml_records l ++ rs) false,
          Some (ml_oldest l + Z.of_nat (length (ml_records l))));
  Truncate l t :=
    if ml_failing l then (l, true)
    else (mkMemLog (ml_oldest l)
                   (take (Z.to_nat (t - ml_oldest l)) (ml_records l)) false,
          false)
}.

(** A world in which nothing fails, every new log is empty, every random
    draw is 0 and the clock reads 0. *)
Definition env_ok : Env (L := MemLog) :=
  mkEnv (λ _ _, false) (λ _, false) (λ _ _, false) (λ _ _ _, false)
        (λ _ _, Some (mkMemLog 0 [] false)) (λ _, 0) (λ _, 0).

(** The same world, except that the clock advances by one second from one
    reading to the next. *)
Definition env_ticking : Env (L := MemLog) :=
  mkEnv (λ _ _, false) (λ _, false) (λ _ _, false) (λ _ _ _, false)
        (λ _ _, Some (mkMemLog 0 [] false)) (λ _, 0)
        (λ n, 1500000000 + Z.of_nat n).

(** The same world, except that RPCs to other brokers fail. *)
Definition env_rpc_down : Env (L := MemLog) :=
  mkEnv (λ _ _, false) (λ _, false) (λ _ _, false) (λ _ _ _, true)
        (λ _ _, Some (mkMemLog 0 [] false)) (λ _, 0) (λ _, 0).

Definition three_brokers : list BrokerMeta :=
  [mkBrokerMeta 1 "10.0.0.1:9092"; mkBrokerMeta 2 "10.0.0.2:9092";
   mkBrokerMeta 3 "10.0.0.3:9092"].

(** Broker 1 of a three-broker cluster, with Raft leadership [leads]. *)
Definition broker1 (leads : bool) : Broker (L := MemLog) :=
  mkBroker 1 false "/tmp/jocko" leads (mkFSM ∅ ∅) three_brokers
           ["node1"; "node2"; "node3"] ∅ 0 0 [].

(** Broker 1 holding a replica of partition ("t", 0) that broker 2 leads:
    the log has three records and a replicator pulls from broker 2. *)
Definition followed_partition : Partition :=
  mkPartition "t" 0 0 2 [2; 1] [2; 1] 0 0.

Definition follower_replica : Replica (L := MemLog) :=
  mkReplica 1 followed_partition true (Some (mkMemLog 0 ["a"; "b"; "c"] false)) 0 0
            (Some (mkReplicator ("t", 0) (Some (mkBrokerMeta 2 "10.0.0.2:9092")))).

Definition follower_broker : Broker (L := MemLog) :=
  mkBroker 1 false "/tmp/jocko" false
           (mkFSM {["t" := mkTopic "t" {[0 := [2; 1]]}]}
                  {[("t", 0) := followed_partition]})
           three_brokers ["node1"; "node2"; "node3"]
           {[("t", 0) := follower_replica]} 0 0 [].

(** The fields of a replica other than its log and its replicator. *)
Definition Replica_meta {L : Type} (r : Replica (L := L)) : Z * Partition * bool * Z * Z :=
  (Replica_BrokerID r, Replica_Partition r, Replica_IsLocal r,
   Replica_Hw r, Replica_Leo r).

(** What closing the replicator of [r] adds to the trace, and whether the
    close reports an error, when the trace so far is [t]. *)
Definition closing {L : Type} (r : Replica (L := L)) : list Event :=
  match Replica_Replicator r with
  | Some old => [EvReplicatorClose old]
  | None => []
  end.

Definition closeFails {L : Type} (env : Env (L := L)) (t : list Event)
           (r : Replica (L := L)) : bool :=
  match Replica_Replicator r with
  | Some old => closeErr env t old
  | None => false
  end.

(** Broker 1 of a cluster whose other brokers have the ids 2000000 and
    3000000; the state store holds topic "t" and the broker has no replica
    yet. *)
Definition far_brokers : list BrokerMeta :=
  [mkBrokerMeta 1 "10.0.0.1:9092"; mkBrokerMeta 2000000 "10.0.0.2:9092";
   mkBrokerMeta 3000000 "10.0.0.3:9092"].

Definition far_broker : Broker (L := MemLog) :=
  mkBroker 1 false "/tmp/jocko" false
           (mkFSM {["t" := mkTopic "t" {[0 := [3000000; 1]]}]} ∅)
           far_brokers ["node1"; "node2"; "node3"] ∅ 0 0 [].

(** A PartitionState that tells broker 1 to follow broker [leader] for
    ("t", 0). *)
Definition follow_far (leader : Z) : PartitionState :=
  mkPartitionState "t" 0 0 leader 0 [leader; 1] 0 [leader; 1].

(** A PartitionState that tells broker 1 to follow broker 3. *)
Definition follow3 : PartitionState :=
  mkPartitionState "t" 0 0 3 0 [3; 1] 0 [3; 1].

(** A PartitionState that makes broker 1 the leader. *)
Definition lead1 : PartitionState :=
  mkPartitionState "t" 0 0 1 0 [1; 2] 7 [1; 2].

(** What [handleOffsets] answers for one requested partition: nothing
    when the registry has no replica (or the replica no log), else the
    single offset chosen by the timestamp. *)
Definition offsetsAnswer {L RS : Type} {CL : CommitLog L RS} (b : Broker (L := L))
           (topic : string) (p : OffsetsPartition) : option PartitionResponse :=
  match replicaLookup b !! (topic, OP_Partition p) with
  | Some replica =>
      match Replica_Log replica with
      | Some log =>
          Some (mkPartitionResponse (OP_Partition p) (Code ErrNone)
                  [if OP_Timestamp p =? -2 then OldestOffset log else NewestOffset log])
      | None => None
      end
  | None => None
  end.

(** Broker 1 with the replica of ("t", 0) whose log holds five records. *)
Definition five_records : MemLog := mkMemLog 0 ["a"; "b"; "c"; "d"; "e"] false.

Definition five_records_replica : Replica (L := MemLog) :=
  mkReplica 1 (mkPartition "t" 0 0 1 [1] [1] 0 0) true (Some five_records) 0 0 None.

Definition five_records_broker : Broker (L := MemLog) :=
  mkBroker 1 false "/tmp/jocko" true
           (mkFSM {["t" := mkTopic "t" {[0 := [1]]}]} ∅)
           three_brokers ["node1"; "node2"; "node3"]
           {[("t", 0) := five_records_replica]} 0 0 [].

(** An OffsetsRequest for ("t", 0) with the sentinel and with another
    timestamp, and for ("t", 1), of which the broker has no replica. *)
Definition offsets_request : list OffsetsTopic :=
  [mkOffsetsTopic "t"
     [mkOffsetsPartition 0 (-2); mkOffsetsPartition 1 (-1); mkOffsetsPartition 0 (-1)]].

(** A run of broker 1: an OffsetsRequest with correlation id 42 on
    connection 7, then cancellation. Fetch and Metadata requests carry no
    payload here and are answered at once. *)
Definition no_handler : unit → M (L := MemLog) unit := λ _, ret tt.

Definition offsets_call : Request (RS := list string) unit unit :=
  mkRequest 7 (Some (mkRequestHeader 2 0 42 "client")) (ReqOffsets unit unit offsets_request).

Definition one_call : list (RunEvent (RS := list string) unit unit) :=
  [Recv offsets_call; Done].

(** The same run with an APIVersionsRequest with correlation id 43 after
    the OffsetsRequest. *)
Definition versions_call : Request (RS := list string) unit unit :=
  mkRequest 7 (Some (mkRequestHeader 18 0 43 "client")) (ReqAPIVersions unit unit).

Definition two_calls : list (RunEvent (RS := list string) unit unit) :=
  [Recv offsets_call; Recv versions_call; Done].

(** ** The partition assignment in the specification's words *)

(** The followers of a partition as the specification states them: start
    at position [pos] of the id-sorted members [ids], walk forward with
    wrap-around, skip the leader's position, and collect the broker id at
    each other position until [f] replicas are collected. Fuel as in
    [walk]. *)
Fixpoint spec_followers (fuel : nat) (ids : list Z) (leaderPos f pos : Z)
         (replicas : list Z) : option (list Z) :=
  match fuel with
  | O => None
  | S fuel' =>
      if Z.of_nat (length replicas) <? f then
        match ids !! Z.to_nat pos with
        | None => None
        | Some id =>
            let replicas' := if pos =? leaderPos then replicas else replicas ++ [id] in
            spec_followers fuel' ids leaderPos f
                           ((pos + 1) mod Z.of_nat (length ids)) replicas'
        end
      else Some replicas
  end.

(** Leader, AR and ISR of partition [i] as the specification states them,
    for the random start [r]: the leader is [ids[i mod N]] and ISR = AR. *)
Definition spec_assignment (ids : list Z) (i f r : Z) : option (Z * list Z * list Z) :=
  let leaderPos := i mod Z.of_nat (length ids) in
  match ids !! Z.to_nat leaderPos with
  | None => None
  | Some leader =>
      match spec_followers (walkFuel f) ids leaderPos f r [leader] with
      | None => None
      | Some ar => Some (leader, ar, ar)
      end
  end.

(** Equations between traces, and the existence of a rest of a trace. *)
Ltac trace_eq :=
  cbn; rewrite <- ?app_assoc, ?app_nil_r; cbn;
  first [ reflexivity
        | exists []; rewrite ?app_nil_r; reflexivity
        | eexists; reflexivity ].

(** The side conditions of a step of the follower walk. *)
Ltac walk_side Hfs :=
  lazymatch goal with
  | |- NoDup (_ ++ [_]) =>
      apply NoDup_app; split_and!;
      [done | intros ? ? ->%list_elem_of_singleton; done | apply NoDup_singleton]
  | |- ∀ x, x ∈ _ ++ [_] → _ =>
      let x := fresh "x" in
      let Hx := fresh "Hx" in
      intros x [Hx| ->%list_elem_of_singleton]%elem_of_app;
      [destruct (Hfs x Hx); split; [done|lia] | split; [done|lia]]
  | |- ∀ x, x ∈ _ → _ =>
      let x := fresh "x" in
      let Hx := fresh "Hx" in
      intros x Hx; destruct (Hfs x Hx); split; [done|lia]
  | |- _ => first [done | rewrite ?length_app; cbn [length]; lia]
  end.

(** ** Ways of stating what a handler does *)

(** Every result the computation returns satisfies [P]. *)
Definition returns {L A : Type} (P : A → Prop) (m : M (L := L) A) : Prop :=
  ∀ b x b', m b = (Ret x, b') → P x.

(** The computation takes every broker to one related to it by [R],
    however it ends. *)
Definition keeps {L A : Type} (R : Broker (L := L) → Broker (L := L) → Prop)
           (m : M (L := L) A) : Prop :=
  ∀ b, R b (snd (m b)).

(** The fields of a replica other than its log. *)
Definition Replica_but_log {L : Type} (r : Replica (L := L))
  : Z * Partition * bool * Z * Z * option Replicator :=
  (Replica_BrokerID r, Replica_Partition r, Replica_IsLocal r,
   Replica_Hw r, Replica_Leo r, Replica_Replicator r).

(** The fields of a partition record that [becomeLeader] does not assign. *)
Definition Partition_identity (p : Partition) : string * Z * Z * Z :=
  (Partition_Topic p, Partition_ID p, Partition_Partition p,
   Partition_ControllerEpoch p).

(** A lone broker whose id is 0, and a broker whose lookup is empty. *)
Definition lone_broker0 : Broker (L := MemLog) :=
  mkBroker 0 false "/tmp/jocko" true (mkFSM ∅ ∅) [mkBrokerMeta 0 "10.0.0.1:9092"]
           ["node0"; "other"] ∅ 0 0 [].

Definition no_brokers : Broker (L := MemLog) :=
  mkBroker 1 false "/tmp/jocko" true (mkFSM ∅ ∅) [] ["node1"] ∅ 0 0 [].

(** Destructs the [match]es of a handler, from the outside in. *)
Ltac case_handler :=
  repeat match goal with
         | |- context [match ?x with _ => _ end] =>
             lazymatch x with
             | context [match _ with _ => _ end] => fail
             | _ => destruct x eqn:?
             end
         end.

(** Membership in a list that is written out. *)
Ltac in_list :=
  cbv beta in *;
  repeat match goal with
         | H : _ ∈ _ :: _ |- _ => apply elem_of_cons in H as [->|H]
         | H : _ ∈ [] |- _ => inversion H
         end;
  solve [repeat first [by left | right]].

(** Broker 1 leading partition ("t", 0), which brokers 1 and 2 replicate. *)
Definition leader_broker : Broker (L := MemLog) :=
  mkBroker 1 false "/tmp/jocko" true
           (mkFSM {["t" := mkTopic "t" {[0 := [1; 2]]}]} ∅)
           three_brokers ["node1"; "node2"; "node3"]
           {[("t", 0) :=
               mkReplica 1 (mkPartition "t" 0 0 1 [1; 2] [1; 2] 0 0) true
                         (Some (mkMemLog 0 ["a"] false)) 0 0 None]}
           0 0 [].

(** A PartitionState that keeps broker 1 as leader and drops broker 2 from
    the ISR. *)
Definition lead1_alone : PartitionState :=
  mkPartitionState "t" 0 0 1 0 [1] 0 [1; 2].

(** Broker 1 following broker 2 on partition ("t", 0), which brokers 2, 3
    and 1 replicate. *)
Definition follower_of_2 : Replica (L := MemLog) :=
  mkReplica 1 (mkPartition "t" 0 0 2 [2; 3; 1] [2; 3; 1] 0 0) true
            (Some (mkMemLog 0 ["a"] false)) 0 0
            (Some (mkReplicator ("t", 0) (Some (mkBrokerMeta 2 "10.0.0.2:9092")))).

Definition follower_of_2_broker : Broker (L := MemLog) :=
  mkBroker 1 false "/tmp/jocko" false
           (mkFSM {["t" := mkTopic "t" {[0 := [2; 3; 1]]}]} ∅)
           three_brokers ["node1"; "node2"; "node3"]
           {[("t", 0) := follower_of_2]} 0 0 [].

(** A PartitionState for a topic that no state store holds. *)
Definition ghost_state : PartitionState :=
  mkPartitionState "ghost" 0 0 1 0 [1] 0 [1].

(** The broker of five records after a LeaderAndISR request for the
    topic the state store does not hold. *)
Definition unstarted_broker : Broker (L := MemLog) :=
  snd (handleLeaderAndISR_partition env_ok ghost_state five_records_broker).

(** The topics of the state store are kept. *)
Definition keeps_topics {L : Type} (b b' : Broker (L := L)) : Prop :=
  ∀ topic, is_Some (fsm_topics (fsm b) !! topic) →
           is_Some (fsm_topics (fsm b') !! topic).

(** A world in which every Raft apply fails. *)
Definition env_raft_down : Env (L := MemLog) :=
  mkEnv (λ _ _, true) (λ _, false) (λ _ _, false) (λ _ _ _, false)
        (λ _ _, Some (mkMemLog 0 [] false)) (λ _, 0) (λ _, 0).

(** What [handleProduce] may do to the broker: write logs, and nothing
    else. *)
Definition writes_logs_only {L : Type} (b b' : Broker (L := L)) : Prop :=
  fsm b' = fsm b
  ∧ trace b' = trace b
  ∧ ∀ k : ReplicaRef,
      Replica_but_log <$> replicaLookup b' !! k
      = Replica_but_log <$> replicaLookup b !! k.

(** What the slot of a fetched partition must hold, case by case. *)
Definition fetch_answer {L RS Rd : Type} {CL : CommitLog L RS} {LR : LogReader L Rd}
           (b : Broker (L := L)) (topic : string) (p : FetchPartition)
           (slot : option FetchPartitionResponse) : Prop :=
  ∃ pr,
    slot = Some pr
    ∧ FPR_Partition pr = FP_Partition p
    ∧ (replicaLookup b !! (topic, FP_Partition p) = None →
       FPR_ErrorCode pr = Code ErrReplicaNotAvailable ∧ FPR_RecordSet pr = [])
    ∧ (∀ replica,
         replicaLookup b !! (topic, FP_Partition p) = Some replica →
         Partition_Leader (Replica_Partition replica) ≠ config_ID b →
         FPR_ErrorCode pr = Code ErrNotLeaderForPartition ∧ FPR_RecordSet pr = [])
    ∧ (∀ replica log,
         replicaLookup b !! (topic, FP_Partition p) = Some replica →
         Partition_Leader (Replica_Partition replica) = config_ID b →
         Replica_Log replica = Some log →
         match NewReader log (FP_FetchOffset p) (FP_MaxBytes p) with
         | None => FPR_ErrorCode pr = Code ErrUnknown ∧ FPR_RecordSet pr = []
         | Some _ =>
             FPR_ErrorCode pr = Code ErrNone
             ∧ FPR_HighWatermark pr = NewestOffset log
         end).

(** A reader over a list of chunks: each copy yields the next chunk; when
    [ch_fails] is set, every copy ends with an error. A reader opened at
    the end of the log has no chunk. *)
Record Chunks : Type := mkChunks {
  ch_rest : list (list Z);
  ch_fails : bool
}.

#[global] Instance MemLog_LogReader : LogReader MemLog Chunks := {
  NewReader l offset maxBytes :=
    if offset <? ml_oldest l then None
    else Some (mkChunks
                 (if offset <? ml_oldest l + Z.of_nat (length (ml_records l))
                  then [[1; 2; 3]] else [])
                 (ml_failing l));
  Copy rdr :=
    match ch_rest rdr with
    | [] => ([], if ch_fails rdr then CopyFailed else CopyNil, rdr)
    | c :: cs => (c, if ch_fails rdr then CopyFailed else CopyNil,
                  mkChunks cs (ch_fails rdr))
    end
}.

(** Broker 1 leading ("t", 0) with a log whose reads fail. *)
Definition failing_reads_broker : Broker (L := MemLog) :=
  mkBroker 1 false "/tmp/jocko" true
           (mkFSM {["t" := mkTopic "t" {[0 := [1; 2]]}]} ∅)
           three_brokers ["node1"; "node2"; "node3"]
           {[("t", 0) :=
               mkReplica 1 (mkPartition "t" 0 0 1 [1; 2] [1; 2] 0 0) true
                         (Some (mkMemLog 0 ["a"] true)) 0 0 None]}
           0 0 [].

(** A fetch of ("t", 0), from the given offset, and of ("t", 4), with the
    given MinBytes and no MaxWaitTime. *)
Definition fetch_request (offset minBytes : Z) : FetchRequest :=
  mkFetchRequest 0 minBytes
    [mkFetchTopic "t" [mkFetchPartition 0 offset 1024; mkFetchPartition 4 0 1024]].

(** Every member but "observer" is a broker, reachable at the address
    that is its name; the one address that splits is 10.0.0.1:9092, and
    the one port that parses is 9092. *)
Definition isBroker_by_name (mem : string) : option BrokerMeta :=
  if bool_decide (mem = "observer") then None else Some (mkBrokerMeta 7 mem).

Definition splitHostPort_fixed (addr : string) : option (string * string) :=
  if bool_decide (addr = "10.0.0.1:9092") then Some ("10.0.0.1", "9092") else None.

Definition atoi_9092 (text : string) : option Z :=
  if bool_decide (text = "9092") then Some 9092 else None.

(** Broker 1 seeing two brokers and one member that is none. *)
Definition gossiping_broker : Broker (L := MemLog) :=
  mkBroker 1 false "/tmp/jocko" true
           (mkFSM {["t" := mkTopic "t" {[0 := [1; 2]]}]}
                  {[("t", 0) := mkPartition "t" 0 0 1 [1; 2] [1; 2] 0 0]})
           three_brokers ["10.0.0.1:9092"; "observer"; "10.0.0.1:9092"] ∅ 0 0 [].

(** * Properties *)

(** ** The follower walk *)

Lemma walk_fuel_mono fuel memCount leader f replica replicas out :
  walk fuel memCount leader f replica replicas = Some out →
  walk (S fuel) memCount leader f replica replicas = Some out.
Proof.
  revert replica replicas.
  induction fuel as [|fuel IH]; intros replica replicas H; [discriminate|].
  cbn [walk] in H |- *.
  destruct (Z.of_nat (length replicas) <? f); [|exact H].
  apply IH in H. exact H.
Qed.

(** With a single member whose id is 0, the walk never finds a follower. *)
Lemma walk_diverges fuel f replicas :
  Z.of_nat (length replicas) < f →
  walk fuel 1 0 f 0 replicas = None.
Proof.
  intros Hlen. induction fuel as [|fuel IH]; [reflexivity|].
  cbn [walk]. apply Z.ltb_lt in Hlen. rewrite Hlen. cbn. exact IH.
Qed.

Lemma walk_enough memCount leader f (k : nat) :
  (2 <= memCount ∨ leader ≠ 0) →
  ∀ fuel replica replicas,
    0 <= replica < memCount →
    f - Z.of_nat (length replicas) <= Z.of_nat k →
    (2 * k + 1 <= fuel)%nat →
    is_Some (walk fuel memCount leader f replica replicas).
Proof.
  intros HN. induction k as [|k IH]; intros fuel replica replicas Hr Hk Hfuel.
  - destruct fuel as [|fuel]; [lia|]. cbn [walk].
    destruct (Z.ltb_spec (Z.of_nat (length replicas)) f); [lia|]. eauto.
  - destruct fuel as [|fuel]; [lia|]. cbn [walk].
    destruct (Z.ltb_spec (Z.of_nat (length replicas)) f); [|eauto].
    destruct (Z.eqb_spec replica leader) as [Heq|Hne]; cbn [negb].
    + (* the leader's position: the next one is not *)
      destruct fuel as [|fuel]; [lia|]. cbn [walk].
      destruct (Z.ltb_spec (Z.of_nat (length replicas)) f); [|eauto].
      set (next := (if replica + 1 =? memCount then -1 else replica) + 1).
      assert (Hnext : 0 <= next < memCount ∧ next ≠ leader).
      { subst next. destruct (Z.eqb_spec (replica + 1) memCount); lia. }
      destruct Hnext as [Hnext Hnl].
      destruct (Z.eqb_spec next leader); [contradiction|]. cbn [negb].
      apply IH.
      * destruct (Z.eqb_spec (next + 1) memCount); lia.
      * rewrite length_app. cbn. lia.
      * lia.
    + apply IH.
      * destruct (Z.eqb_spec (replica + 1) memCount); lia.
      * rewrite length_app. cbn. lia.
      * lia.
Qed.

(** The fuel [buildPartition] gives the walk is enough: it runs out only
    in the case of [walk_diverges]. *)
Lemma walk_fuel_enough memCount leader f r :
  (2 <= memCount ∨ leader ≠ 0) →
  0 <= r < memCount →
  is_Some (walk (walkFuel f) memCount leader f r [leader]).
Proof.
  intros HN Hr. apply (walk_enough memCount leader f (Z.to_nat (f - 1)) HN).
  - exact Hr.
  - cbn [length]. lia.
  - unfold walkFuel. lia.
Qed.

(** ** buildPartitions *)

Section BuildPartitions.

Context {L : Type} (env : Env (L := L)).

(** Whatever [buildPartition] returns for partition [i] is led by the
    member at position [i rem memCount], lists the leader first, and has
    its ISR equal to its AR. *)
Lemma buildPartition_leader topic f mems memCount i (b b' : Broker) p :
  buildPartition env topic f mems memCount i b = (Ret p, b') →
  ∃ m, mems !! Z.to_nat (Z.rem i memCount) = Some m
       ∧ Partition_Leader p = BrokerMeta_ID m
       ∧ Partition_ID p = i
       ∧ Partition_ISR p = Partition_AR p.
Proof.
  unfold buildPartition. destruct (memCount =? 0); [discriminate|].
  destruct (mems !! Z.to_nat (Z.rem i memCount)) as [m|]; [|discriminate].
  unfold bind, Int31n. destruct (memCount <=? 0); [discriminate|].
  destruct (walk _ _ _ _ _ _); [|discriminate].
  unfold ret. intros [= <- _]. exists m. cbn. auto.
Qed.

(** When every member's id is its position, the loop of the code is the
    walk of the specification. *)
Lemma walk_is_spec_followers fuel (ids : list Z) leaderPos f pos replicas :
  (∀ (k : nat) id, ids !! k = Some id → id = Z.of_nat k) →
  0 <= pos < Z.of_nat (length ids) →
  walk fuel (Z.of_nat (length ids)) leaderPos f pos replicas
  = spec_followers fuel ids leaderPos f pos replicas.
Proof.
  intros Hids. revert pos replicas.
  induction fuel as [|fuel IH]; intros pos replicas Hpos; [reflexivity|].
  cbn [walk spec_followers].
  destruct (Z.of_nat (length replicas) <? f); [|reflexivity].
  destruct (lookup_lt_is_Some_2 ids (Z.to_nat pos)) as [id Hid]; [lia|].
  rewrite Hid. apply Hids in Hid. rewrite Z2Nat.id in Hid by lia. subst id.
  assert (Hnext : (if pos + 1 =? Z.of_nat (length ids) then -1 else pos) + 1
                  = (pos + 1) mod Z.of_nat (length ids)).
  { destruct (Z.eqb_spec (pos + 1) (Z.of_nat (length ids))) as [->|Hne].
    - by rewrite Z_mod_same_full.
    - rewrite Z.mod_small; lia. }
  rewrite Hnext, IH by (apply Z.mod_pos_bound; lia).
  by destruct (pos =? leaderPos).
Qed.

(** On a cluster whose broker ids are 0, ..., N-1 in order, the partition
    [buildPartition] returns is the one the specification assigns, for the
    start offset drawn. *)
Lemma buildPartition_meets_spec topic f mems i (b b' : Broker) p :
  (∀ (k : nat) m, mems !! k = Some m → BrokerMeta_ID m = Z.of_nat k) →
  Z.of_nat (length mems) < 2 ^ 31 →
  0 <= i →
  buildPartition env topic f mems (int32 (Z.of_nat (length mems))) i b = (Ret p, b') →
  spec_assignment (map BrokerMeta_ID mems) i f
                  (randSource env (rng b) mod Z.of_nat (length mems))
  = Some (Partition_Leader p, Partition_AR p, Partition_ISR p).
Proof.
  intros Hids Hlen Hi.
  assert (Hint : int32 (Z.of_nat (length mems)) = Z.of_nat (length mems)).
  { unfold int32, wrap. rewrite Z.mod_small; lia. }
  rewrite Hint. set (N := Z.of_nat (length mems)) in *.
  unfold buildPartition. destruct (Z.eqb_spec N 0) as [|HN0]; [discriminate|].
  assert (HN : 0 < N) by lia.
  rewrite Z.rem_mod_nonneg by lia.
  destruct (mems !! Z.to_nat (i mod N)) as [m|] eqn:Hm; [|discriminate].
  unfold bind, Int31n. destruct (Z.leb_spec N 0); [lia|].
  pose proof (Hids _ _ Hm) as Hleader.
  rewrite Z2Nat.id in Hleader by (apply Z.mod_pos_bound; lia).
  assert (Hids' : ∀ (k : nat) id, map BrokerMeta_ID mems !! k = Some id → id = Z.of_nat k).
  { intros k id (m' & -> & Hm')%list_lookup_fmap_Some_1. by apply Hids. }
  unfold spec_assignment. rewrite length_map. fold N.
  change (map BrokerMeta_ID mems) with (BrokerMeta_ID <$> mems) at 1.
  rewrite list_lookup_fmap, Hm. cbn [fmap option_fmap option_map].
  rewrite <- walk_is_spec_followers;
    [|exact Hids'|rewrite length_map; apply Z.mod_pos_bound; lia].
  rewrite length_map. fold N. rewrite Hleader.
  destruct (walk _ _ _ _ _ _) as [replicas|]; [|discriminate].
  unfold ret. intros [= <- _]. reflexivity.
Qed.

End BuildPartitions.

(** C1 (fails on the code). The spec has the replicas after the leader be
    broker ids collected by walking the members from a random start and
    skipping the leader. On the cluster of brokers 1, 2, 3, with
    replication factor 2 and the random start 0, the specification assigns
    partition 0 the leader 1 and the replicas [1; 2]; [buildPartitions]
    assigns it the leader 1 and the replica list [1; 0]: the walk collects
    the position 0, compared against the leader's id, and 0 is the id of no
    broker. *)
Theorem C1_followers_are_positions_not_broker_ids :
  spec_assignment (map BrokerMeta_ID three_brokers) 0 2 0 = Some (1, [1; 2], [1; 2])
  ∧ fst (buildPartitions env_ok "t" 1 2 (broker1 true))
    = Ret [mkPartition "t" 0 0 1 [1; 0] [1; 0] 0 0]
  ∧ map BrokerMeta_ID (brokers (broker1 true)) = [1; 2; 3]
  ∧ BrokerByID (brokers (broker1 true)) (ServerID 0) = None.
Proof. split_and!; vm_compute; reflexivity. Qed.

(** ** handleProduce *)

Section Produce.

Context {L RS : Type} {CL : CommitLog L RS} (env : Env (L := L)).

(** A produce to a registered replica with an open log appends and reports
    the base offset; the partition's leader is not consulted. *)
Lemma handleProduce_partition_appends (b : Broker) topic (p : ProduceData) t replica log log' offset :
  getTopicErr env topic = false →
  fsm_topics (fsm b) !! topic = Some t →
  replicaLookup b !! (topic, PD_Partition p) = Some replica →
  Replica_Log replica = Some log →
  Append log (PD_RecordSet p) = (log', Some offset) →
  handleProduce_partition env topic p b
  = (Ret (mkProducePartitionResponse (PD_Partition p) (Code ErrNone) offset
            (timeNow env (clock b))),
     set_clock (S (clock b))
       (set_replicaLookup
          (alter (set_Log (Some log')) (topic, PD_Partition p) (replicaLookup b)) b)).
Proof.
  intros Herr Ht Hr Hlog Happ.
  unfold handleProduce_partition, bind, get, GetTopic.
  rewrite Herr, Ht, Hr, Hlog, Happ. reflexivity.
Qed.

End Produce.

(** C2 (fails on the code). The spec has a produce rejected when this
    broker is not the partition's leader. Broker 1 holds a replica of
    ("t", 0) whose leader is broker 2; a produce of one record to it is
    answered with error code ErrNone and base offset 3, and the record is
    appended to the local log. *)
Theorem C2_produce_to_non_leader_is_appended :
  Partition_Leader (Replica_Partition follower_replica) ≠ config_ID follower_broker
  ∧ fst (handleProduce env_ok [mkProduceTopicData "t" [mkProduceData 0 ["d"]]]
                       follower_broker)
    = Ret [mkProduceResponse "t"
             [mkProducePartitionResponse 0 (Code ErrNone) 3 0]]
  ∧ (Replica_Log <$>
       replicaLookup
         (snd (handleProduce env_ok [mkProduceTopicData "t" [mkProduceData 0 ["d"]]]
                             follower_broker)) !! ("t", 0))
    = Some (Some (mkMemLog 0 ["a"; "b"; "c"; "d"] false)).
Proof. split; [|split]; vm_compute; [discriminate|reflexivity|reflexivity]. Qed.

(** ** becomeFollower and becomeLeader *)

Section Roles.

Context {L RS : Type} {CL : CommitLog L RS} (env : Env (L := L)).

Lemma alter_meta (f : Replica (L := L) → Replica) (k k' : string * Z)
      (m : gmap (string * Z) Replica) :
  (∀ r, Replica_meta (f r) = Replica_meta r) →
  Replica_meta <$> alter f k m !! k' = Replica_meta <$> m !! k'.
Proof.
  intros Hf. destruct (decide (k = k')) as [->|Hne].
  - rewrite lookup_alter_eq. destruct (m !! k'); cbn; [|reflexivity].
    by rewrite Hf.
  - by rewrite lookup_alter_ne.
Qed.

(** What [becomeFollower] does to a registered replica whose log is open. *)
Lemma becomeFollower_spec (b : Broker) (k : ReplicaRef) cmd r0 l :
  replicaLookup b !! k = Some r0 →
  Replica_Log r0 = Some l →
  let hw := NewestOffset l in
  let r := mkReplicator k (BrokerByID (brokers b) (ServerID (PS_Leader cmd))) in
  ∃ e b',
    becomeFollower env k cmd b = (Ret e, b')
    ∧ (e = ErrNone ↔ closeFails env (trace b) r0 = false ∧ snd (Truncate l hw) = false)
    ∧ (e ≠ ErrNone → e = ErrUnknown)
    ∧ (∃ rest, trace b' = trace b ++ closing r0 ++ rest)
    ∧ (closeFails env (trace b) r0 = true → replicaLookup b' = replicaLookup b)
    ∧ (e = ErrNone →
         replicaLookup b' !! k
         = Some (set_Replicator (Some r) (set_Log (Some (fst (Truncate l hw))) r0))
         ∧ trace b'
           = trace b ++ closing r0 ++ (if config_DevMode b then [] else [EvReplicate r])).
Proof.
  intros Hk Hl hw r.
  unfold becomeFollower, bind, deref, get, store, modify, emit, ret,
    Replicator_Close, closeFails, closing.
  rewrite Hk.
  destruct (Replica_Replicator r0) as [old|] eqn:Hrep; cbn;
    [destruct (closeErr env (trace b) old) eqn:Hclose; cbn|];
    try (rewrite Hl; fold hw;
         destruct (Truncate l hw) as [l' [|]] eqn:Htr; cbn;
         [|destruct (config_DevMode b); cbn]);
    (eexists _, _; split; [reflexivity|]; cbn;
     rewrite ?lookup_alter_eq, ?Hk;
     split_and!; try done; try (split; [done|intros [? ?]; done]);
     try (intros _; split); trace_eq).
Qed.

(** After a successful [startReplica] the replica's log is open. *)
Lemma startReplica_ok_log (b b' : Broker) (k : ReplicaRef) r :
  startReplica env k b = (Ret ErrNone, b') →
  replicaLookup b' !! k = Some r →
  is_Some (Replica_Log r).
Proof.
  unfold startReplica, bind, deref, get, store, modify, ret.
  destruct (replicaLookup b !! k) as [r0|] eqn:Hk; [|discriminate].
  destruct (GetTopic env (fsm b) _) as [topic [|]]; [discriminate|].
  destruct topic as [topic|]; [|discriminate].
  destruct (negb _); [discriminate|].
  destruct (Replica_Log r0) as [l|] eqn:Hl.
  - intros [= <-]. rewrite Hk. intros [= <-]. rewrite Hl. eauto.
  - destruct (commitlogNew env _ _) as [log|]; [|discriminate].
    intros [= <-]. cbn. rewrite lookup_alter_eq, Hk. intros [= <-]. cbn. eauto.
Qed.

(** [becomeFollower] changes nothing of any replica but its log and its
    replicator, and nothing of the state store; this holds for every call,
    also one that fails or panics. *)
Lemma becomeFollower_frame (b : Broker) (k : ReplicaRef) cmd :
  let b' := snd (becomeFollower env k cmd b) in
  (∀ k' : ReplicaRef,
     Replica_meta <$> replicaLookup b' !! k' = Replica_meta <$> replicaLookup b !! k')
  ∧ (∀ k' : ReplicaRef, k' ≠ k → replicaLookup b' !! k' = replicaLookup b !! k')
  ∧ fsm b' = fsm b.
Proof.
  unfold becomeFollower, bind, deref, get, store, modify, emit, ret, panic,
    Replicator_Close.
  destruct (replicaLookup b !! k) as [r0|] eqn:Hk; cbn; [|done].
  destruct (Replica_Replicator r0) as [old|]; cbn;
    [destruct (closeErr env (trace b) old); cbn; [done|]|];
    (destruct (Replica_Log r0) as [l|]; cbn; [|done];
     destruct (Truncate l (NewestOffset l)) as [l' [|]]; cbn;
     [|destruct (config_DevMode b); cbn];
     (split_and!; [|intros k' Hne; by rewrite ?lookup_alter_ne|done];
      intros k'; by rewrite ?alter_meta)).
Qed.

(** [becomeLeader], when closing the replicator does not fail, installs
    the PartitionState's leader, replicas, ISR and (as leader epoch) its
    ZKVersion, and clears the replicator. *)
Lemma becomeLeader_spec (b : Broker) (k : ReplicaRef) cmd r0 :
  replicaLookup b !! k = Some r0 →
  closeFails env (trace b) r0 = false →
  ∃ b',
    becomeLeader env k cmd b = (Ret ErrNone, b')
    ∧ replicaLookup b' !! k
      = Some (set_Partition (becomeLeader_fields cmd (Replica_Partition r0))
                            (set_Replicator None r0)).
Proof.
  intros Hk. unfold becomeLeader, closeFails, bind, deref, get, store, modify,
    emit, ret, Replicator_Close.
  rewrite Hk. destruct r0 as [? ? ? ? ? ? [old|]]; cbn.
  - intros ->. cbn. eexists. split; [reflexivity|]. cbn.
    by rewrite !lookup_alter_eq, Hk.
  - intros _. eexists. split; [reflexivity|]. cbn.
    by rewrite !lookup_alter_eq, Hk.
Qed.

(** The follower transition. When a PartitionState of a LeaderAndISR
    request directs a local replica to become a follower (the replica was
    found or created, it was started, and the transition chosen is the
    follower one), the broker closes the running replicator if there is
    one, takes HW = NewestOffset of the local log, and answers ErrNone
    exactly when neither the close nor the truncation to HW failed; in that
    case the replica's log is the log truncated to HW, its replicator is a
    new one to the broker that the lookup answers for the ServerID of the
    PartitionState's leader, and that replicator is started if and only if
    dev mode is off. *)
Lemma handleLeaderAndISR_follower (p : PartitionState) (b b1 b2 : Broker) (isNew : bool)
      (r : Replica) :
  let k : ReplicaRef := (PS_Topic p, PS_Partition p) in
  lookupOrCreateReplica p b = (Ret isNew, b1) →
  startReplica env k b1 = (Ret ErrNone, b2) →
  replicaLookup b2 !! k = Some r →
  transition b2 r isNew p = ToFollower →
  ∃ l part b',
    Replica_Log r = Some l
    ∧ handleLeaderAndISR_partition env p b = (Ret part, b')
    ∧ (∃ rest, trace b' = trace b2 ++ closing r ++ rest)
    ∧ (LPart_ErrorCode part = Code ErrNone
       ↔ closeFails env (trace b2) r = false
         ∧ snd (Truncate l (NewestOffset l)) = false)
    ∧ (LPart_ErrorCode part = Code ErrNone →
       let repl := mkReplicator k (BrokerByID (brokers b2) (ServerID (PS_Leader p))) in
       replicaLookup b' !! k
       = Some (set_Replicator (Some repl)
                 (set_Log (Some (fst (Truncate l (NewestOffset l)))) r))
       ∧ trace b'
         = trace b2 ++ closing r
           ++ (if config_DevMode b2 then [] else [EvReplicate repl])).
Proof.
  intros k Hlook Hstart Hr Htrans.
  destruct (startReplica_ok_log _ _ _ _ Hstart Hr) as [l Hl].
  destruct (becomeFollower_spec b2 k p r l Hr Hl)
    as (e & b' & Hbf & Hiff & Hunk & Hpre & _ & Hok).
  unfold handleLeaderAndISR_partition. fold k.
  unfold bind at 1. rewrite Hlook.
  unfold bind at 1. rewrite Hstart. cbn [bool_decide decide_rel].
  rewrite bool_decide_eq_false_2 by (intros H; by apply H).
  unfold bind at 1. unfold deref at 1. rewrite Hr.
  unfold bind at 1. unfold get at 1. rewrite Htrans.
  unfold bind at 1. rewrite Hbf.
  destruct (decide (e = ErrNone)) as [->|Hne].
  - rewrite bool_decide_eq_false_2 by (intros H; by apply H).
    exists l. eexists _, _. split; [done|]. split; [reflexivity|]. cbn.
    split; [done|]. split; [|intros _; by apply Hok].
    split; [intros _; by apply Hiff|done].
  - rewrite bool_decide_eq_true_2 by done.
    exists l. eexists _, _. split; [done|]. split; [reflexivity|]. cbn.
    rewrite (Hunk Hne). cbn. split; [done|].
    split; [|done]. split; [done|]. intros H. by apply Hiff in H.
Qed.

(** C10. For every call of [becomeFollower], each registered replica keeps
    its partition metadata (Leader, AR, ISR, LeaderEpoch), as well as every
    other field but the log and the replicator; replicas other than the one
    passed are untouched, and so is the state store. [becomeLeader] is the
    one that, when it succeeds, sets Leader, AR, ISR and LeaderEpoch from
    the PartitionState. *)
Theorem C10_becomeFollower_keeps_metadata (b : Broker) (k : ReplicaRef)
        (cmd : PartitionState) :
  let b' := snd (becomeFollower env k cmd b) in
  (∀ (k' : ReplicaRef) r,
     replicaLookup b !! k' = Some r →
     ∃ r', replicaLookup b' !! k' = Some r'
           ∧ Partition_Leader (Replica_Partition r') = Partition_Leader (Replica_Partition r)
           ∧ Partition_AR (Replica_Partition r') = Partition_AR (Replica_Partition r)
           ∧ Partition_ISR (Replica_Partition r') = Partition_ISR (Replica_Partition r)
           ∧ Partition_LeaderEpoch (Replica_Partition r')
             = Partition_LeaderEpoch (Replica_Partition r)
           ∧ Replica_meta r' = Replica_meta r)
  ∧ (∀ k' : ReplicaRef, k' ≠ k → replicaLookup b' !! k' = replicaLookup b !! k')
  ∧ fsm b' = fsm b
  ∧ (∀ r0,
       replicaLookup b !! k = Some r0 →
       closeFails env (trace b) r0 = false →
       ∃ b'' r'',
         becomeLeader env k cmd b = (Ret ErrNone, b'')
         ∧ replicaLookup b'' !! k = Some r''
         ∧ Partition_Leader (Replica_Partition r'') = PS_Leader cmd
         ∧ Partition_AR (Replica_Partition r'') = PS_Replicas cmd
         ∧ Partition_ISR (Replica_Partition r'') = PS_ISR cmd
         ∧ Partition_LeaderEpoch (Replica_Partition r'') = PS_ZKVersion cmd).
Proof.
  intros b'. destruct (becomeFollower_frame b k cmd) as (Hmeta & Hother & Hfsm).
  fold b' in Hmeta, Hother, Hfsm. split_and!; [|done|done|].
  - intros k' r Hr. specialize (Hmeta k'). rewrite Hr in Hmeta.
    destruct (replicaLookup b' !! k') as [r'|]; [|discriminate].
    cbn in Hmeta. injection Hmeta as Hid HP Hloc Hhw Hleo.
    exists r'. split; [done|]. rewrite HP. unfold Replica_meta.
    by rewrite Hid, HP, Hloc, Hhw, Hleo.
  - intros r0 Hk Hclose.
    destruct (becomeLeader_spec b k cmd r0 Hk Hclose) as (b'' & Hbl & Hr'').
    eexists _, _. split; [exact Hbl|]. split; [exact Hr''|]. done.
Qed.

End Roles.

(** C3 (fails on the code). The spec has the new replicator target the
    PartitionState's leader. [becomeFollower] asks the broker lookup for
    [raft.ServerID(cmd.Leader)], Go's conversion of the int32 to a string:
    the code point of that number, and U+FFFD for every number that is no
    code point. On broker 1 of the cluster of brokers 1, 2000000 and
    3000000, a PartitionState that makes broker 3000000 the leader of
    ("t", 0) is answered ErrNone, and the replicator it installs and starts
    pulls from broker 2000000: the very replicator that a PartitionState
    naming broker 2000000 installs, since both ids are converted to the
    same ServerID. *)
Theorem C3_follower_targets_wrong_broker :
  brokers far_broker !! 2%nat = Some (mkBrokerMeta 3000000 "10.0.0.3:9092")
  ∧ ServerID 3000000 = ServerID 2000000
  ∧ fst (handleLeaderAndISR_partition env_ok (follow_far 3000000) far_broker)
    = Ret (mkLeaderAndISRPartition "t" 0 (Code ErrNone))
  ∧ trace (snd (handleLeaderAndISR_partition env_ok (follow_far 3000000) far_broker))
    = [EvReplicate (mkReplicator ("t", 0) (Some (mkBrokerMeta 2000000 "10.0.0.2:9092")))]
  ∧ (Replica_Replicator <$>
       replicaLookup
         (snd (handleLeaderAndISR_partition env_ok (follow_far 3000000) far_broker))
       !! ("t", 0))
    = Some (Some (mkReplicator ("t", 0) (Some (mkBrokerMeta 2000000 "10.0.0.2:9092"))))
  ∧ trace (snd (handleLeaderAndISR_partition env_ok (follow_far 2000000) far_broker))
    = [EvReplicate (mkReplicator ("t", 0) (Some (mkBrokerMeta 2000000 "10.0.0.2:9092")))].
Proof. split_and!; vm_compute; reflexivity. Qed.

(** C10 on broker 1: after [becomeFollower] towards broker 3 the replica
    still records broker 2 as its leader, while [becomeLeader] records
    broker 1. *)
Lemma C10_becomeFollower_keeps_metadata_witness :
  (∃ r', replicaLookup (snd (becomeFollower env_ok ("t", 0) follow3 follower_broker))
           !! ("t", 0) = Some r'
         ∧ Partition_Leader (Replica_Partition r') = 2)
  ∧ (∃ b'' r'', becomeLeader env_ok ("t", 0) lead1 follower_broker = (Ret ErrNone, b'')
                ∧ replicaLookup b'' !! ("t", 0) = Some r''
                ∧ Partition_Leader (Replica_Partition r'') = 1).
Proof.
  destruct (C10_becomeFollower_keeps_metadata env_ok follower_broker ("t", 0) follow3)
    as (Hkeep & _ & _ & _).
  destruct (C10_becomeFollower_keeps_metadata env_ok follower_broker ("t", 0) lead1)
    as (_ & _ & _ & Hlead).
  split.
  - destruct (Hkeep ("t", 0) follower_replica) as (r' & Hr' & HL & _).
    + vm_compute. reflexivity.
    + exists r'. split; [exact Hr'|]. rewrite HL. reflexivity.
  - destruct (Hlead follower_replica) as (b'' & r'' & Hbl & Hr'' & HL & _).
    + vm_compute. reflexivity.
    + vm_compute. reflexivity.
    + exists b'', r''. split; [exact Hbl|]. split; [exact Hr''|]. exact HL.
Defined.

(** ** handleOffsets *)

Section Offsets.

Context {L RS : Type} {CL : CommitLog L RS}.

Lemma handleOffsets_partitions_spec (b : Broker) topic ps acc out :
  handleOffsets_partitions b topic ps acc = Ret out →
  out = acc ++ omap (offsetsAnswer b topic) ps
  ∧ (∀ p replica, p ∈ ps →
       replicaLookup b !! (topic, OP_Partition p) = Some replica →
       is_Some (Replica_Log replica)).
Proof.
  revert acc. induction ps as [|p ps IH]; intros acc; cbn.
  - intros [= <-]. rewrite app_nil_r. split; [done|]. intros ? ? H. inversion H.
  - unfold offsetsAnswer at 1.
    destruct (replicaLookup b !! (topic, OP_Partition p)) as [replica|] eqn:Hk.
    + destruct (Replica_Log replica) as [log|] eqn:Hlog; [|discriminate].
      intros [-> Hlogs]%IH. rewrite <- app_assoc. split; [done|].
      intros p' r' [->|Hin]%elem_of_cons Hk'; [|by eapply Hlogs].
      rewrite Hk in Hk'. injection Hk' as <-. by rewrite Hlog.
    + intros [-> Hlogs]%IH. split; [done|].
      intros p' r' [->|Hin]%elem_of_cons Hk'; [congruence|by eapply Hlogs].
Qed.

Lemma handleOffsets_partitions_total (b : Broker) topic ps acc :
  (∀ p replica, p ∈ ps →
     replicaLookup b !! (topic, OP_Partition p) = Some replica →
     is_Some (Replica_Log replica)) →
  ∃ out, handleOffsets_partitions b topic ps acc = Ret out.
Proof.
  revert acc. induction ps as [|p ps IH]; intros acc Hlogs; cbn; [eauto|].
  destruct (replicaLookup b !! (topic, OP_Partition p)) as [replica|] eqn:Hk.
  - destruct (Hlogs p replica) as [log ->]; [left|done|].
    apply IH. intros p' r' Hin. apply Hlogs. by right.
  - apply IH. intros p' r' Hin. apply Hlogs. by right.
Qed.

(** The response has one entry per requested topic, in order, and the
    entry's partition responses are the answers for the topic's partitions. *)
Lemma handleOffsets_spec (b : Broker) req resp :
  handleOffsets b req = Ret resp →
  Forall2 (λ t r, OR_Topic r = OT_Topic t
                  ∧ OR_PartitionResponses r
                    = omap (offsetsAnswer b (OT_Topic t)) (OT_Partitions t)
                  ∧ (∀ p replica, p ∈ OT_Partitions t →
                       replicaLookup b !! (OT_Topic t, OP_Partition p) = Some replica →
                       is_Some (Replica_Log replica)))
          req resp.
Proof.
  unfold handleOffsets. revert resp.
  induction req as [|t req IH]; intros resp; cbn.
  - intros [= <-]. constructor.
  - destruct (handleOffsets_partitions b (OT_Topic t) (OT_Partitions t) [])
      as [prs| |] eqn:Hp; cbn; try discriminate.
    destruct (handleOffsets_topics b req) as [rest| |]; cbn; try discriminate.
    intros [= <-]. constructor; [|by apply IH].
    cbn. split; [done|]. by apply handleOffsets_partitions_spec in Hp.
Qed.

Lemma handleOffsets_total (b : Broker) req :
  (∀ t p replica, t ∈ req → p ∈ OT_Partitions t →
     replicaLookup b !! (OT_Topic t, OP_Partition p) = Some replica →
     is_Some (Replica_Log replica)) →
  ∃ resp, handleOffsets b req = Ret resp.
Proof.
  unfold handleOffsets. induction req as [|t req IH]; intros Hlogs; cbn; [eauto|].
  destruct (handleOffsets_partitions_total b (OT_Topic t) (OT_Partitions t) [])
    as [prs ->].
  { intros p replica Hin. apply (Hlogs t); [left|done]. }
  destruct IH as [rest ->].
  { intros t' p replica Hin. apply Hlogs. by right. }
  cbn. eauto.
Qed.

(** The answers for the partitions of one topic, when the replicas found
    have their logs open: one per partition whose replica is found, in the
    order of the request. *)
Lemma offsetsAnswer_found (b : Broker) topic (ps : list OffsetsPartition) :
  (∀ p replica, p ∈ ps →
     replicaLookup b !! (topic, OP_Partition p) = Some replica →
     is_Some (Replica_Log replica)) →
  Forall2
    (λ p pr,
       ∃ replica log,
         replicaLookup b !! (topic, OP_Partition p) = Some replica
         ∧ Replica_Log replica = Some log
         ∧ pr = mkPartitionResponse (OP_Partition p) (Code ErrNone)
                  [if OP_Timestamp p =? -2 then OldestOffset log else NewestOffset log])
    (filter (λ p, is_Some (replicaLookup b !! (topic, OP_Partition p))) ps)
    (omap (offsetsAnswer b topic) ps).
Proof.
  induction ps as [|p ps IH]; intros Hlogs; [constructor|].
  rewrite filter_cons. cbn [omap list_omap]. unfold offsetsAnswer at 1.
  destruct (replicaLookup b !! (topic, OP_Partition p)) as [replica|] eqn:Hk.
  - destruct (Hlogs p replica) as [log Hlog]; [left|done|]. rewrite Hlog.
    rewrite decide_True by eauto. constructor.
    + exists replica, log. by rewrite Hk.
    + apply IH. intros p' r' Hin. apply Hlogs. by right.
  - rewrite decide_False by (by intros [? ?]). apply IH.
    intros p' r' Hin. apply Hlogs. by right.
Qed.

(** C6 (as amended). When every replica the request names has its log
    open, [handleOffsets] returns, and the response has one entry per
    requested topic, in order, which holds exactly one partition response
    for every requested partition whose replica exists locally, in the
    order of the request and nothing else: the partition's id, the code
    ErrNone and an offset list of exactly one offset, the log's
    OldestOffset when the timestamp is -2 and the log's NewestOffset for
    any other timestamp. *)
Theorem C6_offsets_sentinel (b : Broker) (req : list OffsetsTopic) :
  (∀ t p replica, t ∈ req → p ∈ OT_Partitions t →
     replicaLookup b !! (OT_Topic t, OP_Partition p) = Some replica →
     is_Some (Replica_Log replica)) →
  ∃ resp,
    handleOffsets b req = Ret resp
    ∧ Forall2
        (λ t r,
           OR_Topic r = OT_Topic t
           ∧ Forall2
               (λ p pr,
                  ∃ replica log,
                    replicaLookup b !! (OT_Topic t, OP_Partition p) = Some replica
                    ∧ Replica_Log replica = Some log
                    ∧ pr = mkPartitionResponse (OP_Partition p) (Code ErrNone)
                             [if OP_Timestamp p =? -2
                              then OldestOffset log else NewestOffset log])
               (filter (λ p, is_Some (replicaLookup b !! (OT_Topic t, OP_Partition p)))
                       (OT_Partitions t))
               (OR_PartitionResponses r))
        req resp.
Proof.
  intros Hlogs. destruct (handleOffsets_total b req Hlogs) as [resp Hresp].
  exists resp. split; [done|].
  eapply Forall2_impl; [by apply handleOffsets_spec|].
  intros t r (Htopic & Hprs & Hopen). cbn beta. rewrite Hprs. split; [done|].
  by apply offsetsAnswer_found.
Qed.

(** C9. In a response of [handleOffsets], a requested partition whose
    replica lookup fails has no partition response at all: the entry of its
    topic holds exactly the answers for the partitions that were found, no
    partition response carries the partition's id, and none carries an
    error code. *)
Theorem C9_offsets_omits_missing_replica (b : Broker) (req : list OffsetsTopic) resp :
  handleOffsets b req = Ret resp →
  Forall2
    (λ t r,
       length (OR_PartitionResponses r)
       = length (filter (λ p, is_Some (replicaLookup b !! (OT_Topic t, OP_Partition p)))
                        (OT_Partitions t))
       ∧ (∀ pr, pr ∈ OR_PartitionResponses r → PR_ErrorCode pr = Code ErrNone)
       ∧ (∀ p, p ∈ OT_Partitions t →
               replicaLookup b !! (OT_Topic t, OP_Partition p) = None →
               ∀ pr, pr ∈ OR_PartitionResponses r → PR_Partition pr ≠ OP_Partition p))
    req resp.
Proof.
  intros Hresp.
  eapply Forall2_impl; [by apply handleOffsets_spec|].
  cbn beta. intros t r (Htopic & Hprs & Hlogs). rewrite Hprs.
  assert (Hfound : ∀ pr, pr ∈ omap (offsetsAnswer b (OT_Topic t)) (OT_Partitions t) →
            PR_ErrorCode pr = Code ErrNone
            ∧ is_Some (replicaLookup b !! (OT_Topic t, PR_Partition pr))).
  { intros pr (p & _ & Hans)%list_elem_of_omap. unfold offsetsAnswer in Hans.
    destruct (replicaLookup b !! _) as [replica|] eqn:Hk; [|done].
    destruct (Replica_Log replica); [|done]. injection Hans as <-. cbn.
    rewrite Hk. eauto. }
  split_and!.
  - clear -Hlogs. induction (OT_Partitions t) as [|p ps IH]; [done|].
    rewrite filter_cons. cbn [omap list_omap]. unfold offsetsAnswer at 1.
    destruct (replicaLookup b !! (OT_Topic t, OP_Partition p)) as [replica|] eqn:Hk.
    + destruct (Hlogs p replica) as [log ->]; [left|done|].
      rewrite decide_True by eauto. cbn. f_equal. apply IH.
      intros p' r' Hin. apply Hlogs. by right.
    + rewrite decide_False by (by intros [? ?]). apply IH.
      intros p' r' Hin. apply Hlogs. by right.
  - intros pr Hpr. by apply Hfound.
  - intros p _ Hnone pr Hpr Heq. apply Hfound in Hpr as [_ [x Hx]]. congruence.
Qed.

End Offsets.

(** C6 on the log of five records: the sentinel yields offset 0, another
    timestamp yields 5, and the partition without a replica yields
    nothing. *)
Lemma C6_offsets_sentinel_witness :
  ∃ r, handleOffsets five_records_broker offsets_request = Ret [r]
       ∧ OR_PartitionResponses r
         = [mkPartitionResponse 0 0 [0]; mkPartitionResponse 0 0 [5]].
Proof.
  destruct (C6_offsets_sentinel five_records_broker offsets_request)
    as (resp & Hresp & HF).
  - intros t p replica Ht Hp.
    apply list_elem_of_singleton in Ht as ->. cbn in Hp.
    repeat (apply elem_of_cons in Hp as [->|Hp]); [| | |by inversion Hp];
      vm_compute; intros [= <-]; eauto.
  - apply Forall2_cons_inv_l in HF as (r & rest & (_ & HF) & ->%Forall2_nil_inv_l & ->).
    exists r. split; [exact Hresp|].
    change (filter _ _)
      with [mkOffsetsPartition 0 (-2); mkOffsetsPartition 0 (-1)] in HF.
    apply Forall2_cons_inv_l in HF as (pr1 & prs & (r1 & l1 & Hk1 & Hl1 & ->) & HF & ->).
    apply Forall2_cons_inv_l in HF as (pr2 & prs' & (r2 & l2 & Hk2 & Hl2 & ->) & HF & ->).
    apply Forall2_nil_inv_l in HF as ->.
    vm_compute in Hk1, Hk2. injection Hk1 as <-. injection Hk2 as <-.
    injection Hl1 as <-. injection Hl2 as <-. reflexivity.
Defined.

(** C6 as the claim has it fails where a replica is registered without a
    log. A LeaderAndISR request for the topic "ghost", which the state
    store does not hold, is answered UnknownTopicOrPartition and leaves the
    replica of ("ghost", 0) registered with a nil log. The replica exists
    locally, and an OffsetsRequest for it panics; so does one that also
    names ("t", 0), whose log is open, and which is not answered either. *)
Lemma C6_registered_without_log :
  fst (handleLeaderAndISR_partition env_ok ghost_state five_records_broker)
  = Ret (mkLeaderAndISRPartition "ghost" 0 (Code ErrUnknownTopicOrPartition))
  ∧ (Replica_Log <$> replicaLookup unstarted_broker !! ("ghost", 0)) = Some None
  ∧ (Replica_Log <$> replicaLookup unstarted_broker !! ("t", 0)) = Some (Some five_records)
  ∧ handleOffsets unstarted_broker [mkOffsetsTopic "ghost" [mkOffsetsPartition 0 (-2)]]
    = Panic
  ∧ handleOffsets unstarted_broker
      [mkOffsetsTopic "t" [mkOffsetsPartition 0 (-2)];
       mkOffsetsTopic "ghost" [mkOffsetsPartition 0 (-2)]]
    = Panic.
Proof. split_and!; vm_compute; reflexivity. Qed.

(** C9 on the same request: partition ("t", 1), which has no replica, gets
    no partition response. *)
Lemma C9_offsets_omits_missing_replica_witness :
  ∃ r, handleOffsets five_records_broker offsets_request = Ret [r]
       ∧ length (OR_PartitionResponses r) = 2%nat
       ∧ Forall (λ pr, PR_Partition pr ≠ 1) (OR_PartitionResponses r).
Proof.
  eexists. split; [vm_compute; reflexivity|].
  pose proof (C9_offsets_omits_missing_replica five_records_broker offsets_request _
                eq_refl) as H.
  apply Forall2_cons_1 in H as [(Hlen & _ & H) _].
  split; [exact Hlen|].
  apply Forall_forall. intros pr Hpr.
  apply (H (mkOffsetsPartition 1 (-1))); [right; left|vm_compute; reflexivity|exact Hpr].
Defined.

(** ** handleCreateTopic and handleDeleteTopics *)

Lemma int16_small (z : Z) : in_int16 z → int16 z = z.
Proof.
  unfold in_int16, int16, wrap. intros H.
  rewrite Z.mod_small; lia.
Qed.

Section Topics.

Context {L RS : Type} {CL : CommitLog L RS} (env : Env (L := L)).

(** A loop whose body answers without touching the broker. *)
Lemma forM_pure {A B} (f : A → M (L := L) B) (g : A → B) (l : list A) (b : Broker) :
  (∀ a, f a b = (Ret (g a), b)) →
  forM f l b = (Ret (map g l), b).
Proof.
  intros Hf. induction l as [|a l IH]; [reflexivity|].
  cbn [forM]. unfold bind at 1. rewrite Hf.
  unfold bind at 1. rewrite IH. reflexivity.
Qed.

(** C4. On a broker whose Raft is not leader, [handleCreateTopic] and
    [handleDeleteTopics] answer every topic with the NotController code and
    leave the broker as it was: no Raft command is proposed (the trace is
    unchanged) and no topic is created or deleted (the state store is
    unchanged). *)
Theorem C4_non_controller_rejects (b : Broker) (reqs : list CreateTopicRequest)
        (topics : list string) :
  isController b = false →
  (∃ resp,
     handleCreateTopic env reqs b = (Ret resp, b)
     ∧ map TEC_Topic resp = map CTReq_Topic reqs
     ∧ Forall (λ tec, TEC_ErrorCode tec = Code ErrNotController) resp)
  ∧ (∃ resp,
       handleDeleteTopics env topics b = (Ret resp, b)
       ∧ map TEC_Topic resp = topics
       ∧ Forall (λ tec, TEC_ErrorCode tec = Code ErrNotController) resp).
Proof.
  intros Hnc. split.
  - exists (map (λ req, mkTopicErrorCode (CTReq_Topic req) (Code ErrNotController)) reqs).
    split_and!.
    + unfold handleCreateTopic, bind at 1, get. rewrite Hnc.
      by apply forM_pure.
    + rewrite map_map. by apply map_ext.
    + apply Forall_forall. intros tec (req & -> & _)%list_elem_of_fmap. done.
  - exists (map (λ topic, mkTopicErrorCode topic (Code ErrNotController)) topics).
    split_and!.
    + unfold handleDeleteTopics, bind at 1, get. rewrite Hnc.
      by apply forM_pure.
    + rewrite map_map. cbn. apply map_id.
    + apply Forall_forall. intros tec (req & -> & _)%list_elem_of_fmap. done.
Qed.

(** C5. On the controller, a CreateTopicRequest whose replication factor
    (an int16) exceeds the number of live members is answered with the
    InvalidReplicationFactor code and leaves the broker as it was, so the
    topic is not created; hence whenever handling the request changes the
    broker at all, the replication factor is at most the member count. *)
Theorem C5_invalid_replication_factor (b : Broker) (req : CreateTopicRequest) :
  in_int16 (CTReq_ReplicationFactor req) →
  let members := Z.of_nat (length (LANMembers b)) in
  (members < CTReq_ReplicationFactor req →
   handleCreateTopic_request env true req b
   = (Ret (mkTopicErrorCode (CTReq_Topic req) (Code ErrInvalidReplicationFactor)), b)
   ∧ (isController b = true →
      handleCreateTopic env [req] b
      = (Ret [mkTopicErrorCode (CTReq_Topic req) (Code ErrInvalidReplicationFactor)], b)))
  ∧ (snd (handleCreateTopic_request env true req b) ≠ b →
     CTReq_ReplicationFactor req <= members).
Proof.
  intros Hrf members.
  assert (Hreject : members < CTReq_ReplicationFactor req →
            handleCreateTopic_request env true req b
            = (Ret (mkTopicErrorCode (CTReq_Topic req)
                      (Code ErrInvalidReplicationFactor)), b)).
  { intros Hlt. unfold handleCreateTopic_request, bind, get. cbn [negb].
    fold members. rewrite int16_small by (unfold in_int16 in *; lia).
    apply Z.ltb_lt in Hlt. by rewrite Hlt. }
  split.
  - intros Hlt. split; [by apply Hreject|].
    intros Hc. unfold handleCreateTopic, bind at 1, get. rewrite Hc.
    cbn [forM]. unfold bind at 1. rewrite (Hreject Hlt). reflexivity.
  - intros Hchanged. destruct (Z.le_gt_cases (CTReq_ReplicationFactor req) members)
      as [Hle|Hgt]; [done|].
    exfalso. apply Hchanged. by rewrite Hreject by lia.
Qed.

End Topics.

(** C4 on broker 1 when it does not lead Raft. *)
Lemma C4_non_controller_rejects_witness :
  ∃ resp,
    handleCreateTopic env_ok [mkCreateTopicRequest "t" 1 1] (broker1 false)
    = (Ret resp, broker1 false)
    ∧ Forall (λ tec, TEC_ErrorCode tec = 41) resp.
Proof.
  destruct (C4_non_controller_rejects env_ok (broker1 false)
              [mkCreateTopicRequest "t" 1 1] ["t"]) as [(resp & Hrun & _ & Hall) _].
  - reflexivity.
  - exists resp. split; [exact Hrun|exact Hall].
Defined.

(** C5 on broker 1 as controller of three members, asked for replication
    factor 4. *)
Lemma C5_invalid_replication_factor_witness :
  handleCreateTopic env_ok [mkCreateTopicRequest "t" 1 4] (broker1 true)
  = (Ret [mkTopicErrorCode "t" 38], broker1 true).
Proof.
  destruct (C5_invalid_replication_factor env_ok (broker1 true)
              (mkCreateTopicRequest "t" 1 4)) as [Hreject _].
  - unfold in_int16. cbn. lia.
  - destruct Hreject as [_ Hall].
    + cbn. lia.
    + apply Hall. reflexivity.
Defined.

(** ** createTopic *)

Section CreateTopic.

Context {L RS : Type} {CL : CommitLog L RS} (env : Env (L := L)).

(** A failure of the Raft apply that registers the topic is answered with
    ErrUnknown. *)
Lemma createTopic_register_failure (b b1 : Broker) topic partitions f ps :
  fst (GetTopic env (fsm b) topic) = None →
  buildPartitions env topic partitions f b = (Ret ps, b1) →
  raftApplyErr env (trace b1)
    (RegisterTopicRequest
       (mkTopic topic
          (foldl (λ m partition, <[Partition_ID partition := Partition_AR partition]> m)
                 ∅ ps))) = true →
  fst (createTopic env topic partitions f b) = Ret ErrUnknown.
Proof.
  intros Ht Hps Herr. unfold createTopic, bind at 1, get. rewrite Ht.
  unfold bind at 1. rewrite Hps.
  unfold bind at 1, raftApply. rewrite Herr. reflexivity.
Qed.

(** A failed LeaderAndISR call to another broker panics. *)
Lemma dispatchLeaderAndISR_remote_failure (b : Broker) req s :
  BrokerMeta_ID s ≠ config_ID b →
  rpcErr env (trace b) s req = true →
  fst (dispatchLeaderAndISR env req s b) = Panic.
Proof.
  intros Hne Herr. unfold dispatchLeaderAndISR, bind at 1, get.
  apply Z.eqb_neq in Hne. rewrite Hne.
  unfold bind, client_LeaderAndISR. rewrite Herr. reflexivity.
Qed.

(** The code the local dispatch inspects is the response's own ErrorCode,
    which [handleLeaderAndISR] leaves at zero: the local check never fires. *)
Lemma handleLeaderAndISR_ErrorCode (b b' : Broker) req resp :
  handleLeaderAndISR env req b = (Ret resp, b') →
  LResp_ErrorCode resp = Code ErrNone.
Proof.
  unfold handleLeaderAndISR, bind, ret.
  destruct (forM _ _ b) as [[parts| |] b1]; try discriminate.
  by intros [= <- _].
Qed.

End CreateTopic.

(** C7 (fails on the code). The spec has a failed LeaderAndISR dispatch
    during topic creation answered with the Unknown code, and no panic
    reachable. Broker 1 is the controller of brokers 1, 2 and 3 and the
    LeaderAndISR call to broker 2 fails: [createTopic] panics, and with it
    [handleCreateTopic], after the topic and its partition have been
    proposed to Raft. *)
Theorem C7_failed_dispatch_panics :
  fst (createTopic env_rpc_down "t" 1 1 (broker1 true)) = Panic
  ∧ fst (handleCreateTopic env_rpc_down [mkCreateTopicRequest "t" 1 1] (broker1 true))
    = Panic
  ∧ trace (snd (handleCreateTopic env_rpc_down [mkCreateTopicRequest "t" 1 1]
                                  (broker1 true)))
    = [EvRaftApply (RegisterTopicRequest (mkTopic "t" {[0 := [1]]}));
       EvRaftApply (RegisterPartitionRequest (mkPartition "t" 0 0 1 [1] [1] 0 0));
       EvSendLeaderAndISR (mkBrokerMeta 2 "10.0.0.2:9092")
         (mkLeaderAndISRRequest 1 0 [mkPartitionState "t" 0 0 1 0 [1] 0 [1]])].
Proof. split_and!; vm_compute; reflexivity. Qed.

(** ** Run *)

Section RunProperties.

Context {L RS : Type} {CL : CommitLog L RS} (env : Env (L := L)).
Context {FetchRequest FetchResponses MetadataRequest MetadataResponse : Type}.
Context (handleFetch : FetchRequest → M (L := L) FetchResponses).
Context (handleMetadata : MetadataRequest → M (L := L) MetadataResponse).

(** A response answers a request when it goes to the request's connection
    and carries the request's header and that header's correlation id. *)
Lemma Run_loop_answers evs resp (b : Broker) :
  let outs := fst (fst (Run_loop env handleFetch handleMetadata evs resp b)) in
  Forall2
    (λ (request : Request (RS := RS) FetchRequest MetadataRequest) out,
       ∃ header,
         Request_Header request = Some header
         ∧ Response_Header out = Some header
         ∧ Response_Conn out = Request_Conn request
         ∧ PResponse_CorrelationID (Response_Response out)
           = Header_CorrelationID header)
    (take (length outs) (received evs)) outs.
Proof.
  revert resp b. induction evs as [|[request|] evs IH]; intros resp b; cbn;
    [constructor| |constructor].
  destruct (Run_switch _ _ _ _ _ _) as [[resp'| |] b']; cbn;
    [|constructor|constructor].
  destruct (Request_Header request) as [header|] eqn:Hh; cbn; [|constructor].
  specialize (IH resp' b'). cbn in IH.
  destruct (Run_loop _ _ _ evs resp' b') as [[outs e] b'']. cbn in *.
  constructor; [|exact IH]. exists header. by rewrite Hh.
Qed.

(** A request is left without a response only when the run panicked or
    diverged. *)
Lemma Run_loop_unanswered evs resp (b : Broker) :
  let run := Run_loop env handleFetch handleMetadata evs resp b in
  length (fst (fst run)) = length (received evs)
  ∨ ((snd (fst run) = Panicked ∨ snd (fst run) = Diverged)
     ∧ (length (fst (fst run)) < length (received evs))%nat).
Proof.
  revert resp b. induction evs as [|[request|] evs IH]; intros resp b; cbn;
    [by left| |by left].
  destruct (Run_switch _ _ _ _ _ _) as [[resp'| |] b']; cbn;
    [|right; split; [by left|lia]|right; split; [by right|lia]].
  destruct (Request_Header request) as [header|]; cbn;
    [|right; split; [by left|lia]].
  specialize (IH resp' b'). cbn in IH.
  destruct (Run_loop _ _ _ evs resp' b') as [[outs e] b'']. cbn in *.
  destruct IH as [->|[He Hlt]]; [by left|right]. split; [done|lia].
Qed.

(** C8. Every request [Run] consumes is answered in its turn: the i-th
    response is the response to the i-th request and carries a
    CorrelationID equal to the CorrelationID of that request's header. A
    consumed request has no response only when the run has panicked or
    diverged, at that request or at an earlier one. Conversely [Run] sends
    nothing else: every response is the one to the request of its
    position. *)
Theorem C8_response_carries_correlation_id
        (evs : list (RunEvent (RS := RS) FetchRequest MetadataRequest)) (b : Broker) :
  let run := Run env handleFetch handleMetadata evs b in
  let outs := fst (fst run) in
  (∀ (i : nat) request,
     received evs !! i = Some request →
     (∃ out header,
        outs !! i = Some out
        ∧ Request_Header request = Some header
        ∧ PResponse_CorrelationID (Response_Response out)
          = Header_CorrelationID header)
     ∨ ((snd (fst run) = Panicked ∨ snd (fst run) = Diverged)
        ∧ (length outs <= i)%nat))
  ∧ (length outs <= length (received evs))%nat
  ∧ ∀ (i : nat) out,
      outs !! i = Some out →
      ∃ request header,
        received evs !! i = Some request
        ∧ Request_Header request = Some header
        ∧ PResponse_CorrelationID (Response_Response out)
          = Header_CorrelationID header.
Proof.
  intros run outs. pose proof (Run_loop_answers evs None b) as HF.
  pose proof (Run_loop_unanswered evs None b) as Hun.
  subst outs run. unfold Run. cbn zeta in HF, Hun.
  set (run := Run_loop env handleFetch handleMetadata evs None b) in *.
  set (outs := fst (fst run)) in *.
  split_and!.
  - intros i request Hreq.
    destruct (decide (i < length outs)%nat) as [Hlt|Hge].
    + left. destruct (lookup_lt_is_Some_2 outs i Hlt) as [out Hout].
      destruct (Forall2_lookup_r _ _ _ _ _ HF Hout)
        as (request' & Hreq' & header & Hh & _ & _ & Hc).
      apply lookup_take_Some in Hreq' as [Hreq' _].
      rewrite Hreq in Hreq'. injection Hreq' as <-. eauto.
    + right. apply lookup_lt_Some in Hreq.
      destruct Hun as [Heq|[He _]]; [lia|]. split; [done|lia].
  - apply Forall2_length in HF. rewrite length_take in HF. lia.
  - intros i out Hi.
    destruct (Forall2_lookup_r _ _ _ _ _ HF Hi)
      as (request & Hreq & header & Hh & _ & _ & Hc).
    apply lookup_take_Some in Hreq as [Hreq _]. eauto.
Qed.

End RunProperties.

(** C8 on a run that serves an OffsetsRequest with correlation id 42 and
    an APIVersionsRequest with correlation id 43: two responses, with the
    ids 42 and 43 in this order. *)
Lemma C8_response_carries_correlation_id_witness :
  ∃ out1 out2,
    fst (fst (Run env_ok no_handler no_handler two_calls five_records_broker))
    = [out1; out2]
    ∧ PResponse_CorrelationID (Response_Response out1) = 42
    ∧ PResponse_CorrelationID (Response_Response out2) = 43.
Proof.
  destruct (C8_response_carries_correlation_id env_ok no_handler no_handler two_calls
              five_records_broker) as (H & _ & _).
  eexists _, _. split; [vm_compute; reflexivity|]. split.
  - destruct (H 0%nat offsets_call) as [(out & header & Ho & Hh & Hc)|[_ Hlen]];
      [vm_compute; reflexivity| |vm_compute in Hlen; lia].
    vm_compute in Ho. injection Ho as <-. injection Hh as <-. exact Hc.
  - destruct (H 1%nat versions_call) as [(out & header & Ho & Hh & Hc)|[_ Hlen]];
      [vm_compute; reflexivity| |vm_compute in Hlen; lia].
    vm_compute in Ho. injection Ho as <-. injection Hh as <-. exact Hc.
Defined.

(** * Further properties of the code *)

(** ** contains *)

(** X1. [contains rs r] is true exactly when [r] occurs in [rs]. *)
Theorem X1_contains_decides_membership (rs : list Z) (r : Z) :
  contains rs r = true ↔ r ∈ rs.
Proof.
  induction rs as [|ri rs IH]; cbn.
  - split; [discriminate|]. intros H. inversion H.
  - destruct (Z.eqb_spec ri r) as [->|Hne].
    + split; [intros _; left|done].
    + rewrite IH. split; [intros H; by right|].
      intros [->|H]%elem_of_cons; done.
Qed.

(** ** buildPartitions: what is returned *)

Section BuildPartitionsShape.

Context {L : Type} (env : Env (L := L)).

(** What the follower loop returns: the replicas it started with, followed
    by positions of members other than the leader's id, up to the
    replication factor. *)
Lemma walk_result fuel memCount leader f pos replicas out :
  0 <= pos < memCount →
  walk fuel memCount leader f pos replicas = Some out →
  ∃ followers,
    out = replicas ++ followers
    ∧ Z.of_nat (length out) = Z.max f (Z.of_nat (length replicas))
    ∧ Forall (λ x, 0 <= x < memCount ∧ x ≠ leader) followers.
Proof.
  revert pos replicas. induction fuel as [|fuel IH]; intros pos replicas Hpos;
    [discriminate|].
  cbn [walk]. destruct (Z.ltb_spec (Z.of_nat (length replicas)) f) as [Hlt|Hge].
  - assert (Hnext : 0 <= (if pos + 1 =? memCount then -1 else pos) + 1 < memCount)
      by (destruct (Z.eqb_spec (pos + 1) memCount); lia).
    destruct (Z.eqb_spec pos leader) as [Heq|Hne]; cbn [negb]; intros Hw;
      destruct (IH _ _ Hnext Hw) as (followers & -> & Hlen & Hall).
    + exists followers. split_and!; [done|lia|done].
    + exists (pos :: followers). rewrite <- app_assoc. split_and!; [done| |].
      * rewrite <- app_assoc in Hlen. rewrite length_app in Hlen. cbn in Hlen.
        rewrite !length_app. cbn. rewrite length_app in Hlen. cbn in Hlen. lia.
      * constructor; [done|done].
  - intros [= <-]. exists []. rewrite app_nil_r. split_and!; [done|lia|constructor].
Qed.

(** What a returned partition is made of. *)
Lemma buildPartition_ret topic f mems memCount i (b b' : Broker) p :
  buildPartition env topic f mems memCount i b = (Ret p, b') →
  b' = set_rng (S (rng b)) b
  ∧ 0 < memCount
  ∧ ∃ m replicas,
      mems !! Z.to_nat (Z.rem i memCount) = Some m
      ∧ walk (walkFuel f) memCount (BrokerMeta_ID m) f
             (randSource env (rng b) mod memCount) [BrokerMeta_ID m] = Some replicas
      ∧ p = mkPartition topic i i (BrokerMeta_ID m) replicas replicas 0 0.
Proof.
  unfold buildPartition. destruct (memCount =? 0); [discriminate|].
  destruct (mems !! Z.to_nat (Z.rem i memCount)) as [m|]; [|discriminate].
  unfold bind, Int31n. destruct (Z.leb_spec memCount 0); [discriminate|].
  destruct (walk _ _ _ _ _ _) as [replicas|] eqn:Hw; [|discriminate].
  unfold ret. intros [= <- <-]. split_and!; [done|lia|]. eauto.
Qed.

Lemma set_rng_add (b : Broker (L := L)) (n : nat) :
  set_rng (rng (set_rng (S (rng b)) b) + n) (set_rng (S (rng b)) b)
  = set_rng (rng b + S n) b.
Proof. unfold set_rng. cbn. f_equal. lia. Qed.

Lemma buildPartitions_loop_ret topic f mems memCount n :
  ∀ i acc (b b' : Broker) ps,
    buildPartitions_loop env topic f mems memCount n i acc b = (Ret ps, b') →
    ∃ new,
      ps = acc ++ new
      ∧ length new = n
      ∧ b' = set_rng (rng b + n) b
      ∧ ∀ (j : nat) p,
          new !! j = Some p →
          ∃ b1 b2,
            buildPartition env topic f mems memCount (i + Z.of_nat j) b1 = (Ret p, b2).
Proof.
  induction n as [|n IH]; intros i acc b b' ps; cbn [buildPartitions_loop].
  - unfold ret. intros [= <- <-]. exists []. rewrite app_nil_r.
    split_and!; [done|done| |intros j p Hj; by rewrite lookup_nil in Hj].
    destruct b. unfold set_rng. cbn. f_equal. lia.
  - unfold bind at 1.
    destruct (buildPartition env topic f mems memCount i b) as [[p| |] b1] eqn:Hp;
      try discriminate.
    intros Hloop. destruct (IH _ _ _ _ _ Hloop) as (new & -> & Hlen & -> & Hall).
    exists (p :: new). rewrite <- app_assoc. split_and!; [done|cbn; lia| |].
    + apply buildPartition_ret in Hp as [-> _]. apply set_rng_add.
    + intros [|j] q Hj; cbn in Hj.
      * injection Hj as <-. rewrite Z.add_0_r. eauto.
      * destruct (Hall j q Hj) as (b2 & b3 & Hq).
        exists b2, b3. by replace (i + Z.of_nat (S j)) with (i + 1 + Z.of_nat j) by lia.
Qed.

(** X2. When [buildPartitions] returns, it returns one partition per
    requested partition (none for a count that is not positive), numbered
    0, 1, ... in order, each of the topic asked for, led by the member at
    position [i rem memCount] and with ISR = AR; the broker is as before
    except that one random number was drawn per partition. *)
Theorem X2_buildPartitions_numbering topic partitionsCount f (b b' : Broker) ps :
  buildPartitions env topic partitionsCount f b = (Ret ps, b') →
  length ps = Z.to_nat partitionsCount
  ∧ b' = set_rng (rng b + Z.to_nat partitionsCount) b
  ∧ ∀ (i : nat) p,
      ps !! i = Some p →
      Partition_Topic p = topic
      ∧ Partition_ID p = Z.of_nat i
      ∧ Partition_Partition p = Z.of_nat i
      ∧ Partition_ISR p = Partition_AR p
      ∧ ∃ m, brokers b
               !! Z.to_nat (Z.rem (Z.of_nat i) (int32 (Z.of_nat (length (brokers b)))))
             = Some m
             ∧ Partition_Leader p = BrokerMeta_ID m.
Proof.
  unfold buildPartitions, bind at 1, get. intros Hloop.
  destruct (buildPartitions_loop_ret _ _ _ _ _ _ _ _ _ _ Hloop)
    as (new & -> & Hlen & -> & Hall).
  cbn [app]. split_and!; [done|done|].
  intros i p Hi. destruct (Hall i p Hi) as (b1 & b2 & Hp).
  apply buildPartition_ret in Hp as (_ & _ & m & replicas & Hm & _ & ->).
  cbn. rewrite Z.add_0_l in Hm. split_and!; try done. eauto.
Qed.

(** X3. Every partition [buildPartitions] returns has an AR that begins
    with the leader and has exactly max(1, replicationFactor) entries; the
    entries after the leader are member positions in [0, memCount) that
    differ from the leader's id. *)
Theorem X3_buildPartitions_replica_lists topic partitionsCount f (b b' : Broker) ps :
  buildPartitions env topic partitionsCount f b = (Ret ps, b') →
  ∀ p, p ∈ ps →
       ∃ followers,
         Partition_AR p = Partition_Leader p :: followers
         ∧ Z.of_nat (length (Partition_AR p)) = Z.max 1 f
         ∧ Forall (λ x, 0 <= x < int32 (Z.of_nat (length (brokers b)))
                        ∧ x ≠ Partition_Leader p) followers.
Proof.
  unfold buildPartitions, bind at 1, get. intros Hloop p Hin.
  destruct (buildPartitions_loop_ret _ _ _ _ _ _ _ _ _ _ Hloop)
    as (new & -> & _ & _ & Hall).
  cbn [app] in Hin. apply list_elem_of_lookup in Hin as [i Hi].
  destruct (Hall i p Hi) as (b1 & b2 & Hp).
  apply buildPartition_ret in Hp as (_ & HN & m & replicas & _ & Hw & ->).
  apply walk_result in Hw as (followers & -> & Hlen & Hfs);
    [|apply Z.mod_pos_bound; lia].
  exists followers. cbn in *. split_and!; [done|lia|done].
Qed.

(** X4. With no broker in the lookup, building at least one partition
    panics (the leader index divides by zero) before anything is drawn or
    changed. *)
Theorem X4_buildPartitions_no_brokers topic partitionsCount f (b : Broker) :
  brokers b = [] →
  0 < partitionsCount →
  buildPartitions env topic partitionsCount f b = (Panic, b).
Proof.
  intros Hb Hn. unfold buildPartitions, bind at 1, get. rewrite Hb. cbn [length].
  destruct (Z.to_nat partitionsCount) as [|n] eqn:Hc; [lia|].
  cbn [buildPartitions_loop]. unfold bind, buildPartition.
  change (int32 (Z.of_nat 0) =? 0) with true. reflexivity.
Qed.

(** X5. With a single broker whose id is 0 and a replication factor of at
    least 2, the follower loop never ends, whatever the fuel: the only
    position is the leader's id and is skipped forever. [buildPartitions]
    then diverges on its first partition. *)
Theorem X5_buildPartitions_diverges topic partitionsCount f (b : Broker) m :
  brokers b = [m] →
  BrokerMeta_ID m = 0 →
  2 <= f →
  0 < partitionsCount →
  (∀ fuel, walk fuel 1 0 f 0 [0] = None)
  ∧ fst (buildPartitions env topic partitionsCount f b) = Diverge.
Proof.
  intros Hb Hid Hf Hn.
  assert (Hdiv : ∀ fuel, walk fuel 1 0 f 0 [0] = None)
    by (intros fuel; apply walk_diverges; cbn; lia).
  split; [exact Hdiv|].
  unfold buildPartitions, bind at 1, get. rewrite Hb. cbn [length].
  destruct (Z.to_nat partitionsCount) as [|n] eqn:Hc; [lia|].
  cbn [buildPartitions_loop]. unfold bind, buildPartition.
  change (int32 (Z.of_nat 1)) with 1. cbn [Z.eqb].
  replace (Z.to_nat (Z.rem 0 1)) with 0%nat by reflexivity. cbn [lookup list_lookup].
  unfold Int31n. cbn [Z.leb Z.compare]. unfold bind.
  rewrite Hid, Z.mod_1_r, Hdiv. reflexivity.
Qed.

(** X6. With at least two brokers (fewer than 2^31), or with no broker of
    id 0, [buildPartitions] returns: the follower loop ends within the fuel
    given to it, no index is out of range and no draw panics. *)
Theorem X6_buildPartitions_returns topic partitionsCount f (b : Broker) :
  (0 < length (brokers b))%nat →
  Z.of_nat (length (brokers b)) < 2 ^ 31 →
  (2 <= length (brokers b))%nat ∨ Forall (λ m, BrokerMeta_ID m ≠ 0) (brokers b) →
  ∃ ps b', buildPartitions env topic partitionsCount f b = (Ret ps, b').
Proof.
  intros Hpos Hlen Hcase. unfold buildPartitions, bind at 1, get.
  assert (Hint : int32 (Z.of_nat (length (brokers b))) = Z.of_nat (length (brokers b))).
  { unfold int32, wrap. rewrite Z.mod_small; lia. }
  rewrite Hint. set (N := Z.of_nat (length (brokers b))) in *.
  assert (Hloop : ∀ n i acc (b0 : Broker), 0 <= i →
            ∃ ps b', buildPartitions_loop env topic f (brokers b) N n i acc b0
                     = (Ret ps, b')).
  { induction n as [|n IH]; intros i acc b0 Hi; cbn [buildPartitions_loop];
      [unfold ret; eauto|].
    unfold bind at 1.
    assert (Hp : ∃ p b1, buildPartition env topic f (brokers b) N i b0 = (Ret p, b1)).
    { unfold buildPartition. destruct (Z.eqb_spec N 0); [lia|].
      rewrite Z.rem_mod_nonneg by lia.
      destruct (lookup_lt_is_Some_2 (brokers b) (Z.to_nat (i mod N))) as [m Hm].
      { pose proof (Z.mod_pos_bound i N). lia. }
      rewrite Hm. unfold bind, Int31n. destruct (Z.leb_spec N 0); [lia|].
      destruct (walk_fuel_enough N (BrokerMeta_ID m) f (randSource env (rng b0) mod N))
        as [replicas ->]; [| |unfold ret; eauto].
      - destruct Hcase as [H2|Hall]; [left; lia|right].
        rewrite Forall_forall in Hall. apply Hall. by eapply list_elem_of_lookup_2.
      - apply Z.mod_pos_bound. lia. }
    destruct Hp as (p & b1 & ->). apply IH. lia. }
  apply Hloop. lia.
Qed.

(** The positions the walk has visited since it started at [s]: the
    interval from [s] to [pos], around the end of the members once it has
    wrapped. While fewer than all positions are visited, the followers
    collected are distinct. *)
Lemma walk_nodup memCount leader f s :
  0 <= s < memCount →
  ∀ fuel (wrapped : bool) pos fs ind out,
    0 <= pos < memCount →
    (if wrapped then pos <= s else s <= pos) →
    NoDup fs →
    (∀ x, x ∈ fs →
          x ≠ leader
          ∧ if wrapped then s <= x < memCount ∨ 0 <= x < pos else s <= x < pos) →
    0 <= ind →
    (¬ (if wrapped then s <= leader < memCount ∨ 0 <= leader < pos
        else s <= leader < pos) →
     0 <= leader < memCount → ind = 1) →
    f - Z.of_nat (length (leader :: fs))
    <= memCount - (if wrapped then memCount - s + pos else pos - s) - ind →
    walk fuel memCount leader f pos (leader :: fs) = Some out →
    NoDup out.
Proof.
  intros Hs. induction fuel as [|fuel IH];
    intros wrapped pos fs ind out Hpos Hphase Hnd Hfs Hind Hleader Hcount;
    [discriminate|].
  cbn [walk].
  destruct (Z.ltb_spec (Z.of_nat (length (leader :: fs))) f) as [Hlt|Hge].
  - assert (Hfresh : pos ∉ fs).
    { intros Hin. destruct (Hfs pos Hin) as [_ Hv]. cbn [length] in *.
      destruct wrapped; lia. }
    destruct (Z.eqb_spec pos leader) as [Heq|Hne]; cbn [negb];
      [subst leader|change ((leader :: fs) ++ [pos]) with (leader :: (fs ++ [pos]))];
      destruct (Z.eqb_spec (pos + 1) memCount) as [Hw|Hnw]; cbn [Z.add Z.opp];
      destruct wrapped; cbn [length] in *; try lia.
    + (* the leader's position, last of the members: wrap *)
      apply (IH true 0 fs 0); walk_side Hfs.
    + (* the leader's position, after the wrap *)
      apply (IH true (pos + 1) fs 0); walk_side Hfs.
    + (* the leader's position, before the wrap *)
      apply (IH false (pos + 1) fs 0); walk_side Hfs.
    + (* a follower at the last position: wrap *)
      apply (IH true 0 (fs ++ [pos]) ind); walk_side Hfs.
    + (* a follower, after the wrap *)
      apply (IH true (pos + 1) (fs ++ [pos]) ind); walk_side Hfs.
    + (* a follower, before the wrap *)
      apply (IH false (pos + 1) (fs ++ [pos]) ind); walk_side Hfs.
  - intros [= <-]. apply NoDup_cons. split; [|done].
    intros Hin. by destruct (Hfs leader Hin).
Qed.

(** X7. When the replication factor is at most the number of brokers,
    no partition [buildPartitions] returns lists an entry twice in its
    AR. *)
Theorem X7_buildPartitions_no_duplicates topic partitionsCount f (b b' : Broker) ps :
  f <= int32 (Z.of_nat (length (brokers b))) →
  buildPartitions env topic partitionsCount f b = (Ret ps, b') →
  ∀ p, p ∈ ps → NoDup (Partition_AR p).
Proof.
  unfold buildPartitions, bind at 1, get. intros Hf Hloop p Hin.
  destruct (buildPartitions_loop_ret _ _ _ _ _ _ _ _ _ _ Hloop)
    as (new & -> & _ & _ & Hall).
  cbn [app] in Hin. apply list_elem_of_lookup in Hin as [i Hi].
  destruct (Hall i p Hi) as (b1 & b2 & Hp).
  apply buildPartition_ret in Hp as (_ & HN & m & replicas & _ & Hw & ->).
  cbn [Partition_AR].
  set (N := int32 (Z.of_nat (length (brokers b)))) in *.
  set (r := randSource env (rng b1) mod N) in *.
  assert (Hr : 0 <= r < N) by (apply Z.mod_pos_bound; lia).
  eapply (walk_nodup N (BrokerMeta_ID m) f r Hr _ false r [] 1); try exact Hw;
    try done; try lia.
  - constructor.
  - intros x Hx. inversion Hx.
  - cbn [length]. lia.
Qed.

End BuildPartitionsShape.

(** Witnesses of the properties of [buildPartitions]. *)

Lemma X2_buildPartitions_numbering_witness :
  length (match fst (buildPartitions env_ok "t" 2 2 (broker1 true)) with
          | Ret ps => ps
          | _ => []
          end) = 2%nat.
Proof.
  destruct (buildPartitions env_ok "t" 2 2 (broker1 true)) as [[ps| |] b'] eqn:H;
    [|vm_compute in H; discriminate H..].
  cbn. by destruct (X2_buildPartitions_numbering env_ok "t" 2 2 _ _ _ H) as [Hlen _].
Defined.

Lemma X3_buildPartitions_replica_lists_witness :
  ∃ followers,
    [1; 0] = 1 :: followers
    ∧ Forall (λ x, 0 <= x < 3 ∧ x ≠ 1) followers.
Proof.
  destruct (X3_buildPartitions_replica_lists env_ok "t" 1 2 (broker1 true)
              (snd (buildPartitions env_ok "t" 1 2 (broker1 true)))
              [mkPartition "t" 0 0 1 [1; 0] [1; 0] 0 0]
              ltac:(vm_compute; reflexivity)
              (mkPartition "t" 0 0 1 [1; 0] [1; 0] 0 0))
    as (followers & HAR & _ & Hall).
  - left.
  - exists followers. split; [exact HAR|exact Hall].
Defined.

Lemma X4_buildPartitions_no_brokers_witness :
  buildPartitions env_ok "t" 1 1 no_brokers = (Panic, no_brokers).
Proof.
  apply (X4_buildPartitions_no_brokers env_ok "t" 1 1 no_brokers);
    [reflexivity|lia].
Defined.

Lemma X5_buildPartitions_diverges_witness :
  fst (buildPartitions env_ok "t" 1 2 lone_broker0) = Diverge.
Proof.
  apply (X5_buildPartitions_diverges env_ok "t" 1 2 lone_broker0
           (mkBrokerMeta 0 "10.0.0.1:9092")); [reflexivity|reflexivity|lia|lia].
Defined.

Lemma X6_buildPartitions_returns_witness :
  ∃ ps b', buildPartitions env_ok "t" 5 3 (broker1 true) = (Ret ps, b').
Proof.
  apply (X6_buildPartitions_returns env_ok "t" 5 3 (broker1 true)).
  - cbn. lia.
  - cbn. lia.
  - left. cbn. lia.
Defined.

Lemma X7_buildPartitions_no_duplicates_witness :
  NoDup [1; 0; 2].
Proof.
  change (NoDup (Partition_AR (mkPartition "t" 0 0 1 [1; 0; 2] [1; 0; 2] 0 0))).
  apply (X7_buildPartitions_no_duplicates env_ok "t" 1 3 (broker1 true)
           (snd (buildPartitions env_ok "t" 1 3 (broker1 true)))
           [mkPartition "t" 0 0 1 [1; 0; 2] [1; 0; 2] 0 0]).
  - vm_compute. discriminate.
  - vm_compute. reflexivity.
  - left.
Defined.

(** ** Reasoning about handlers *)

Section Handlers.

Context {L : Type}.

Implicit Types b : Broker (L := L).

Lemma returns_ret {A} (P : A → Prop) (a : A) : P a → returns (L := L) P (ret a).
Proof. intros HP b x b'. unfold ret. by intros [= <- _]. Qed.

Lemma returns_panic {A} (P : A → Prop) : returns (L := L) P panic.
Proof. intros b x b'. discriminate. Qed.

Lemma returns_diverge {A} (P : A → Prop) : returns (L := L) P diverge.
Proof. intros b x b'. discriminate. Qed.

Lemma returns_bind {A B} (Q : A → Prop) (P : B → Prop) (m : M (L := L) A)
      (f : A → M (L := L) B) :
  returns Q m → (∀ a, Q a → returns P (f a)) → returns P (bind m f).
Proof.
  intros Hm Hf b x b'. unfold bind.
  destruct (m b) as [[a| |] b1] eqn:Hmb; try discriminate.
  apply Hf. by eapply Hm.
Qed.

Lemma returns_any {A} (m : M (L := L) A) : returns (λ _, True) m.
Proof. by intros b x b' _. Qed.

(** A range loop returns one result per element, in order. *)
Lemma returns_forM {A B} (P : A → B → Prop) (f : A → M (L := L) B) (l : list A) :
  (∀ a, returns (P a) (f a)) → returns (Forall2 P l) (forM f l).
Proof.
  intros Hf. induction l as [|a l IH]; cbn [forM].
  - apply returns_ret. constructor.
  - eapply returns_bind; [apply Hf|]. intros x Hx.
    eapply returns_bind; [apply IH|]. intros xs Hxs.
    apply returns_ret. by constructor.
Qed.

Section Keeps.

Context (R : Broker (L := L) → Broker (L := L) → Prop) `{!PreOrder R}.

Lemma keeps_ret {A} (a : A) : keeps R (ret a).
Proof. intros b. reflexivity. Qed.

Lemma keeps_panic {A} : keeps R (panic (A := A)).
Proof. intros b. reflexivity. Qed.

Lemma keeps_diverge {A} : keeps R (diverge (A := A)).
Proof. intros b. reflexivity. Qed.

Lemma keeps_get : keeps R get.
Proof. intros b. reflexivity. Qed.

Lemma keeps_deref k : keeps R (deref k).
Proof. intros b. unfold deref. destruct (replicaLookup b !! k); reflexivity. Qed.

Lemma keeps_bind {A B} (m : M (L := L) A) (f : A → M (L := L) B) :
  keeps R m → (∀ a, keeps R (f a)) → keeps R (bind m f).
Proof.
  intros Hm Hf b. unfold bind. specialize (Hm b).
  destruct (m b) as [[a| |] b1]; cbn in *; [|done|done].
  etrans; [exact Hm|apply Hf].
Qed.

Lemma keeps_forM {A B} (f : A → M (L := L) B) (l : list A) :
  (∀ a, keeps R (f a)) → keeps R (forM f l).
Proof.
  intros Hf. induction l as [|a l IH]; cbn [forM]; [apply keeps_ret|].
  apply keeps_bind; [apply Hf|]. intros x.
  apply keeps_bind; [apply IH|]. intros xs. apply keeps_ret.
Qed.

End Keeps.

End Handlers.

(** Splits a goal about a handler along its binds and its cases. *)
Ltac keeps_apply lem := apply lem; try typeclasses eauto.

Ltac keeps_handler :=
  repeat first
    [ solve [keeps_apply keeps_ret] | solve [keeps_apply keeps_panic]
    | solve [keeps_apply keeps_diverge]
    | solve [keeps_apply keeps_get] | solve [keeps_apply keeps_deref]
    | keeps_apply keeps_bind; [|intros ?]
    | keeps_apply keeps_forM; intros ?
    | match goal with
      | |- keeps _ (match ?x with _ => _ end) => destruct x
      end
    | progress cbv zeta ].

(** ** startReplica and becomeLeader *)

Section ReplicaLifecycle.

Context {L RS : Type} {CL : CommitLog L RS} (env : Env (L := L)).

Lemma alter_proj {X} (π : Replica (L := L) → X) (f : Replica (L := L) → Replica)
      (k k' : string * Z) (m : gmap (string * Z) Replica) :
  (∀ r, π (f r) = π r) →
  π <$> alter f k m !! k' = π <$> m !! k'.
Proof.
  intros Hf. destruct (decide (k = k')) as [->|Hne].
  - rewrite lookup_alter_eq. destruct (m !! k'); cbn; [|reflexivity].
    by rewrite Hf.
  - by rewrite lookup_alter_ne.
Qed.

(** X8. [startReplica] changes nothing but the log of the replica it is
    given, and only from nil to a newly opened log: the trace and the state
    store are as before, every replica keeps its other fields, a replica
    whose log is open is left as it is, and a call that does not return
    ErrNone leaves the whole broker as it was. *)
Theorem X8_startReplica_frame (k : ReplicaRef) (b : Broker) :
  let b' := snd (startReplica env k b) in
  trace b' = trace b
  ∧ fsm b' = fsm b
  ∧ (∀ k' : ReplicaRef,
       Replica_but_log <$> replicaLookup b' !! k'
       = Replica_but_log <$> replicaLookup b !! k')
  ∧ (∀ (k' : ReplicaRef) r,
       replicaLookup b !! k' = Some r → is_Some (Replica_Log r) →
       replicaLookup b' !! k' = Some r)
  ∧ (fst (startReplica env k b) ≠ Ret ErrNone → b' = b).
Proof.
  unfold startReplica, bind, deref, get, store, modify, ret.
  destruct (replicaLookup b !! k) as [r0|] eqn:Hk; cbn; [|done].
  destruct (GetTopic env (fsm b) _) as [[topic|] [|]]; cbn; try done.
  destruct (negb _); cbn; [done|].
  destruct (Replica_Log r0) as [l|] eqn:Hl; cbn; [done|].
  destruct (commitlogNew env _ _) as [log|]; cbn; [|done].
  split_and!; try done.
  - intros k'. by apply alter_proj.
  - intros k' r Hr [l Hlog]. destruct (decide (k = k')) as [->|Hne].
    + rewrite Hk in Hr. injection Hr as <-. congruence.
    + by rewrite lookup_alter_ne.
Qed.

(** X9. A replica that was started is started: after a call of
    [startReplica] that returned ErrNone, a second call returns ErrNone and
    changes nothing (the log is not opened again). *)
Theorem X9_startReplica_idempotent (k : ReplicaRef) (b b' : Broker) :
  startReplica env k b = (Ret ErrNone, b') →
  startReplica env k b' = (Ret ErrNone, b').
Proof.
  unfold startReplica, bind, deref, get, store, modify, ret.
  destruct (replicaLookup b !! k) as [r0|] eqn:Hk; [|discriminate].
  destruct (GetTopic env (fsm b) _) as [[topic|] [|]] eqn:Ht; try discriminate.
  destruct (negb _) eqn:Hrep; [discriminate|].
  destruct (Replica_Log r0) as [l|] eqn:Hl.
  - intros [= <-]. by rewrite Hk, Ht, Hrep, Hl.
  - destruct (commitlogNew env _ _) as [log|]; [|discriminate].
    intros [= <-]. cbn. rewrite lookup_alter_eq, Hk. cbn. by rewrite Ht, Hrep.
Qed.

(** X10. [becomeLeader] never touches a log: for every call, each replica
    keeps its BrokerID, IsLocal, Log, Hw and Leo and the Topic, ID,
    Partition and ControllerEpoch of its partition record, replicas other
    than the one passed are untouched, and so is the state store. When
    closing the replicator fails, the answer is ErrUnknown and no replica
    changes at all: the replicator stays installed and the new leader is
    not recorded. *)
Theorem X10_becomeLeader_frame (k : ReplicaRef) (cmd : PartitionState) (b : Broker) :
  let b' := snd (becomeLeader env k cmd b) in
  (∀ k' : ReplicaRef,
     (λ r, (Replica_BrokerID r, Replica_IsLocal r, Replica_Log r, Replica_Hw r,
            Replica_Leo r, Partition_identity (Replica_Partition r)))
       <$> replicaLookup b' !! k'
     = (λ r, (Replica_BrokerID r, Replica_IsLocal r, Replica_Log r, Replica_Hw r,
              Replica_Leo r, Partition_identity (Replica_Partition r)))
         <$> replicaLookup b !! k')
  ∧ (∀ k' : ReplicaRef, k' ≠ k → replicaLookup b' !! k' = replicaLookup b !! k')
  ∧ fsm b' = fsm b
  ∧ (∀ r0, replicaLookup b !! k = Some r0 →
           closeFails env (trace b) r0 = true →
           fst (becomeLeader env k cmd b) = Ret ErrUnknown
           ∧ replicaLookup b' = replicaLookup b).
Proof.
  unfold becomeLeader, closeFails, bind, deref, get, store, modify, emit, ret,
    Replicator_Close.
  destruct (replicaLookup b !! k) as [r0|] eqn:Hk; cbn; [|done].
  destruct (Replica_Replicator r0) as [old|] eqn:Hold; cbn;
    [destruct (closeErr env (trace b) old) eqn:Hclose; cbn|].
  all: split_and!; try done;
    try (intros k'; by rewrite !alter_proj);
    try (intros k' Hne; by rewrite !lookup_alter_ne);
    try (intros r [= <-]; rewrite Hold, ?Hclose; done).
Qed.

End ReplicaLifecycle.

Lemma X9_startReplica_idempotent_witness :
  startReplica env_ok ("t", 0) follower_broker = (Ret ErrNone, follower_broker).
Proof.
  apply (X9_startReplica_idempotent env_ok ("t", 0) follower_broker follower_broker).
  vm_compute. reflexivity.
Defined.

(** ** handleLeaderAndISR *)

Section LeaderAndISR.

Context {L RS : Type} {CL : CommitLog L RS} (env : Env (L := L)).

Lemma startReplica_codes (k : ReplicaRef) :
  returns (λ e, e ∈ [ErrNone; ErrUnknown; ErrUnknownTopicOrPartition; ErrReplicaNotAvailable])
          (startReplica env k).
Proof.
  intros b x b'. unfold startReplica, bind, deref, get, store, modify, ret.
  case_handler; intros [= <- _]; in_list.
Qed.

Lemma becomeLeader_codes (k : ReplicaRef) cmd :
  returns (λ e, e ∈ [ErrNone; ErrUnknown]) (becomeLeader env k cmd).
Proof.
  intros b x b'. unfold becomeLeader, bind, deref, get, store, modify, ret,
    Replicator_Close.
  case_handler; intros [= <- _]; in_list.
Qed.

Lemma becomeFollower_codes (k : ReplicaRef) cmd :
  returns (λ e, e ∈ [ErrNone; ErrUnknown]) (becomeFollower env k cmd).
Proof.
  intros b x b'. unfold becomeFollower, bind, deref, get, store, modify, emit, ret,
    panic, Replicator_Close.
  case_handler; try discriminate; intros [= <- _]; in_list.
Qed.

(** X11. When [handleLeaderAndISR] returns, the response's own ErrorCode
    is zero and it holds one entry per PartitionState of the request, in
    order, each naming the PartitionState's topic and partition and
    carrying one of the codes ErrNone, ErrUnknown, UnknownTopicOrPartition
    and ReplicaNotAvailable. *)
Theorem X11_handleLeaderAndISR_response (req : LeaderAndISRRequest) (b b' : Broker) resp :
  handleLeaderAndISR env req b = (Ret resp, b') →
  LResp_ErrorCode resp = 0
  ∧ Forall2
      (λ p part,
         LPart_Topic part = PS_Topic p
         ∧ LPart_Partition part = PS_Partition p
         ∧ LPart_ErrorCode part
           ∈ map Code [ErrNone; ErrUnknown; ErrUnknownTopicOrPartition;
                       ErrReplicaNotAvailable])
      (LReq_PartitionStates req) (LResp_Partitions resp).
Proof.
  revert b resp b'.
  change (returns
            (λ resp,
               LResp_ErrorCode resp = 0
               ∧ Forall2
                   (λ p part,
                      LPart_Topic part = PS_Topic p
                      ∧ LPart_Partition part = PS_Partition p
                      ∧ LPart_ErrorCode part
                        ∈ map Code [ErrNone; ErrUnknown; ErrUnknownTopicOrPartition;
                                    ErrReplicaNotAvailable])
                   (LReq_PartitionStates req) (LResp_Partitions resp))
            (handleLeaderAndISR env req)).
  unfold handleLeaderAndISR.
  eapply returns_bind; [|intros parts Hparts; apply returns_ret; split; [done|exact Hparts]].
  apply returns_forM. intros p. unfold handleLeaderAndISR_partition.
  eapply returns_bind; [apply returns_any|]. intros isNew _.
  eapply returns_bind; [apply startReplica_codes|]. intros err Herr.
  assert (Hcode : ∀ e, e ∈ [ErrNone; ErrUnknown; ErrUnknownTopicOrPartition;
                            ErrReplicaNotAvailable] →
            Code e ∈ map Code [ErrNone; ErrUnknown; ErrUnknownTopicOrPartition;
                               ErrReplicaNotAvailable]).
  { intros e He. by apply list_elem_of_fmap_2. }
  destruct (bool_decide (err ≠ ErrNone)).
  { apply returns_ret. split_and!; [done|done|exact (Hcode err Herr)]. }
  eapply returns_bind; [apply returns_any|]. intros r _.
  eapply returns_bind; [apply returns_any|]. intros b0 _.
  assert (Hok : Code ErrNone ∈ map Code [ErrNone; ErrUnknown; ErrUnknownTopicOrPartition;
                                          ErrReplicaNotAvailable])
    by (apply Hcode; in_list).
  assert (Hsub : ∀ e, e ∈ [ErrNone; ErrUnknown] →
            Code e ∈ map Code [ErrNone; ErrUnknown; ErrUnknownTopicOrPartition;
                               ErrReplicaNotAvailable])
    by (intros e He; apply Hcode; in_list).
  destruct (transition b0 r isNew p).
  - eapply returns_bind; [apply becomeLeader_codes|]. intros e He.
    destruct (bool_decide (e ≠ ErrNone)); apply returns_ret;
      (split_and!; [done|done|first [exact (Hsub e He)|exact Hok]]).
  - eapply returns_bind; [apply becomeFollower_codes|]. intros e He.
    destruct (bool_decide (e ≠ ErrNone)); apply returns_ret;
      (split_and!; [done|done|first [exact (Hsub e He)|exact Hok]]).
  - apply returns_ret. split_and!; [done|done|exact Hok].
Qed.

(** X12. A PartitionState for a topic the state store does not hold, on a
    broker that has no replica of the partition, is answered with
    UnknownTopicOrPartition, yet the replica built from the PartitionState
    stays in the registry, without a log; an OffsetsRequest for the
    partition then panics. *)
Theorem X12_unknown_topic_leaves_replica (p : PartitionState) (b : Broker) :
  replicaLookup b !! (PS_Topic p, PS_Partition p) = None →
  getTopicErr env (PS_Topic p) = false →
  fsm_topics (fsm b) !! PS_Topic p = None →
  let b' :=
    set_replicaLookup (<[(PS_Topic p, PS_Partition p) := newReplica b p]> (replicaLookup b))
                      b in
  handleLeaderAndISR_partition env p b = (Ret (setErr p ErrUnknownTopicOrPartition), b')
  ∧ Replica_Log <$> replicaLookup b' !! (PS_Topic p, PS_Partition p) = Some None
  ∧ ∀ timestamp,
      handleOffsets b' [mkOffsetsTopic (PS_Topic p)
                          [mkOffsetsPartition (PS_Partition p) timestamp]]
      = Panic.
Proof.
  intros Hk Herr Ht b'. split_and!.
  - unfold handleLeaderAndISR_partition, lookupOrCreateReplica, bind, get, ret,
      AddReplica, modify.
    rewrite bool_decide_eq_true_2 by done. cbn.
    unfold startReplica, bind, deref, get, ret. cbn.
    rewrite lookup_insert_eq. cbn. unfold GetTopic. rewrite Herr, Ht. reflexivity.
  - subst b'. cbn. by rewrite lookup_insert_eq.
  - intros timestamp. subst b'. unfold handleOffsets. cbn.
    by rewrite lookup_insert_eq.
Qed.

Lemma handleOffsets_partitions_panics (b : Broker) topic ps acc :
  handleOffsets_partitions b topic ps acc ≠ Diverge
  ∧ (handleOffsets_partitions b topic ps acc = Panic
     ↔ ∃ p replica,
         p ∈ ps
         ∧ replicaLookup b !! (topic, OP_Partition p) = Some replica
         ∧ Replica_Log replica = None).
Proof.
  revert acc. induction ps as [|p ps IH]; intros acc; cbn.
  - split; [done|]. split; [done|]. intros (p & _ & Hin & _). inversion Hin.
  - destruct (replicaLookup b !! (topic, OP_Partition p)) as [replica|] eqn:Hk.
    + destruct (Replica_Log replica) as [log|] eqn:Hlog.
      * destruct (IH (acc ++ [mkPartitionResponse (OP_Partition p) 0
                                [if OP_Timestamp p =? -2 then OldestOffset log
                                 else NewestOffset log]])) as [Hnd Hiff].
        split; [done|]. rewrite Hiff. split.
        -- intros (p' & r' & Hin & Hr'). exists p', r'. split; [by right|done].
        -- intros (p' & r' & [->|Hin]%elem_of_cons & Hk' & Hl'); [congruence|eauto].
      * split; [done|]. split; [|done]. intros _. exists p, replica.
        split; [left|done].
    + destruct (IH acc) as [Hnd Hiff]. split; [done|]. rewrite Hiff. split.
      * intros (p' & r' & Hin & Hr'). exists p', r'. split; [by right|done].
      * intros (p' & r' & [->|Hin]%elem_of_cons & Hk' & Hl'); [congruence|eauto].
Qed.

(** X13. [handleOffsets] never diverges, and it panics exactly when the
    request names a partition whose replica is registered without a log. *)
Theorem X13_handleOffsets_panics (b : Broker) (req : list OffsetsTopic) :
  handleOffsets b req ≠ Diverge
  ∧ (handleOffsets b req = Panic
     ↔ ∃ t p replica,
         t ∈ req ∧ p ∈ OT_Partitions t
         ∧ replicaLookup b !! (OT_Topic t, OP_Partition p) = Some replica
         ∧ Replica_Log replica = None).
Proof.
  unfold handleOffsets. induction req as [|t req [IHd IHp]]; cbn.
  - split; [done|]. split; [done|]. intros (t & _ & _ & Hin & _). inversion Hin.
  - destruct (handleOffsets_partitions_panics b (OT_Topic t) (OT_Partitions t) [])
      as [Hnd Hiff].
    destruct (handleOffsets_partitions b (OT_Topic t) (OT_Partitions t) [])
      as [prs| |] eqn:Hp; cbn; [| |done].
    + destruct (handleOffsets_topics b req) as [rest| |]; cbn; [| |done].
      * split; [done|]. split; [done|].
        intros (t' & p & r & [->|Hin]%elem_of_cons & Hrest).
        -- assert (Ret prs = Panic) as Habs; [|discriminate Habs].
           apply Hiff. destruct Hrest as (? & ? & ?). eauto.
        -- assert (Ret rest = Panic) as Habs; [|discriminate Habs].
           apply IHp. eauto.
      * split; [done|]. split; [|done]. intros _.
        destruct IHp as [IHp _]. destruct (IHp eq_refl) as (t' & p & r & Hin & Hrest).
        exists t', p, r. split; [by right|done].
    + split; [done|]. split; [|done]. intros _.
      destruct Hiff as [Hiff _]. destruct (Hiff eq_refl) as (p & r & Hin & Hrest).
      exists t, p, r. split; [left|done].
Qed.

(** A replica that is registered with its log open and that [startReplica]
    accepts is not changed by it. *)
Lemma startReplica_open (k : ReplicaRef) (b : Broker) r :
  replicaLookup b !! k = Some r →
  is_Some (Replica_Log r) →
  snd (startReplica env k b) = b.
Proof.
  intros Hk [l Hl]. unfold startReplica, bind, deref, get, store, modify, ret.
  rewrite Hk, Hl. by case_handler.
Qed.

Lemma handleLeaderAndISR_partition_noop (p : PartitionState) (b : Broker) r :
  replicaLookup b !! (PS_Topic p, PS_Partition p) = Some r →
  is_Some (Replica_Log r) →
  fst (startReplica env (PS_Topic p, PS_Partition p) b) = Ret ErrNone →
  transition b r false p = NoTransition →
  handleLeaderAndISR_partition env p b
  = (Ret (mkLeaderAndISRPartition (PS_Topic p) (PS_Partition p) (Code ErrNone)), b).
Proof.
  intros Hk Hlog Hstart Htrans.
  pose proof (startReplica_open _ _ _ Hk Hlog) as Hsame.
  assert (Hlook : lookupOrCreateReplica p b = (Ret false, b)).
  { unfold lookupOrCreateReplica, bind, get, ret.
    rewrite bool_decide_eq_false_2; [reflexivity|]. congruence. }
  assert (Hstart' : startReplica env (PS_Topic p, PS_Partition p) b = (Ret ErrNone, b)).
  { destruct (startReplica env (PS_Topic p, PS_Partition p) b) as [o b1].
    cbn in Hstart, Hsame. by subst. }
  unfold handleLeaderAndISR_partition.
  unfold bind at 1. rewrite Hlook.
  unfold bind at 1. rewrite Hstart'.
  rewrite bool_decide_eq_false_2 by (intros H; by apply H).
  unfold bind at 1. unfold deref at 1. unfold ReplicaRef. rewrite Hk.
  unfold bind at 1. unfold get at 1. by rewrite Htrans.
Qed.

(** X14. A PartitionState that names this broker as leader, for a started
    replica that already records this broker as leader and lists it in its
    AR, changes nothing: the Replicas and ISR it carries are not recorded,
    whatever they are. *)
Theorem X14_leader_ignores_update (p : PartitionState) (b : Broker) r :
  replicaLookup b !! (PS_Topic p, PS_Partition p) = Some r →
  is_Some (Replica_Log r) →
  fst (startReplica env (PS_Topic p, PS_Partition p) b) = Ret ErrNone →
  PS_Leader p = config_ID b →
  Partition_Leader (Replica_Partition r) = config_ID b →
  contains (Partition_AR (Replica_Partition r)) (config_ID b) = true →
  handleLeaderAndISR_partition env p b
  = (Ret (mkLeaderAndISRPartition (PS_Topic p) (PS_Partition p) (Code ErrNone)), b).
Proof.
  intros Hk Hlog Hstart Hlead Hcur HAR.
  apply (handleLeaderAndISR_partition_noop p b r Hk Hlog Hstart).
  unfold transition. rewrite Hlead, Hcur, Z.eqb_refl, HAR. cbn.
  by rewrite andb_false_r.
Qed.

(** X15. A PartitionState that names another broker as leader changes
    nothing on a started replica whose AR already lists that broker: the
    replica is not made a follower of the new leader, and a replicator it
    has keeps pulling from where it did. *)
Theorem X15_follower_not_retargeted (p : PartitionState) (b : Broker) r :
  replicaLookup b !! (PS_Topic p, PS_Partition p) = Some r →
  is_Some (Replica_Log r) →
  fst (startReplica env (PS_Topic p, PS_Partition p) b) = Ret ErrNone →
  PS_Leader p ≠ config_ID b →
  contains (Partition_AR (Replica_Partition r)) (PS_Leader p) = true →
  handleLeaderAndISR_partition env p b
  = (Ret (mkLeaderAndISRPartition (PS_Topic p) (PS_Partition p) (Code ErrNone)), b).
Proof.
  intros Hk Hlog Hstart Hlead HAR.
  apply (handleLeaderAndISR_partition_noop p b r Hk Hlog Hstart).
  unfold transition. apply Z.eqb_neq in Hlead. rewrite Hlead, HAR. cbn.
  by rewrite andb_false_r.
Qed.

End LeaderAndISR.

Lemma X11_handleLeaderAndISR_response_witness :
  ∃ resp b',
    handleLeaderAndISR env_ok (mkLeaderAndISRRequest 2 0 [follow3; ghost_state])
                       follower_broker = (Ret resp, b')
    ∧ length (LResp_Partitions resp) = 2%nat.
Proof.
  destruct (handleLeaderAndISR env_ok (mkLeaderAndISRRequest 2 0 [follow3; ghost_state])
                              follower_broker) as [[resp| |] b'] eqn:H;
    [|vm_compute in H; discriminate H..].
  exists resp, b'. split; [reflexivity|].
  destruct (X11_handleLeaderAndISR_response env_ok _ _ _ _ H) as [_ HF].
  apply Forall2_length in HF. symmetry. exact HF.
Defined.

Lemma X12_unknown_topic_leaves_replica_witness :
  handleOffsets
    (snd (handleLeaderAndISR_partition env_ok ghost_state (broker1 true)))
    [mkOffsetsTopic "ghost" [mkOffsetsPartition 0 (-2)]]
  = Panic.
Proof.
  destruct (X12_unknown_topic_leaves_replica env_ok ghost_state (broker1 true))
    as (Hrun & _ & Hpanic); [reflexivity..|].
  rewrite Hrun. apply Hpanic.
Defined.

Lemma X14_leader_ignores_update_witness :
  handleLeaderAndISR_partition env_ok lead1_alone leader_broker
  = (Ret (mkLeaderAndISRPartition "t" 0 0), leader_broker).
Proof.
  apply (X14_leader_ignores_update env_ok lead1_alone leader_broker
           (mkReplica 1 (mkPartition "t" 0 0 1 [1; 2] [1; 2] 0 0) true
                      (Some (mkMemLog 0 ["a"] false)) 0 0 None));
    first [by eexists | vm_compute; reflexivity].
Defined.

Lemma X15_follower_not_retargeted_witness :
  handleLeaderAndISR_partition env_ok follow3 follower_of_2_broker
  = (Ret (mkLeaderAndISRPartition "t" 0 0), follower_of_2_broker).
Proof.
  apply (X15_follower_not_retargeted env_ok follow3 follower_of_2_broker follower_of_2);
    first [by eexists | vm_compute; congruence | vm_compute; reflexivity].
Defined.

(** ** createTopic: what it leaves behind *)

Section TopicLifecycle.

Context {L RS : Type} {CL : CommitLog L RS} (env : Env (L := L)).

#[local] Instance keeps_topics_preorder : PreOrder (keeps_topics (L := L)).
Proof.
  split.
  - by intros b topic.
  - intros b1 b2 b3 H12 H23 topic H. by apply H23, H12.
Qed.

(** Handlers that write only the registry and the trace keep whatever
    depends on neither. *)
Section ReplicasAndTrace.

Context (R : Broker (L := L) → Broker (L := L) → Prop) `{!PreOrder R}.
Hypothesis R_trace : ∀ b t, R b (set_trace t b).
Hypothesis R_replicas : ∀ b m, R b (set_replicaLookup m b).

Lemma keeps_store k f : keeps R (store k f).
Proof. intros b. apply R_replicas. Qed.

Lemma keeps_AddReplica r : keeps R (AddReplica r).
Proof. intros b. apply R_replicas. Qed.

Lemma keeps_emit e : keeps R (emit e).
Proof. intros b. apply R_trace. Qed.

Lemma keeps_Replicator_Close r : keeps R (Replicator_Close env r).
Proof. intros b. apply R_trace. Qed.

Lemma keeps_client_LeaderAndISR s req : keeps R (client_LeaderAndISR env s req).
Proof. intros b. apply R_trace. Qed.

Lemma keeps_startReplica k : keeps R (startReplica env k).
Proof. unfold startReplica. keeps_handler; apply keeps_store. Qed.

Lemma keeps_becomeLeader k cmd : keeps R (becomeLeader env k cmd).
Proof.
  unfold becomeLeader. keeps_handler;
    first [apply keeps_store | apply keeps_Replicator_Close].
Qed.

Lemma keeps_becomeFollower k cmd : keeps R (becomeFollower env k cmd).
Proof.
  unfold becomeFollower. keeps_handler;
    first [apply keeps_store | apply keeps_Replicator_Close | apply keeps_emit].
Qed.

Lemma keeps_handleLeaderAndISR req : keeps R (handleLeaderAndISR env req).
Proof.
  unfold handleLeaderAndISR, handleLeaderAndISR_partition, lookupOrCreateReplica.
  cbv zeta. keeps_handler;
    first [apply keeps_AddReplica | apply keeps_store
          | apply keeps_Replicator_Close | apply keeps_emit].
Qed.

Lemma keeps_dispatchLeaderAndISR req s : keeps R (dispatchLeaderAndISR env req s).
Proof.
  unfold dispatchLeaderAndISR. keeps_handler;
    first [apply keeps_handleLeaderAndISR | apply keeps_client_LeaderAndISR
          | apply keeps_AddReplica | apply keeps_store
          | apply keeps_Replicator_Close | apply keeps_emit].
Qed.

End ReplicasAndTrace.

(** Registering partitions proposes one command after the other until one
    fails, and touches neither replicas nor topics. *)
Lemma createPartitions_spec ps (b : Broker) :
  ∃ failed b' cmds,
    createPartitions env ps b = (Ret failed, b')
    ∧ replicaLookup b' = replicaLookup b
    ∧ trace b' = trace b ++ map EvRaftApply cmds
    ∧ keeps_topics b b'
    ∧ (failed = true → cmds ≠ []).
Proof.
  revert b. induction ps as [|p ps IH]; intros b; cbn [createPartitions].
  - exists false, b, []. unfold ret. rewrite app_nil_r.
    split_and!; try done.
  - unfold bind, createPartition, raftApply.
    destruct (raftApplyErr env (trace b) (RegisterPartitionRequest p)) eqn:Herr.
    + eexists true, _, [RegisterPartitionRequest p]. unfold ret. cbn.
      split_and!; try done; try (by intros topic).
    + match goal with
      | |- context [createPartitions env ps ?b1] =>
          destruct (IH b1) as (failed & b' & cmds & -> & Hrep & Htr & Htop & Hcmds)
      end.
      exists failed, b', (RegisterPartitionRequest p :: cmds). cbn in *.
      rewrite Htr, <- app_assoc. split_and!; try done;
        try (intros topic Ht; by apply Htop).
Qed.

(** X16. After a [createTopic] that returned ErrNone the topic is in the
    state store, and (when the store reads without error) every further
    [createTopic] for it returns TopicAlreadyExists without drawing,
    proposing or sending anything. *)
Theorem X16_createTopic_then_exists topic partitions f partitions' f' (b b' : Broker) :
  getTopicErr env topic = false →
  createTopic env topic partitions f b = (Ret ErrNone, b') →
  is_Some (fsm_topics (fsm b') !! topic)
  ∧ createTopic env topic partitions' f' b' = (Ret ErrTopicAlreadyExists, b').
Proof.
  intros Herr Hrun.
  assert (Htopic : is_Some (fsm_topics (fsm b') !! topic)).
  { revert Hrun. unfold createTopic. unfold bind at 1. unfold get at 1.
    destruct (GetTopic env (fsm b) topic).1; [discriminate|].
    unfold bind at 1.
    destruct (buildPartitions env topic partitions f b) as [[ps| |] b1];
      try discriminate.
    unfold bind at 1. unfold raftApply at 1.
    destruct (raftApplyErr env (trace b1) _); [discriminate|].
    match goal with
    | |- context [bind (createPartitions env ps) _ ?b2] =>
        assert (Hreg : is_Some (fsm_topics (fsm b2) !! topic));
        [|destruct (createPartitions_spec ps b2)
            as (failed & b3 & cmds & Hcp & _ & _ & Htop & _)]
    end.
    { cbn. destruct (fsm_topics (fsm b1) !! topic) eqn:Ht; cbn.
      - rewrite Ht. eauto.
      - rewrite lookup_insert_eq. eauto. }
    unfold bind at 1. rewrite Hcp. destruct failed; [discriminate|].
    unfold bind at 1. unfold get at 1. unfold bind at 1.
    match goal with
    | |- context [forM ?f ?l b3] =>
        pose proof (keeps_forM keeps_topics f l
                      (keeps_dispatchLeaderAndISR keeps_topics
                         (λ _ _ _, id) (λ _ _ _, id) _) b3) as Hkeep;
        destruct (forM f l b3) as [[u| |] b4]; try discriminate
    end.
    unfold ret. intros [= <-]. cbn in Hkeep. by apply Hkeep, Htop. }
  split; [exact Htopic|].
  destruct Htopic as [t Ht].
  unfold createTopic, bind, get, GetTopic. by rewrite Herr, Ht.
Qed.

(** X17. A [createTopic] that returns ErrUnknown has proposed at least one
    Raft command and has done nothing else: no replica was created or
    changed and nothing was sent. Nothing is undone either: when the
    failure came after the first command, the topic stays registered. *)
Theorem X17_createTopic_failure topic partitions f (b b' : Broker) :
  createTopic env topic partitions f b = (Ret ErrUnknown, b') →
  replicaLookup b' = replicaLookup b
  ∧ ∃ cmds,
      cmds ≠ []
      ∧ trace b' = trace b ++ map EvRaftApply cmds
      ∧ ((1 < length cmds)%nat → is_Some (fsm_topics (fsm b') !! topic)).
Proof.
  unfold createTopic. unfold bind at 1. unfold get at 1.
  destruct (GetTopic env (fsm b) topic).1; [discriminate|].
  unfold bind at 1.
  destruct (buildPartitions env topic partitions f b) as [[ps| |] b1] eqn:Hps;
    try discriminate.
  assert (Hb1 : replicaLookup b1 = replicaLookup b ∧ trace b1 = trace b).
  { unfold buildPartitions, bind at 1, get in Hps.
    destruct (buildPartitions_loop_ret _ _ _ _ _ _ _ _ _ _ _ Hps) as (_ & _ & _ & -> & _).
    done. }
  destruct Hb1 as [Hrep1 Htr1].
  unfold bind at 1. unfold raftApply at 1.
  destruct (raftApplyErr env (trace b1) _) eqn:Hfail.
  - unfold ret. intros [= <-]. cbn. split; [done|].
    eexists [_]. rewrite Htr1. cbn. split_and!; [done|done|lia].
  - match goal with
    | |- context [bind (createPartitions env ps) _ ?b2] =>
        assert (Hreg : is_Some (fsm_topics (fsm b2) !! topic));
        [|destruct (createPartitions_spec ps b2)
            as (failed & b3 & cmds & Hcp & Hrep3 & Htr3 & Htop & Hcmds)]
    end.
    { cbn. destruct (fsm_topics (fsm b1) !! topic) eqn:Ht; cbn.
      - rewrite Ht. eauto.
      - rewrite lookup_insert_eq. eauto. }
    unfold bind at 1. rewrite Hcp. destruct failed.
    + unfold ret. intros [= <-]. cbn in Hrep3, Htr3. split; [congruence|].
      eexists (_ :: cmds). rewrite Htr3, Htr1, <- app_assoc. cbn.
      split_and!; [done|done|]. intros _. by apply Htop.
    + unfold bind at 1. unfold get at 1. unfold bind at 1.
      destruct (forM _ _ b3) as [[u| |] b4]; discriminate.
Qed.

End TopicLifecycle.

Lemma X16_createTopic_then_exists_witness :
  createTopic env_ok "t" 3 2 (snd (createTopic env_ok "t" 1 1 (broker1 true)))
  = (Ret ErrTopicAlreadyExists, snd (createTopic env_ok "t" 1 1 (broker1 true))).
Proof.
  apply (X16_createTopic_then_exists env_ok "t" 1 1 3 2 (broker1 true)).
  - reflexivity.
  - vm_compute. reflexivity.
Defined.

Lemma X17_createTopic_failure_witness :
  replicaLookup (snd (createTopic env_raft_down "t" 1 1 (broker1 true)))
  = replicaLookup (broker1 true).
Proof.
  apply (X17_createTopic_failure env_raft_down "t" 1 1 (broker1 true)).
  vm_compute. reflexivity.
Defined.

(** ** handleCreateTopic and handleDeleteTopics: the responses *)

Section TopicResponses.

Context {L RS : Type} {CL : CommitLog L RS} (env : Env (L := L)).

Lemma createTopic_codes topic partitions f :
  returns (λ e, e ∈ [ErrTopicAlreadyExists; ErrUnknown; ErrNone])
          (createTopic env topic partitions f).
Proof.
  unfold createTopic.
  eapply returns_bind; [apply returns_any|]. intros b0 _.
  destruct (GetTopic env (fsm b0) topic).1; [apply returns_ret; in_list|].
  eapply returns_bind; [apply returns_any|]. intros ps _.
  eapply returns_bind; [apply returns_any|]. intros [|] _; [apply returns_ret; in_list|].
  eapply returns_bind; [apply returns_any|]. intros [|] _; [apply returns_ret; in_list|].
  eapply returns_bind; [apply returns_any|]. intros b1 _.
  eapply returns_bind; [apply returns_any|]. intros u _.
  apply returns_ret. in_list.
Qed.

(** X18. When [handleCreateTopic] returns, the response holds one code per
    request, in order and under the request's topic name, and each code is
    one of NotController, InvalidReplicationFactor, TopicAlreadyExists,
    ErrUnknown and ErrNone. *)
Theorem X18_handleCreateTopic_response (reqs : list CreateTopicRequest) (b b' : Broker) resp :
  handleCreateTopic env reqs b = (Ret resp, b') →
  Forall2
    (λ req tec,
       TEC_Topic tec = CTReq_Topic req
       ∧ TEC_ErrorCode tec
         ∈ map Code [ErrNotController; ErrInvalidReplicationFactor;
                     ErrTopicAlreadyExists; ErrUnknown; ErrNone])
    reqs resp.
Proof.
  revert b resp b'.
  change (returns
            (Forall2
               (λ req tec,
                  TEC_Topic tec = CTReq_Topic req
                  ∧ TEC_ErrorCode tec
                    ∈ map Code [ErrNotController; ErrInvalidReplicationFactor;
                                ErrTopicAlreadyExists; ErrUnknown; ErrNone])
               reqs)
            (handleCreateTopic env reqs)).
  assert (Hcode : ∀ e, e ∈ [ErrNotController; ErrInvalidReplicationFactor;
                            ErrTopicAlreadyExists; ErrUnknown; ErrNone] →
            Code e ∈ map Code [ErrNotController; ErrInvalidReplicationFactor;
                               ErrTopicAlreadyExists; ErrUnknown; ErrNone]).
  { intros e He. by apply list_elem_of_fmap_2. }
  unfold handleCreateTopic.
  eapply returns_bind; [apply returns_any|]. intros b0 _.
  apply returns_forM. intros req. unfold handleCreateTopic_request.
  destruct (negb (isController b0)).
  { apply returns_ret. split; [done|]. apply (Hcode ErrNotController). in_list. }
  eapply returns_bind; [apply returns_any|]. intros b1 _.
  destruct (_ <? _).
  { apply returns_ret. split; [done|]. apply (Hcode ErrInvalidReplicationFactor). in_list. }
  eapply returns_bind; [apply createTopic_codes|]. intros e He.
  apply returns_ret. split; [done|]. apply (Hcode e). in_list.
Qed.

(** X19. On the controller, [handleDeleteTopics] always returns. It
    proposes one DeregisterTopic per topic of the request, in order and
    whether or not the topic exists, and answers each topic ErrNone or
    ErrUnknown; it changes no replica, so the logs of a deleted topic's
    partitions stay open. *)
Theorem X19_handleDeleteTopics_controller (topics : list string) (b : Broker) :
  isController b = true →
  ∃ resp b',
    handleDeleteTopics env topics b = (Ret resp, b')
    ∧ map TEC_Topic resp = topics
    ∧ Forall (λ tec, TEC_ErrorCode tec = Code ErrNone
                     ∨ TEC_ErrorCode tec = Code ErrUnknown) resp
    ∧ trace b'
      = trace b
        ++ map (λ topic, EvRaftApply (DeregisterTopicRequest (mkTopic topic ∅))) topics
    ∧ replicaLookup b' = replicaLookup b.
Proof.
  intros Hc. unfold handleDeleteTopics, bind at 1, get. rewrite Hc. clear Hc.
  revert b. induction topics as [|topic topics IH]; intros b; cbn [forM].
  - exists [], b. unfold ret. rewrite app_nil_r. split_and!; try done.
  - unfold bind at 1. unfold handleDeleteTopics_topic at 1. cbn [negb].
    unfold bind at 1. unfold raftApply at 1.
    destruct (raftApplyErr env (trace b) _) eqn:Herr; unfold ret at 1;
      unfold bind at 1;
      match goal with
      | |- context [forM _ topics ?b1] =>
          destruct (IH b1) as (resp & b' & -> & Htopics & Hcodes & Htrace & Hrep)
      end;
      unfold ret; eexists (_ :: resp), b'; cbn in *;
      rewrite Htopics, Htrace, <- app_assoc;
      (split_and!; [done|done| |done|done]);
      constructor; cbn; auto.
Qed.

End TopicResponses.

Lemma X18_handleCreateTopic_response_witness :
  ∃ resp b',
    handleCreateTopic env_ok
      [mkCreateTopicRequest "t" 1 1; mkCreateTopicRequest "t" 1 1;
       mkCreateTopicRequest "u" 1 9] (broker1 true) = (Ret resp, b')
    ∧ length resp = 3%nat.
Proof.
  destruct (handleCreateTopic env_ok
              [mkCreateTopicRequest "t" 1 1; mkCreateTopicRequest "t" 1 1;
               mkCreateTopicRequest "u" 1 9] (broker1 true))
    as [[resp| |] b'] eqn:H; [|vm_compute in H; discriminate H..].
  exists resp, b'. split; [reflexivity|].
  pose proof (X18_handleCreateTopic_response env_ok _ _ _ _ H) as HF.
  apply Forall2_length in HF. symmetry. exact HF.
Defined.

Lemma X19_handleDeleteTopics_controller_witness :
  ∃ resp b',
    handleDeleteTopics env_ok ["t"; "nowhere"] leader_broker = (Ret resp, b')
    ∧ replicaLookup b' = replicaLookup leader_broker.
Proof.
  destruct (X19_handleDeleteTopics_controller env_ok ["t"; "nowhere"] leader_broker)
    as (resp & b' & Hrun & _ & _ & _ & Hrep); [reflexivity|].
  exists resp, b'. split; [exact Hrun|exact Hrep].
Defined.

(** ** handleProduce: frame, responses, order *)

Section ProduceProperties.

Context {L RS : Type} {CL : CommitLog L RS} (env : Env (L := L)).

#[local] Instance writes_logs_only_preorder : PreOrder (writes_logs_only (L := L)).
Proof.
  split.
  - by intros b.
  - intros b1 b2 b3 (Hf12 & Ht12 & Hr12) (Hf23 & Ht23 & Hr23).
    split_and!; [congruence|congruence|]. intros k. by rewrite Hr23, Hr12.
Qed.

Lemma keeps_store_log (k : ReplicaRef) (l : option L) :
  keeps writes_logs_only (store k (set_Log l)).
Proof.
  intros b. split_and!; [done|done|]. intros k'. cbn. by apply alter_proj.
Qed.

Lemma keeps_time_Now : keeps writes_logs_only (time_Now env).
Proof. intros b. by split_and!. Qed.

(** X20. [handleProduce] writes logs and nothing else: whatever the
    request and however the call ends, the state store and the trace are as
    before and every replica keeps its partition metadata, its replicator
    and its other fields. *)
Theorem X20_handleProduce_frame (req : list ProduceTopicData) (b : Broker) :
  let b' := snd (handleProduce env req b) in
  fsm b' = fsm b
  ∧ trace b' = trace b
  ∧ ∀ k : ReplicaRef,
      Replica_but_log <$> replicaLookup b' !! k
      = Replica_but_log <$> replicaLookup b !! k.
Proof.
  revert b. change (keeps writes_logs_only (handleProduce env req)).
  unfold handleProduce, handleProduce_topic, handleProduce_partition.
  keeps_handler; first [apply keeps_store_log | apply keeps_time_Now].
Qed.

(** X21. When [handleProduce] returns, the response follows the request:
    one entry per topic and, in it, one partition response per record set,
    in order. A partition response either names the requested partition,
    with code ErrNone or ReplicaNotAvailable, or it carries ErrUnknown or
    UnknownTopicOrPartition and then names partition 0 and base offset 0,
    whatever partition was asked for. *)
Theorem X21_handleProduce_response (req : list ProduceTopicData) (b b' : Broker) resp :
  handleProduce env req b = (Ret resp, b') →
  Forall2
    (λ td r,
       PResp_Topic r = PTD_Topic td
       ∧ Forall2
           (λ p presp,
              (PPR_Partition presp = PD_Partition p
               ∧ PPR_ErrorCode presp ∈ map Code [ErrNone; ErrReplicaNotAvailable])
              ∨ (PPR_Partition presp = 0 ∧ PPR_BaseOffset presp = 0
                 ∧ PPR_ErrorCode presp ∈ map Code [ErrUnknown; ErrUnknownTopicOrPartition]))
           (PTD_Data td) (PResp_PartitionResponses r))
    req resp.
Proof.
  revert b resp b'.
  change (returns
            (Forall2
               (λ td r,
                  PResp_Topic r = PTD_Topic td
                  ∧ Forall2
                      (λ p presp,
                         (PPR_Partition presp = PD_Partition p
                          ∧ PPR_ErrorCode presp
                            ∈ map Code [ErrNone; ErrReplicaNotAvailable])
                         ∨ (PPR_Partition presp = 0 ∧ PPR_BaseOffset presp = 0
                            ∧ PPR_ErrorCode presp
                              ∈ map Code [ErrUnknown; ErrUnknownTopicOrPartition]))
                      (PTD_Data td) (PResp_PartitionResponses r))
               req)
            (handleProduce env req)).
  unfold handleProduce. apply returns_forM. intros td. unfold handleProduce_topic.
  eapply returns_bind; [|intros presps Hp; apply returns_ret; split; [done|exact Hp]].
  apply returns_forM. intros p b x b'.
  unfold handleProduce_partition, bind, get, store, modify, time_Now, ret, panic.
  case_handler; try discriminate; intros [= <- _]; cbn;
    first [left; split; [done|in_list] | right; split_and!; [done|done|in_list]].
Qed.

(** X22. Two record sets for the same partition in one request are
    appended in the order of the request: the second is appended to the
    log the first append left, and each partition response carries the
    base offset of its own append and a clock reading of its own, the
    second taken after the first. *)
Theorem X22_handleProduce_in_order (b : Broker) topic partition rs1 rs2 t replica
        l l1 l2 o1 o2 :
  getTopicErr env topic = false →
  fsm_topics (fsm b) !! topic = Some t →
  replicaLookup b !! (topic, partition) = Some replica →
  Replica_Log replica = Some l →
  Append l rs1 = (l1, Some o1) →
  Append l1 rs2 = (l2, Some o2) →
  ∃ b',
    handleProduce env
      [mkProduceTopicData topic [mkProduceData partition rs1; mkProduceData partition rs2]]
      b
    = (Ret [mkProduceResponse topic
              [mkProducePartitionResponse partition (Code ErrNone) o1
                 (timeNow env (clock b));
               mkProducePartitionResponse partition (Code ErrNone) o2
                 (timeNow env (S (clock b)))]],
       b')
    ∧ Replica_Log <$> replicaLookup b' !! (topic, partition) = Some (Some l2).
Proof.
  intros Herr Ht Hk Hl Ha1 Ha2.
  unfold handleProduce, handleProduce_topic. cbn [forM PTD_Topic PTD_Data].
  unfold bind at 1. unfold bind at 1. unfold bind at 1.
  rewrite (handleProduce_partition_appends env b topic (mkProduceData partition rs1)
             t replica l l1 o1 Herr Ht Hk Hl Ha1).
  cbn [PD_Partition PD_RecordSet].
  set (b1 := set_clock _ (set_replicaLookup _ b)).
  assert (Hk1 : replicaLookup b1 !! (topic, partition)
                = Some (set_Log (Some l1) replica)).
  { subst b1. cbn. by rewrite lookup_alter_eq, Hk. }
  unfold bind at 1. unfold bind at 1.
  rewrite (handleProduce_partition_appends env b1 topic (mkProduceData partition rs2)
             t (set_Log (Some l1) replica) l1 l2 o2 Herr Ht Hk1 eq_refl Ha2).
  cbn [PD_Partition PD_RecordSet]. unfold bind, ret. eexists. split; [reflexivity|].
  cbn [replicaLookup set_replicaLookup set_clock]. by rewrite lookup_alter_eq, Hk1.
Qed.

End ProduceProperties.

Lemma X21_handleProduce_response_witness :
  ∃ resp b',
    handleProduce env_ok
      [mkProduceTopicData "t" [mkProduceData 0 ["d"]; mkProduceData 5 ["e"]];
       mkProduceTopicData "ghost" [mkProduceData 3 ["f"]]] follower_broker
    = (Ret resp, b')
    ∧ length resp = 2%nat.
Proof.
  destruct (handleProduce env_ok
              [mkProduceTopicData "t" [mkProduceData 0 ["d"]; mkProduceData 5 ["e"]];
               mkProduceTopicData "ghost" [mkProduceData 3 ["f"]]] follower_broker)
    as [[resp| |] b'] eqn:H; [|vm_compute in H; discriminate H..].
  exists resp, b'. split; [reflexivity|].
  pose proof (X21_handleProduce_response env_ok _ _ _ _ H) as HF.
  apply Forall2_length in HF. symmetry. exact HF.
Defined.

Lemma X22_handleProduce_in_order_witness :
  ∃ b',
    handleProduce env_ticking
      [mkProduceTopicData "t" [mkProduceData 0 ["d"; "e"]; mkProduceData 0 ["f"]]]
      follower_broker
    = (Ret [mkProduceResponse "t"
              [mkProducePartitionResponse 0 0 3 1500000000;
               mkProducePartitionResponse 0 0 5 1500000001]],
       b')
    ∧ Replica_Log <$> replicaLookup b' !! ("t", 0)
      = Some (Some (mkMemLog 0 ["a"; "b"; "c"; "d"; "e"; "f"] false)).
Proof.
  apply (X22_handleProduce_in_order env_ticking follower_broker "t" 0 ["d"; "e"] ["f"]
           (mkTopic "t" {[0 := [2; 1]]}) follower_replica
           (mkMemLog 0 ["a"; "b"; "c"] false)
           (mkMemLog 0 ["a"; "b"; "c"; "d"; "e"] false)
           (mkMemLog 0 ["a"; "b"; "c"; "d"; "e"; "f"] false) 3 5);
    vm_compute; reflexivity.
Defined.

(** ** Run: bodies, one response per request *)

Section RunMore.

Context {L RS : Type} {CL : CommitLog L RS} (env : Env (L := L)).
Context {FetchRequest FetchResponses MetadataRequest MetadataResponse : Type}.
Context (handleFetch : FetchRequest → M (L := L) FetchResponses).
Context (handleMetadata : MetadataRequest → M (L := L) MetadataResponse).

Lemma Run_loop_stale_body (evs : list (RunEvent (RS := RS) FetchRequest MetadataRequest))
      resp (b : Broker) (i : nat) out request :
  let outs := fst (fst (Run_loop env handleFetch handleMetadata evs resp b)) in
  outs !! i = Some out →
  received evs !! i = Some request →
  Request_Request request = ReqOther FetchRequest MetadataRequest →
  PResponse_Body (Response_Response out)
  = match i with
    | O => resp
    | S j => outs !! j ≫= (λ prev, PResponse_Body (Response_Response prev))
    end.
Proof.
  revert resp b i. induction evs as [|[r|] evs IH]; intros resp b i; cbn;
    [by rewrite lookup_nil| |by rewrite lookup_nil].
  destruct (Run_switch env handleFetch handleMetadata (Request_Request r) resp b)
    as [[resp'| |] b1] eqn:Hsw; cbn; [|by rewrite lookup_nil..].
  destruct (Request_Header r) as [header|]; cbn; [|by rewrite lookup_nil].
  specialize (IH resp' b1).
  destruct (Run_loop env handleFetch handleMetadata evs resp' b1) as [[outs e] b2].
  cbn in *. destruct i as [|i]; cbn.
  - intros [= <-] [= <-] Hother. cbn. rewrite Hother in Hsw.
    cbn in Hsw. unfold ret in Hsw. congruence.
  - intros Hout Hreq Hother. rewrite (IH i Hout Hreq Hother).
    by destruct i.
Qed.

(** X23. A request of a type the switch of [Run] does not list is answered
    with the body of the response before it, and with no body when it is
    the first request. *)
Theorem X23_Run_unlisted_request_repeats_body
        (evs : list (RunEvent (RS := RS) FetchRequest MetadataRequest)) (b : Broker)
        (i : nat) out request :
  let outs := fst (fst (Run env handleFetch handleMetadata evs b)) in
  outs !! i = Some out →
  received evs !! i = Some request →
  Request_Request request = ReqOther FetchRequest MetadataRequest →
  PResponse_Body (Response_Response out)
  = match i with
    | O => None
    | S j => outs !! j ≫= (λ prev, PResponse_Body (Response_Response prev))
    end.
Proof. apply Run_loop_stale_body. Qed.

(** X25. [Run] sends exactly one response per request it received, as long
    as it is blocked on the channel or has returned; after a panic or a
    divergence, the request that caused it has no response. *)
Theorem X25_Run_one_response_per_request
        (evs : list (RunEvent (RS := RS) FetchRequest MetadataRequest)) (b : Broker) :
  let outs := fst (fst (Run env handleFetch handleMetadata evs b)) in
  match snd (fst (Run env handleFetch handleMetadata evs b)) with
  | Returned | Blocked => length outs = length (received evs)
  | Panicked | Diverged => (length outs < length (received evs))%nat
  end.
Proof.
  unfold Run. generalize (@None (ResponseBody FetchResponses MetadataResponse)).
  revert b. induction evs as [|[r|] evs IH]; intros b resp; cbn; [done| |done].
  destruct (Run_switch env handleFetch handleMetadata (Request_Request r) resp b)
    as [[resp'| |] b1]; cbn; [|lia..].
  destruct (Request_Header r); cbn; [|lia].
  specialize (IH b1 resp').
  destruct (Run_loop env handleFetch handleMetadata evs resp' b1) as [[outs e] b2].
  cbn in *. destruct e; lia.
Qed.

End RunMore.

(** ** handleFetch *)

Section FetchProperties.

Context {L RS Rd : Type} {CL : CommitLog L RS} {LR : LogReader L Rd}.
Context (sinceMs : nat → Z).

Lemma handleFetch_partition_answer fuel (b : Broker) r topic tick p tick' slot :
  handleFetch_partition sinceMs fuel b r topic tick p = Some (Ret (tick', slot)) →
  fetch_answer b topic p slot.
Proof.
  unfold handleFetch_partition, fetch_answer, assign.
  destruct (replicaLookup b !! (topic, FP_Partition p)) as [replica|] eqn:Hk.
  - destruct (Z.eqb_spec (Partition_Leader (Replica_Partition replica)) (config_ID b))
      as [Hlead|Hlead]; cbn [negb].
    + destruct (Replica_Log replica) as [log|] eqn:Hlog; [|discriminate].
      destruct (NewReader log (FP_FetchOffset p) (FP_MaxBytes p)) as [rdr|] eqn:Hrd;
        [destruct (handleFetch_read _ _ _ _ _ _ _ _ _) as [[[t1 buf] slot1]|];
           [|discriminate]|];
        (intros [= <- <-]; eexists; split_and!; try done;
         [intros replica' [= <-] Hne; done
         |intros replica' log' [= <-] _ Hlog'; rewrite Hlog in Hlog';
          injection Hlog' as <-; by rewrite Hrd]).
    + intros [= <- <-]. eexists. split_and!; try done.
      intros replica' log' [= <-] Heq. done.
  - intros [= <- <-]. eexists. split_and!; try done.
Qed.

Lemma handleFetch_partitions_answer fuel (b : Broker) r topic ps :
  ∀ tick tick' slots,
    handleFetch_partitions sinceMs fuel b r topic tick ps = Some (Ret (tick', slots)) →
    Forall2 (fetch_answer b topic) ps slots.
Proof.
  induction ps as [|p ps IH]; intros tick tick' slots; cbn.
  - intros [= <- <-]. constructor.
  - destruct (handleFetch_partition sinceMs fuel b r topic tick p)
      as [[[t1 slot]| |]|] eqn:Hp; try discriminate.
    destruct (handleFetch_partitions sinceMs fuel b r topic t1 ps)
      as [[[t2 rest]| |]|] eqn:Hps; try discriminate.
    intros [= <- <-]. constructor; [by eapply handleFetch_partition_answer|].
    by eapply IH.
Qed.

(** X26. In a response of [handleFetch] every requested topic and
    partition has its entry, in order. A partition without a local replica
    is answered ReplicaNotAvailable, one this broker does not lead
    NotLeaderForPartition, one whose reader cannot be opened ErrUnknown,
    each with an empty record set. Once the reader is open the answer is
    ErrNone with the log's NewestOffset as high watermark, whatever the
    copies return: a failed copy is not reported. *)
Theorem X26_handleFetch_answers fuel (b : Broker) (r : FetchRequest) resp :
  handleFetch sinceMs fuel b r = Some (Ret resp) →
  Forall2
    (λ t entry,
       fst entry = FT_Topic t
       ∧ Forall2 (fetch_answer b (FT_Topic t)) (FT_Partitions t) (snd entry))
    (FReq_Topics r) resp.
Proof.
  unfold handleFetch. generalize 0%nat. revert resp.
  induction (FReq_Topics r) as [|t ts IH]; intros resp tick; cbn.
  - intros [= <-]. constructor.
  - destruct (handleFetch_partitions sinceMs fuel b r (FT_Topic t) tick (FT_Partitions t))
      as [[[t1 slots]| |]|] eqn:Hps; try discriminate.
    destruct (handleFetch_topics sinceMs fuel b r t1 ts) as [[rest| |]|] eqn:Hts;
      try discriminate.
    intros [= <-]. constructor; [|by eapply IH].
    cbn. split; [done|]. by eapply handleFetch_partitions_answer.
Qed.

Lemma handleFetch_read_no_wait fuel r partition tick buf rdr slot n :
  FReq_MinBytes r <= n →
  handleFetch_read sinceMs (S fuel) r partition tick n buf rdr slot
  = Some (tick, buf, slot).
Proof.
  intros Hn. cbn [handleFetch_read].
  destruct (Z.ltb_spec n (FReq_MinBytes r)); [lia|done].
Qed.

Lemma handleFetch_partitions_no_wait fuel (b : Broker) r topic ps tick :
  FReq_MinBytes r <= 0 →
  (∀ p replica, p ∈ ps →
     replicaLookup b !! (topic, FP_Partition p) = Some replica →
     Partition_Leader (Replica_Partition replica) = config_ID b →
     is_Some (Replica_Log replica)) →
  ∃ slots,
    handleFetch_partitions sinceMs (S fuel) b r topic tick ps = Some (Ret (tick, slots))
    ∧ Forall (λ slot, ∀ pr, slot = Some pr → FPR_RecordSet pr = []) slots.
Proof.
  intros Hmin. induction ps as [|p ps IH]; intros Hlogs; cbn [handleFetch_partitions].
  - exists []. split; [done|constructor].
  - destruct IH as (slots & Hps & Hall).
    { intros p' r' Hin. apply Hlogs. by right. }
    assert (Hp : ∃ slot,
              handleFetch_partition sinceMs (S fuel) b r topic tick p
              = Some (Ret (tick, slot))
              ∧ ∀ pr, slot = Some pr → FPR_RecordSet pr = []).
    { unfold handleFetch_partition, assign.
      destruct (replicaLookup b !! (topic, FP_Partition p)) as [replica|] eqn:Hk;
        [|eexists; split; [done|by intros pr [= <-]]].
      destruct (Z.eqb_spec (Partition_Leader (Replica_Partition replica)) (config_ID b))
        as [Hlead|Hlead]; cbn [negb];
        [|eexists; split; [done|by intros pr [= <-]]].
      destruct (Hlogs p replica) as [log ->]; [left|done|done|].
      destruct (NewReader log _ _) as [rdr|];
        [|eexists; split; [done|by intros pr [= <-]]].
      rewrite handleFetch_read_no_wait by done.
      eexists; split; [done|by intros pr [= <-]]. }
    destruct Hp as (slot & -> & Hslot). rewrite Hps.
    exists (slot :: slots). split; [done|]. by constructor.
Qed.

(** X27. A fetch with MinBytes of zero or less does not read: when the
    replicas it names and this broker leads have their logs open, it
    returns with any fuel but none, without reading the clock, and every
    record set in the response is empty. *)
Theorem X27_handleFetch_min_bytes_zero fuel (b : Broker) (r : FetchRequest) :
  FReq_MinBytes r <= 0 →
  (∀ t p replica, t ∈ FReq_Topics r → p ∈ FT_Partitions t →
     replicaLookup b !! (FT_Topic t, FP_Partition p) = Some replica →
     Partition_Leader (Replica_Partition replica) = config_ID b →
     is_Some (Replica_Log replica)) →
  ∃ resp,
    handleFetch sinceMs (S fuel) b r = Some (Ret resp)
    ∧ Forall (λ entry,
                Forall (λ slot, ∀ pr, slot = Some pr → FPR_RecordSet pr = [])
                       (snd entry)) resp.
Proof.
  intros Hmin. unfold handleFetch. generalize 0%nat.
  induction (FReq_Topics r) as [|t ts IH]; intros tick Hlogs; cbn [handleFetch_topics].
  - exists []. split; [done|constructor].
  - destruct (handleFetch_partitions_no_wait fuel b r (FT_Topic t) (FT_Partitions t)
                tick Hmin) as (slots & -> & Hslots).
    { intros p replica Hin. apply (Hlogs t); [left|done]. }
    destruct (IH tick) as (rest & -> & Hrest).
    { intros t' p replica Hin. apply Hlogs. by right. }
    eexists. split; [done|]. by constructor.
Qed.

(** X28. A fetch that asks for at least one byte and sets no MaxWaitTime
    never ends when the reader of its first partition has nothing to copy
    and reports no error: the read loop spins, whatever the fuel. *)
Theorem X28_handleFetch_spins (b : Broker) (r : FetchRequest) t ts p ps replica log rdr :
  FReq_Topics r = t :: ts →
  FT_Partitions t = p :: ps →
  0 < FReq_MinBytes r →
  FReq_MaxWaitTime r = 0 →
  replicaLookup b !! (FT_Topic t, FP_Partition p) = Some replica →
  Partition_Leader (Replica_Partition replica) = config_ID b →
  Replica_Log replica = Some log →
  NewReader log (FP_FetchOffset p) (FP_MaxBytes p) = Some rdr →
  Copy rdr = ([], CopyNil, rdr) →
  ∀ fuel, handleFetch sinceMs fuel b r = None.
Proof.
  intros Hts Hps Hmin Hwait Hk Hlead Hlog Hrd Hcopy fuel.
  assert (Hspin : ∀ tick buf slot,
            handleFetch_read sinceMs fuel r (FP_Partition p) tick 0 buf rdr slot = None).
  { induction fuel as [|fuel IH]; intros tick buf slot; [done|].
    cbn [handleFetch_read]. destruct (Z.ltb_spec 0 (FReq_MinBytes r)); [|lia].
    rewrite Hwait. cbn [Z.eqb negb andb]. rewrite Hcopy. cbn [length Z.of_nat].
    change (int32 (0 + int32 0)) with 0. apply IH. }
  unfold handleFetch. rewrite Hts. cbn [handleFetch_topics]. rewrite Hps.
  cbn [handleFetch_partitions]. unfold handleFetch_partition.
  rewrite Hk, Hlead, Z.eqb_refl. cbn [negb]. by rewrite Hlog, Hrd, Hspin.
Qed.

End FetchProperties.

Lemma X26_handleFetch_answers_witness :
  ∃ resp,
    handleFetch (λ _, 0) 5 failing_reads_broker (fetch_request 0 1) = Some (Ret resp)
    ∧ length resp = 1%nat.
Proof.
  destruct (handleFetch (λ _, 0) 5 failing_reads_broker (fetch_request 0 1))
    as [[resp| |]|] eqn:H; [|vm_compute in H; discriminate H..].
  exists resp. split; [reflexivity|].
  pose proof (X26_handleFetch_answers (λ _, 0) 5 failing_reads_broker _ _ H) as HF.
  apply Forall2_length in HF. symmetry. exact HF.
Defined.

Lemma X27_handleFetch_min_bytes_zero_witness :
  ∃ resp,
    handleFetch (λ _, 0) 1 failing_reads_broker (fetch_request 0 0) = Some (Ret resp).
Proof.
  destruct (X27_handleFetch_min_bytes_zero (λ _, 0) 0 failing_reads_broker
              (fetch_request 0 0)) as (resp & Hrun & _).
  - cbn. lia.
  - intros t p replica Ht Hp.
    apply list_elem_of_singleton in Ht as ->. cbn in Hp.
    repeat (apply elem_of_cons in Hp as [->|Hp]); [| |by inversion Hp];
      vm_compute; intros [= <-]; eauto.
  - exists resp. exact Hrun.
Defined.

Lemma X28_handleFetch_spins_witness :
  handleFetch (λ _, 0) 1000 leader_broker (fetch_request 1 1) = None.
Proof.
  apply (X28_handleFetch_spins (λ _, 0) leader_broker (fetch_request 1 1)
           (mkFetchTopic "t" [mkFetchPartition 0 1 1024; mkFetchPartition 4 0 1024]) []
           (mkFetchPartition 0 1 1024) [mkFetchPartition 4 0 1024]
           (mkReplica 1 (mkPartition "t" 0 0 1 [1; 2] [1; 2] 0 0) true
                      (Some (mkMemLog 0 ["a"] false)) 0 0 None)
           (mkMemLog 0 ["a"] false) (mkChunks [] false));
    first [reflexivity | cbn; lia | vm_compute; reflexivity].
Defined.

(** ** handleMetadata *)

Section MetadataProperties.

Context {L : Type} (env : Env (L := L)).
Context (IsBroker : string → option BrokerMeta).
Context (SplitHostPort : string → option (string * string)).
Context (Atoi : string → option Z).
Context (getPartitionErr : string → Z → bool).

Lemma handleMetadata_brokers_spec (b : Broker (L := L)) mems acc :
  handleMetadata_brokers IsBroker SplitHostPort Atoi b mems acc ≠ Diverge
  ∧ (handleMetadata_brokers IsBroker SplitHostPort Atoi b mems acc = Panic
     ↔ ∃ mem m,
         mem ∈ mems ∧ IsBroker mem = Some m
         ∧ match SplitHostPort (BrokerMeta_Addr m) with
           | None => True
           | Some (_, portStr) => Atoi portStr = None
           end)
  ∧ ∀ out,
      handleMetadata_brokers IsBroker SplitHostPort Atoi b mems acc = Ret out →
      ∃ new,
        out = acc ++ new
        ∧ length new = length (omap IsBroker mems)
        ∧ Forall (λ mb, MB_NodeID mb = config_ID b) new.
Proof.
  revert acc. induction mems as [|mem mems IH]; intros acc; cbn.
  - split_and!; [done| |].
    + split; [done|]. intros (mem & m & Hin & _). inversion Hin.
    + intros out [= <-]. exists []. rewrite app_nil_r. split_and!; [done|done|constructor].
  - destruct (IsBroker mem) as [m|] eqn:Hm; cbn.
    + destruct (SplitHostPort (BrokerMeta_Addr m)) as [[host portStr]|] eqn:Hsplit.
      * destruct (Atoi portStr) as [port|] eqn:Hport.
        -- destruct (IH (acc ++ [mkMetaBroker (config_ID b) host (int32 port)]))
             as (Hnd & Hpanic & Hret).
           split_and!; [done| |].
           ++ rewrite Hpanic. split.
              ** intros (mem' & m' & Hin & Hrest). exists mem', m'. split; [by right|done].
              ** intros (mem' & m' & [->|Hin]%elem_of_cons & Hm' & Hbad).
                 { rewrite Hm in Hm'. injection Hm' as <-.
                   rewrite Hsplit, Hport in Hbad. discriminate. }
                 eauto.
           ++ intros out Hout. destruct (Hret out Hout) as (new & -> & Hlen & Hall).
              exists (mkMetaBroker (config_ID b) host (int32 port) :: new).
              rewrite <- app_assoc. split_and!; [done|cbn; lia|by constructor].
        -- split_and!; [done| |done]. split; [|done]. intros _.
           exists mem, m. split_and!; [left|done|by rewrite Hsplit].
      * split_and!; [done| |done]. split; [|done]. intros _.
        exists mem, m. split_and!; [left|done|by rewrite Hsplit].
    + destruct (IH acc) as (Hnd & Hpanic & Hret). split_and!; [done| |done].
      rewrite Hpanic. split.
      * intros (mem' & m' & Hin & Hrest). exists mem', m'. split; [by right|done].
      * intros (mem' & m' & [->|Hin]%elem_of_cons & Hm' & Hbad); [congruence|eauto].
Qed.

(** X29. [handleMetadata] never diverges, and it panics exactly when some
    serf member that is a broker has an address that does not split into
    host and port or whose port is not a number. When it returns, the
    response lists one broker per member that is a broker, and every one of
    them carries this broker's own id as NodeID. *)
Theorem X29_handleMetadata_brokers (b : Broker (L := L)) (topics : list string) :
  handleMetadata env IsBroker SplitHostPort Atoi getPartitionErr b topics ≠ Diverge
  ∧ (handleMetadata env IsBroker SplitHostPort Atoi getPartitionErr b topics = Panic
     ↔ ∃ mem m,
         mem ∈ LANMembers b ∧ IsBroker mem = Some m
         ∧ match SplitHostPort (BrokerMeta_Addr m) with
           | None => True
           | Some (_, portStr) => Atoi portStr = None
           end)
  ∧ ∀ resp,
      handleMetadata env IsBroker SplitHostPort Atoi getPartitionErr b topics = Ret resp →
      length (MResp_Brokers resp) = length (omap IsBroker (LANMembers b))
      ∧ Forall (λ mb, MB_NodeID mb = config_ID b) (MResp_Brokers resp).
Proof.
  unfold handleMetadata.
  destruct (handleMetadata_brokers_spec b (LANMembers b) []) as (Hnd & Hpanic & Hret).
  destruct (handleMetadata_brokers IsBroker SplitHostPort Atoi b (LANMembers b) [])
    as [brokers| |]; cbn; [| |done].
  - split_and!; [done| |].
    + rewrite <- Hpanic. done.
    + intros resp [= <-]. cbn. destruct (Hret brokers eq_refl) as (new & -> & Hlen & Hall).
      done.
  - split_and!; [done| |done]. by rewrite <- Hpanic.
Qed.

Lemma Forall2_map_r {A B} (P : A → B → Prop) (f : A → B) (l : list A) :
  (∀ x, P x (f x)) → Forall2 P l (map f l).
Proof. intros H. induction l; cbn; by constructor. Qed.

(** X30. For a request that names topics, the response of [handleMetadata]
    holds one entry per name, in order. A name the state store does not
    yield is answered UnknownTopicOrPartition with no partitions. A topic it
    yields is answered ErrNone with one partition entry per partition id of
    the topic: ErrNone with leader, replicas and ISR of the partition
    record, or UnknownTopicOrPartition when the record is missing. *)
Theorem X30_handleMetadata_topics (b : Broker (L := L)) (topics : list string) resp :
  topics ≠ [] →
  handleMetadata env IsBroker SplitHostPort Atoi getPartitionErr b topics = Ret resp →
  Forall2
    (λ name tm,
       (getTopicErr env name = true ∨ fsm_topics (fsm b) !! name = None →
        tm = mkTopicMetadata (Code ErrUnknownTopicOrPartition) name [])
       ∧ ∀ t,
           getTopicErr env name = false →
           fsm_topics (fsm b) !! name = Some t →
           TM_TopicErrorCode tm = Code ErrNone
           ∧ TM_Topic tm = Topic_Topic t
           ∧ length (TM_PartitionMetadata tm) = size (Topic_Partitions t)
           ∧ ∀ id ar,
               Topic_Partitions t !! id = Some ar →
               getPartitionErr (Topic_Topic t) id = false →
               match fsm_partitions (fsm b) !! (Topic_Topic t, id) with
               | Some p =>
                   mkPartitionMetadata (Code ErrNone) (Partition_ID p)
                     (Partition_Leader p) (Partition_AR p) (Partition_ISR p)
               | None =>
                   mkPartitionMetadata (Code ErrUnknownTopicOrPartition) id 0 [] []
               end ∈ TM_PartitionMetadata tm)
    topics (MResp_TopicMetadata resp).
Proof.
  intros Hne. unfold handleMetadata.
  destruct (handleMetadata_brokers IsBroker SplitHostPort Atoi b (LANMembers b) [])
    as [brokers| |]; cbn; try discriminate.
  intros [= <-]. cbn. destruct topics as [|name0 topics0]; [done|].
  apply Forall2_map_r. intros name. unfold handleMetadata_topic, GetTopic. split.
  - intros [Herr|Hnone].
    + by rewrite Herr.
    + destruct (getTopicErr env name); [done|]. by rewrite Hnone.
  - intros t Herr Ht. rewrite Herr, Ht. unfold topicMetadataFn.
    rewrite bool_decide_eq_false_2 by (intros H; by apply H). cbn.
    split_and!; [done|done|by rewrite length_map, length_map_to_list|].
    intros id ar Hid Hperr.
    apply (list_elem_of_fmap_2' _ _ (id, ar)); [by apply elem_of_map_to_list|].
    unfold partitionMetadata, GetPartition. cbn. rewrite Hperr.
    by destruct (fsm_partitions (fsm b) !! (Topic_Topic t, id)).
Qed.

End MetadataProperties.

Lemma X30_handleMetadata_topics_witness :
  ∃ resp,
    handleMetadata env_ok isBroker_by_name splitHostPort_fixed atoi_9092 (λ _ _, false)
                   gossiping_broker ["t"; "ghost"] = Ret resp
    ∧ length (MResp_TopicMetadata resp) = 2%nat.
Proof.
  destruct (handleMetadata env_ok isBroker_by_name splitHostPort_fixed atoi_9092
                           (λ _ _, false) gossiping_broker ["t"; "ghost"])
    as [resp| |] eqn:H; [|vm_compute in H; discriminate H..].
  exists resp. split; [reflexivity|].
  pose proof (X30_handleMetadata_topics env_ok _ _ _ _ gossiping_broker ["t"; "ghost"]
                resp ltac:(discriminate) H) as HF.
  apply Forall2_length in HF. symmetry. exact HF.
Defined.

Lemma X23_Run_unlisted_request_repeats_body_witness :
  ∃ out1 out2,
    fst (fst (Run env_ok no_handler no_handler
                  [Recv offsets_call;
                   Recv (mkRequest 7 (Some (mkRequestHeader 99 0 43 "client"))
                                   (ReqOther unit unit))]
                  five_records_broker))
    = [out1; out2]
    ∧ PResponse_Body (Response_Response out2) = PResponse_Body (Response_Response out1).
Proof.
  eexists _, _. split; [vm_compute; reflexivity|].
  match goal with
  | |- PResponse_Body (Response_Response ?out2) = _ =>
      rewrite (X23_Run_unlisted_request_repeats_body env_ok no_handler no_handler
                 [Recv offsets_call;
                  Recv (mkRequest 7 (Some (mkRequestHeader 99 0 43 "client"))
                                  (ReqOther unit unit))]
                 five_records_broker 1 out2
                 (mkRequest 7 (Some (mkRequestHeader 99 0 43 "client"))
                            (ReqOther unit unit)))
  end; vm_compute; reflexivity.
Defined.
